(** * OpenClaw gateway: HTTP router, hook throttle, framebuffer proxy, display supervisor

    A shallow embedding of the gateway sources

    - [server-http.ts] (hook handler, hook-auth failure table, machine-scoped
      authorizer, noVNC asset serving),
    - [vnc-proxy.ts] (WebSocket <-> TCP byte pump),
    - [vnc-process-manager.ts] (Xvfb / x11vnc supervisor),

    together with the properties the specification states about them.

    Conventions.  JavaScript integers (timestamps, counters, sizes) are [Z];
    a JavaScript [Map] is an insertion-ordered association list with unique
    keys; callbacks registered on sockets, timers and child processes become
    events of a step function; calls into collaborators that live outside the
    embedded files are parameters of a [Section]. *)

From Stdlib Require Import String Ascii DecimalString.
From Stdlib Require Import ZArith List Bool Lia.
Import ListNotations.

Open Scope string_scope.
Open Scope list_scope.
Open Scope Z_scope.

(* ================================================================== *)
(** * JavaScript [Map] with string keys, in insertion order *)
(* ================================================================== *)

Module JsMap.

Section WithValue.

Context {V : Type}.

Definition t : Type := list (string * V).

Definition empty : t := [].

Definition keyIs (k : string) (e : string * V) : bool := String.eqb (fst e) k.

(** [Map.prototype.has] *)
Definition has (k : string) (m : t) : bool := existsb (keyIs k) m.

(** [Map.prototype.get] *)
Fixpoint get (k : string) (m : t) : option V :=
  match m with
  | [] => None
  | e :: rest => if keyIs k e then Some (snd e) else get k rest
  end.

(** [Map.prototype.delete]: the entry leaves the iteration order. *)
Definition delete (k : string) (m : t) : t :=
  filter (fun e => negb (keyIs k e)) m.

(** [Map.prototype.set]: an existing key keeps its position, a new key is
    appended at the end of the iteration order. *)
Fixpoint set (k : string) (v : V) (m : t) : t :=
  match m with
  | [] => [(k, v)]
  | e :: rest => if keyIs k e then (k, v) :: rest else e :: set k v rest
  end.

(** [Map.prototype.size] *)
Definition size (m : t) : Z := Z.of_nat (length m).

(** [Map.prototype.keys], in iteration order *)
Definition keys (m : t) : list string := map fst m.

(** Well-formedness: a [Map] never holds a key twice. *)
Definition wf (m : t) : Prop := NoDup (keys m).

Lemma keyIs_true (k : string) (e : string * V) : keyIs k e = true <-> fst e = k.
Proof. unfold keyIs. apply String.eqb_eq. Qed.

Lemma keyIs_false (k : string) (e : string * V) : keyIs k e = false <-> fst e <> k.
Proof. unfold keyIs. apply String.eqb_neq. Qed.

Lemma has_in_keys (k : string) (m : t) : has k m = true <-> In k (keys m).
Proof.
  unfold has, keys. rewrite existsb_exists, in_map_iff. split.
  - intros [e [Hin He]]. exists e. split; [now apply keyIs_true | exact Hin].
  - intros [e [He Hin]]. exists e. split; [exact Hin | now apply keyIs_true].
Qed.

Lemma has_false_not_in (k : string) (m : t) : has k m = false <-> ~ In k (keys m).
Proof.
  rewrite <- has_in_keys. destruct (has k m); split; intros; congruence.
Qed.

Lemma has_get (k : string) (m : t) : has k m = true <-> get k m <> None.
Proof.
  induction m as [|e rest IH]; simpl.
  - split; congruence.
  - destruct (keyIs k e); simpl; [split; congruence | exact IH].
Qed.

Lemma get_none_has (k : string) (m : t) : get k m = None <-> has k m = false.
Proof.
  pose proof (has_get k m) as H. destruct (has k m), (get k m); split; intros; try congruence.
  - exfalso. apply (proj1 H); auto.
  - exfalso. assert (true = true -> Some v <> None) by (intros; congruence).
    destruct H as [_ H]. discriminate H. congruence.
Qed.

Lemma delete_absent (k : string) (m : t) : has k m = false -> delete k m = m.
Proof.
  induction m as [|e rest IH]; simpl; [reflexivity|].
  destruct (keyIs k e); simpl; [discriminate|].
  intros H. now rewrite (IH H).
Qed.

Lemma length_delete_le (k : string) (m : t) : (length (delete k m) <= length m)%nat.
Proof. apply filter_length_le. Qed.

Lemma length_delete_present (k : string) (m : t) :
  has k m = true -> (length (delete k m) < length m)%nat.
Proof.
  induction m as [|e rest IH]; [discriminate|].
  unfold has, delete in *. cbn [existsb filter length].
  destruct (keyIs k e); cbn [negb orb length].
  - intros _. pose proof (filter_length_le (fun e0 => negb (keyIs k e0)) rest). lia.
  - intros H. specialize (IH H). lia.
Qed.

Lemma keys_delete (k : string) (m : t) :
  keys (delete k m) = filter (fun k' => negb (String.eqb k' k)) (keys m).
Proof.
  induction m as [|e rest IH]; simpl; [reflexivity|].
  unfold keyIs at 1. destruct (String.eqb (fst e) k); simpl; now rewrite <- IH.
Qed.

Lemma has_delete_same (k : string) (m : t) : has k (delete k m) = false.
Proof.
  apply has_false_not_in. rewrite keys_delete, filter_In.
  intros [_ H]. now rewrite String.eqb_refl in H.
Qed.

Lemma has_delete_other (k k' : string) (m : t) :
  k' <> k -> has k' (delete k m) = has k' m.
Proof.
  intros Hne.
  destruct (has k' m) eqn:E.
  - apply has_in_keys. apply has_in_keys in E. rewrite keys_delete, filter_In.
    split; [exact E|]. apply negb_true_iff. now apply String.eqb_neq.
  - apply has_false_not_in. apply has_false_not_in in E.
    rewrite keys_delete, filter_In. tauto.
Qed.

Lemma wf_delete (k : string) (m : t) : wf m -> wf (delete k m).
Proof. unfold wf. rewrite keys_delete. apply NoDup_filter. Qed.

Lemma set_absent (k : string) (v : V) (m : t) :
  has k m = false -> set k v m = m ++ [(k, v)].
Proof.
  induction m as [|e rest IH]; simpl; [reflexivity|].
  destruct (keyIs k e); simpl; [discriminate|].
  intros H. now rewrite (IH H).
Qed.

Lemma wf_snoc (k : string) (v : V) (m : t) :
  wf m -> has k m = false -> wf (m ++ [(k, v)]).
Proof.
  unfold wf, keys. intros Hwf Hk. rewrite map_app. simpl.
  apply has_false_not_in in Hk.
  apply NoDup_app; [exact Hwf | repeat constructor; simpl; tauto |].
  intros x Hx [Hx' | []]. subst. exact (Hk Hx).
Qed.

Lemma get_snoc_same (k : string) (v : V) (m : t) :
  has k m = false -> get k (m ++ [(k, v)]) = Some v.
Proof.
  induction m as [|e rest IH]; simpl.
  - intros _. unfold keyIs. simpl. now rewrite String.eqb_refl.
  - destruct (keyIs k e); simpl; [discriminate | exact IH].
Qed.

Lemma has_snoc_same (k : string) (v : V) (m : t) : has k (m ++ [(k, v)]) = true.
Proof.
  apply has_in_keys. unfold keys. rewrite map_app, in_app_iff. right. simpl. now left.
Qed.

Lemma get_delete (k k' : string) (m : t) :
  get k (delete k' m) = if String.eqb k k' then None else get k m.
Proof.
  induction m as [|e rest IH]; cbn [delete filter get]; [now destruct (String.eqb k k')|].
  fold (delete k' rest). unfold keyIs at 1.
  destruct (String.eqb (fst e) k') eqn:Ee; cbn [negb get].
  - rewrite IH. destruct (String.eqb k k') eqn:Ek; [reflexivity|].
    unfold keyIs. apply String.eqb_eq in Ee. rewrite Ee, String.eqb_sym, Ek.
    reflexivity.
  - rewrite IH. unfold keyIs. destruct (String.eqb (fst e) k) eqn:Ef; [|reflexivity].
    apply String.eqb_eq in Ef. rewrite Ef in Ee. now rewrite Ee.
Qed.

Lemma get_snoc_other (k k' : string) (v : V) (m : t) :
  k <> k' -> get k (m ++ [(k', v)]) = get k m.
Proof.
  intros Hne. induction m as [|e rest IH]; cbn [app get].
  - unfold keyIs. cbn [fst]. apply String.eqb_neq in Hne.
    now rewrite String.eqb_sym, Hne.
  - now rewrite IH.
Qed.

End WithValue.

Arguments t : clear implicits.

End JsMap.

(* ================================================================== *)
(** * Hook authentication failure table ([createHooksRequestHandler]) *)
(* ================================================================== *)

Module HookAuthThrottle.

(** [type HookAuthFailure = { count: number; windowStartedAtMs: number }] *)
Record HookAuthFailure : Type := mkFailure {
  count : Z;
  windowStartedAtMs : Z
}.

Definition HOOK_AUTH_FAILURE_LIMIT : Z := 20.
Definition HOOK_AUTH_FAILURE_WINDOW_MS : Z := 60000.
Definition HOOK_AUTH_FAILURE_TRACK_MAX : Z := 2048.

(** The closure variable [hookAuthFailures]. *)
Definition FailureTable : Type := JsMap.t HookAuthFailure.

(** Return value of [recordHookAuthFailure]. *)
Record Throttle : Type := mkThrottle {
  throttled : bool;
  retryAfterSeconds : option Z
}.

(** [Math.ceil(x / d)] on integers, for a positive divisor. *)
Definition ceilDiv (x d : Z) : Z := - ((- x) / d).

(** [nowMs - entry.windowStartedAtMs >= HOOK_AUTH_FAILURE_WINDOW_MS] *)
Definition windowElapsed (nowMs : Z) (entry : HookAuthFailure) : bool :=
  nowMs - windowStartedAtMs entry >=? HOOK_AUTH_FAILURE_WINDOW_MS.

(** First loop of the capacity branch: [for (const [key, entry] of
    hookAuthFailures) if (window elapsed) hookAuthFailures.delete(key)].
    The iteration visits every entry that was present when it started;
    deleting the visited entry does not disturb it. *)
Definition pruneExpired (nowMs : Z) (m : FailureTable) : FailureTable :=
  fold_left
    (fun (acc : FailureTable) (e : string * HookAuthFailure) =>
       if windowElapsed nowMs (snd e) then JsMap.delete (fst e) acc else acc)
    m m.

(** Second loop: [for (const key of hookAuthFailures.keys())] with the
    countdown [toRemove]. *)
Fixpoint dropOldestLoop (ks : list string) (toRemove : Z) (m : FailureTable)
  : FailureTable :=
  match ks with
  | [] => m
  | key :: rest =>
      if toRemove <=? 0 then m
      else dropOldestLoop rest (toRemove - 1) (JsMap.delete key m)
  end.

(** Body of [if (!has(clientKey) && size >= HOOK_AUTH_FAILURE_TRACK_MAX)]. *)
Definition makeRoom (nowMs : Z) (m : FailureTable) : FailureTable :=
  let m1 := pruneExpired nowMs m in
  if JsMap.size m1 >=? HOOK_AUTH_FAILURE_TRACK_MAX
  then dropOldestLoop (JsMap.keys m1) (JsMap.size m1 / 2) m1
  else m1.

(** The entry written back: a fresh window, or the running one plus one. *)
Definition nextFailure (nowMs : Z) (current : option HookAuthFailure)
  : HookAuthFailure :=
  match current with
  | None => mkFailure 1 nowMs
  | Some c =>
      if windowElapsed nowMs c
      then mkFailure 1 nowMs
      else mkFailure (count c + 1) (windowStartedAtMs c)
  end.

(** [recordHookAuthFailure(clientKey, nowMs)], the table passed explicitly. *)
Definition recordHookAuthFailure (clientKey : string) (nowMs : Z) (m0 : FailureTable)
  : Throttle * FailureTable :=
  let m1 :=
    if negb (JsMap.has clientKey m0)
       && (JsMap.size m0 >=? HOOK_AUTH_FAILURE_TRACK_MAX)
    then makeRoom nowMs m0
    else m0 in
  let current := JsMap.get clientKey m1 in
  let next := nextFailure nowMs current in
  let m2 := if JsMap.has clientKey m1 then JsMap.delete clientKey m1 else m1 in
  let m3 := JsMap.set clientKey next m2 in
  if count next <=? HOOK_AUTH_FAILURE_LIMIT
  then (mkThrottle false None, m3)
  else
    let retryAfterMs :=
      Z.max 1 (windowStartedAtMs next + HOOK_AUTH_FAILURE_WINDOW_MS - nowMs) in
    (mkThrottle true (Some (ceilDiv retryAfterMs 1000)), m3).

(** [clearHookAuthFailure(clientKey)] *)
Definition clearHookAuthFailure (clientKey : string) (m : FailureTable)
  : FailureTable :=
  JsMap.delete clientKey m.

(** Histories of the table: every way the handler can touch it. *)
Inductive TableOp : Type :=
| RecordFailure (clientKey : string) (nowMs : Z)
| ClearFailure (clientKey : string).

Definition applyOp (m : FailureTable) (op : TableOp) : FailureTable :=
  match op with
  | RecordFailure k t => snd (recordHookAuthFailure k t m)
  | ClearFailure k => clearHookAuthFailure k m
  end.

Definition runOps (ops : list TableOp) : FailureTable :=
  fold_left applyOp ops JsMap.empty.

(** What the two eviction loops amount to on a well-formed table. *)
Definition keepLive (nowMs : Z) (m : FailureTable) : FailureTable :=
  filter (fun e => negb (windowElapsed nowMs (snd e))) m.

Definition keepNewestHalf (m : FailureTable) : FailureTable :=
  skipn (Z.to_nat (JsMap.size m / 2)) m.

(** ** The loops, characterised *)

Lemma filter_twice {A : Type} (p q : A -> bool) (l : list A) :
  filter p (filter q l) = filter (fun x => q x && p x) l.
Proof.
  induction l as [|x l IH]; simpl; [reflexivity|].
  destruct (q x); simpl; [destruct (p x)|]; now rewrite IH.
Qed.

Lemma prune_fold_general (nowMs : Z) (l acc : FailureTable) :
  fold_left
    (fun (a : FailureTable) (e : string * HookAuthFailure) =>
       if windowElapsed nowMs (snd e) then JsMap.delete (fst e) a else a)
    l acc
  = filter
      (fun e => negb (existsb
                        (fun d => windowElapsed nowMs (snd d)
                                  && String.eqb (fst e) (fst d)) l))
      acc.
Proof.
  revert acc. induction l as [|d l IH]; intros acc; simpl.
  - induction acc as [|x acc IHa]; simpl; [reflexivity | now rewrite <- IHa].
  - rewrite IH. destruct (windowElapsed nowMs (snd d)); simpl.
    + unfold JsMap.delete. rewrite filter_twice. apply filter_ext.
      intros e. unfold JsMap.keyIs. now rewrite negb_orb.
    + reflexivity.
Qed.

Lemma pruneExpired_filter (nowMs : Z) (m : FailureTable) :
  JsMap.wf m -> pruneExpired nowMs m = keepLive nowMs m.
Proof.
  intros Hwf. unfold pruneExpired, keepLive. rewrite prune_fold_general.
  apply filter_ext_in. intros e He. f_equal.
  destruct (windowElapsed nowMs (snd e)) eqn:Ee.
  - apply existsb_exists. exists e. rewrite Ee, String.eqb_refl. auto.
  - apply not_true_is_false. intros Hex. apply existsb_exists in Hex.
    destruct Hex as [d [Hd Hdd]]. apply andb_true_iff in Hdd.
    destruct Hdd as [Hexp Hkey]. apply String.eqb_eq in Hkey.
    assert (d = e) as ->; [|congruence].
    unfold JsMap.wf, JsMap.keys in Hwf.
    clear - Hwf He Hd Hkey. induction m as [|x m IH]; [contradiction|].
    simpl in Hwf. inversion Hwf as [|? ? Hnotin Hnd]; subst.
    destruct He as [-> | He], Hd as [-> | Hd]; auto.
    + exfalso. apply Hnotin. rewrite Hkey. now apply in_map.
    + exfalso. apply Hnotin. rewrite <- Hkey. now apply in_map.
Qed.

Lemma dropOldestLoop_skipn (m : FailureTable) (n : Z) :
  JsMap.wf m -> dropOldestLoop (JsMap.keys m) n m = skipn (Z.to_nat n) m.
Proof.
  revert n. induction m as [|e m IH]; intros n Hwf; simpl.
  - now rewrite skipn_nil.
  - destruct (n <=? 0) eqn:En.
    + apply Z.leb_le in En. replace (Z.to_nat n) with 0%nat by lia. reflexivity.
    + apply Z.leb_gt in En.
      unfold JsMap.wf in Hwf. simpl in Hwf. inversion Hwf as [|? ? Hnotin Hnd]; subst.
      unfold JsMap.keyIs at 1. rewrite String.eqb_refl. simpl.
      fold (JsMap.delete (fst e) m).
      rewrite JsMap.delete_absent by (now apply JsMap.has_false_not_in).
      rewrite (IH (n - 1) Hnd).
      replace (Z.to_nat n) with (S (Z.to_nat (n - 1))) by lia. reflexivity.
Qed.

Lemma makeRoom_spec (nowMs : Z) (m : FailureTable) :
  JsMap.wf m ->
  makeRoom nowMs m =
    (if JsMap.size (keepLive nowMs m) >=? HOOK_AUTH_FAILURE_TRACK_MAX
     then keepNewestHalf (keepLive nowMs m)
     else keepLive nowMs m).
Proof.
  intros Hwf. unfold makeRoom. rewrite (pruneExpired_filter nowMs m Hwf).
  destruct (JsMap.size (keepLive nowMs m) >=? HOOK_AUTH_FAILURE_TRACK_MAX); [|reflexivity].
  apply dropOldestLoop_skipn. unfold JsMap.wf, JsMap.keys, keepLive.
  clear - Hwf. unfold JsMap.wf, JsMap.keys in Hwf.
  induction m as [|e m IH]; simpl; [constructor|].
  inversion Hwf as [|? ? Hnotin Hnd]; subst.
  destruct (negb (windowElapsed nowMs (snd e))); simpl; [|now apply IH].
  constructor; [|now apply IH].
  intros Hin. apply Hnotin. apply in_map_iff in Hin. destruct Hin as [x [Hx Hin]].
  apply filter_In in Hin. rewrite <- Hx. apply in_map. tauto.
Qed.

(** ** Evictions only ever remove entries *)

Lemma has_false_filter (k : string) (p : string * HookAuthFailure -> bool)
  (m : FailureTable) :
  JsMap.has k m = false -> JsMap.has k (filter p m) = false.
Proof.
  rewrite !JsMap.has_false_not_in. intros H Hin. apply H.
  unfold JsMap.keys in *. apply in_map_iff in Hin. destruct Hin as [e [He Hin]].
  apply filter_In in Hin. rewrite <- He. apply in_map. tauto.
Qed.

Lemma has_false_skipn (k : string) (n : nat) (m : FailureTable) :
  JsMap.has k m = false -> JsMap.has k (skipn n m) = false.
Proof.
  rewrite !JsMap.has_false_not_in. intros H Hin. apply H.
  unfold JsMap.keys in *. apply in_map_iff in Hin. destruct Hin as [e [He Hin]].
  rewrite <- He. apply in_map. rewrite <- (firstn_skipn n m). apply in_or_app. now right.
Qed.

Lemma wf_filter (p : string * HookAuthFailure -> bool) (m : FailureTable) :
  JsMap.wf m -> JsMap.wf (filter p m).
Proof.
  unfold JsMap.wf, JsMap.keys. induction m as [|e m IH]; simpl; intros Hwf; [constructor|].
  inversion Hwf as [|? ? Hnotin Hnd]; subst.
  destruct (p e); simpl; [|now apply IH].
  constructor; [|now apply IH].
  intros Hin. apply Hnotin. apply in_map_iff in Hin. destruct Hin as [x [Hx Hin]].
  apply filter_In in Hin. rewrite <- Hx. apply in_map. tauto.
Qed.

Lemma wf_skipn (n : nat) (m : FailureTable) : JsMap.wf m -> JsMap.wf (skipn n m).
Proof.
  unfold JsMap.wf, JsMap.keys. revert m. induction n as [|n IH]; intros m Hwf; simpl; [exact Hwf|].
  destruct m as [|e m]; [constructor|]. apply IH. now inversion Hwf.
Qed.

Lemma has_false_pruneExpired (k : string) (nowMs : Z) (m : FailureTable) :
  JsMap.has k m = false -> JsMap.has k (pruneExpired nowMs m) = false.
Proof.
  unfold pruneExpired. rewrite prune_fold_general. apply has_false_filter.
Qed.

Lemma has_false_dropOldestLoop (k : string) (ks : list string) (n : Z)
  (m : FailureTable) :
  JsMap.has k m = false -> JsMap.has k (dropOldestLoop ks n m) = false.
Proof.
  revert n m. induction ks as [|key ks IH]; intros n m H; simpl; [exact H|].
  destruct (n <=? 0); [exact H|]. apply IH. now apply has_false_filter.
Qed.

Lemma has_false_makeRoom (k : string) (nowMs : Z) (m : FailureTable) :
  JsMap.has k m = false -> JsMap.has k (makeRoom nowMs m) = false.
Proof.
  intros H. unfold makeRoom.
  destruct (JsMap.size (pruneExpired nowMs m) >=? HOOK_AUTH_FAILURE_TRACK_MAX).
  - apply has_false_dropOldestLoop. now apply has_false_pruneExpired.
  - now apply has_false_pruneExpired.
Qed.

(** ** [recordHookAuthFailure], unfolded once and for all *)

(** The table in which the key is looked up: the old one, or the old one
    after room has been made for a key it does not hold. *)
Definition lookupTable (clientKey : string) (nowMs : Z) (m : FailureTable)
  : FailureTable :=
  if negb (JsMap.has clientKey m)
     && (JsMap.size m >=? HOOK_AUTH_FAILURE_TRACK_MAX)
  then makeRoom nowMs m
  else m.

Definition throttleFor (nowMs : Z) (next : HookAuthFailure) : Throttle :=
  if count next <=? HOOK_AUTH_FAILURE_LIMIT
  then mkThrottle false None
  else mkThrottle true
         (Some (ceilDiv
                  (Z.max 1 (windowStartedAtMs next
                            + HOOK_AUTH_FAILURE_WINDOW_MS - nowMs)) 1000)).

Lemma recordHookAuthFailure_unfold (clientKey : string) (nowMs : Z)
  (m : FailureTable) :
  let m1 := lookupTable clientKey nowMs m in
  let next := nextFailure nowMs (JsMap.get clientKey m1) in
  recordHookAuthFailure clientKey nowMs m
  = (throttleFor nowMs next, JsMap.delete clientKey m1 ++ [(clientKey, next)]).
Proof.
  intros m1 next. unfold recordHookAuthFailure. fold (lookupTable clientKey nowMs m).
  fold m1. fold next.
  assert (JsMap.set clientKey next
            (if JsMap.has clientKey m1 then JsMap.delete clientKey m1 else m1)
          = JsMap.delete clientKey m1 ++ [(clientKey, next)]) as ->.
  { destruct (JsMap.has clientKey m1) eqn:E.
    - apply JsMap.set_absent, JsMap.has_delete_same.
    - rewrite (JsMap.delete_absent _ _ E). now apply JsMap.set_absent. }
  unfold throttleFor. now destruct (count next <=? HOOK_AUTH_FAILURE_LIMIT).
Qed.

Lemma lookupTable_present (clientKey : string) (nowMs : Z) (m : FailureTable) :
  JsMap.has clientKey m = true -> lookupTable clientKey nowMs m = m.
Proof. intros H. unfold lookupTable. now rewrite H. Qed.

Lemma lookupTable_absent (clientKey : string) (nowMs : Z) (m : FailureTable) :
  JsMap.has clientKey m = false ->
  JsMap.has clientKey (lookupTable clientKey nowMs m) = false.
Proof.
  intros H. unfold lookupTable.
  destruct (negb (JsMap.has clientKey m)
            && (JsMap.size m >=? HOOK_AUTH_FAILURE_TRACK_MAX));
    [now apply has_false_makeRoom | exact H].
Qed.

Lemma get_after_record (clientKey : string) (nowMs : Z) (m : FailureTable) :
  JsMap.get clientKey (snd (recordHookAuthFailure clientKey nowMs m))
  = Some (nextFailure nowMs
            (JsMap.get clientKey (lookupTable clientKey nowMs m))).
Proof.
  rewrite recordHookAuthFailure_unfold. simpl.
  apply JsMap.get_snoc_same, JsMap.has_delete_same.
Qed.

(** ** Well-formedness and the capacity bound are invariants *)

Definition tableOk (m : FailureTable) : Prop :=
  JsMap.wf m /\ JsMap.size m <= HOOK_AUTH_FAILURE_TRACK_MAX.

Lemma size_keepLive_le (nowMs : Z) (m : FailureTable) :
  JsMap.size (keepLive nowMs m) <= JsMap.size m.
Proof.
  unfold JsMap.size, keepLive.
  pose proof (filter_length_le (fun e : string * HookAuthFailure =>
                                  negb (windowElapsed nowMs (snd e))) m).
  lia.
Qed.

Lemma size_keepNewestHalf (m : FailureTable) :
  JsMap.size (keepNewestHalf m) = JsMap.size m - JsMap.size m / 2.
Proof.
  unfold keepNewestHalf, JsMap.size. rewrite length_skipn.
  assert (0 <= Z.of_nat (length m) / 2 <= Z.of_nat (length m)).
  { split; [apply Z.div_pos; lia|]. apply Z.div_le_upper_bound; lia. }
  lia.
Qed.

Lemma tableOk_makeRoom (nowMs : Z) (m : FailureTable) :
  tableOk m ->
  JsMap.wf (makeRoom nowMs m)
  /\ JsMap.size (makeRoom nowMs m) < HOOK_AUTH_FAILURE_TRACK_MAX.
Proof.
  intros [Hwf Hsz]. rewrite (makeRoom_spec nowMs m Hwf).
  pose proof (size_keepLive_le nowMs m) as Hle.
  destruct (JsMap.size (keepLive nowMs m) >=? HOOK_AUTH_FAILURE_TRACK_MAX) eqn:E.
  - split; [apply wf_skipn, wf_filter, Hwf|].
    rewrite size_keepNewestHalf. apply Z.geb_le in E.
    unfold HOOK_AUTH_FAILURE_TRACK_MAX in *.
    assert (1024 <= JsMap.size (keepLive nowMs m) / 2)
      by (apply Z.div_le_lower_bound; lia).
    lia.
  - split; [apply wf_filter, Hwf|].
    rewrite Z.geb_leb in E. apply Z.leb_gt in E. exact E.
Qed.

Lemma tableOk_record (clientKey : string) (nowMs : Z) (m : FailureTable) :
  tableOk m -> tableOk (snd (recordHookAuthFailure clientKey nowMs m)).
Proof.
  intros Hok. pose proof Hok as [Hwf Hsz].
  rewrite recordHookAuthFailure_unfold. simpl.
  set (m1 := lookupTable clientKey nowMs m).
  assert (JsMap.wf m1 /\
          (if JsMap.has clientKey m1
           then JsMap.size m1 <= HOOK_AUTH_FAILURE_TRACK_MAX
           else JsMap.size m1 < HOOK_AUTH_FAILURE_TRACK_MAX)) as [Hwf1 Hsz1].
  { subst m1. unfold lookupTable. destruct (JsMap.has clientKey m) eqn:Eh; simpl.
    - rewrite Eh. auto.
    - destruct (JsMap.size m >=? HOOK_AUTH_FAILURE_TRACK_MAX) eqn:Es.
      + rewrite (has_false_makeRoom _ nowMs _ Eh). now apply tableOk_makeRoom.
      + rewrite Eh. split; [exact Hwf|].
        rewrite Z.geb_leb in Es. now apply Z.leb_gt in Es. }
  split.
  - apply JsMap.wf_snoc; [now apply JsMap.wf_delete | apply JsMap.has_delete_same].
  - unfold JsMap.size in *. rewrite length_app. simpl.
    destruct (JsMap.has clientKey m1) eqn:E.
    + pose proof (JsMap.length_delete_present _ _ E). lia.
    + rewrite (JsMap.delete_absent _ _ E). lia.
Qed.

Lemma tableOk_clear (clientKey : string) (m : FailureTable) :
  tableOk m -> tableOk (clearHookAuthFailure clientKey m).
Proof.
  intros [Hwf Hsz]. split; [now apply JsMap.wf_delete|].
  unfold clearHookAuthFailure, JsMap.size in *.
  pose proof (JsMap.length_delete_le clientKey m). lia.
Qed.

Lemma tableOk_applyOp (m : FailureTable) (op : TableOp) :
  tableOk m -> tableOk (applyOp m op).
Proof.
  destruct op; simpl; [apply tableOk_record | apply tableOk_clear].
Qed.

Lemma tableOk_fold (ops : list TableOp) (m : FailureTable) :
  tableOk m -> tableOk (fold_left applyOp ops m).
Proof.
  revert m. induction ops as [|op ops IH]; intros m H; simpl; [exact H|].
  apply IH, tableOk_applyOp, H.
Qed.

Lemma tableOk_runOps (ops : list TableOp) : tableOk (runOps ops).
Proof.
  apply tableOk_fold. split; [constructor | unfold JsMap.size; simpl; unfold HOOK_AUTH_FAILURE_TRACK_MAX; lia].
Qed.

(** A table filled to capacity by 2048 distinct clients, for worked examples. *)
Definition clientNo (i : nat) : string :=
  String.append (NilEmpty.string_of_uint (Nat.to_uint (i mod 256)))
    (String.append "."
       (String.append (NilEmpty.string_of_uint (Nat.to_uint (i / 256)))
          ".51.198")).

Definition fillToCapacity : list TableOp :=
  map (fun i => RecordFailure (clientNo i) 0) (seq 0 2048).

(** C5.  Whatever the history of recorded failures and clears, the failure
    table holds at most 2048 entries.  Recording a failure for a key the table
    does not hold while it is at capacity first removes every entry whose
    60 s window has elapsed and then, if the table is still at capacity,
    removes the oldest half in insertion order, before the new entry is
    appended.  Recording a failure for a key the table holds removes the entry
    and appends it again, so the key becomes the most recent one and every
    other key keeps its place. *)
Theorem C5_failure_table_bounded_and_evicts (ops : list TableOp) :
  let m := runOps ops in
  JsMap.size m <= HOOK_AUTH_FAILURE_TRACK_MAX
  /\ (forall clientKey nowMs,
        JsMap.has clientKey m = false ->
        JsMap.size m >= HOOK_AUTH_FAILURE_TRACK_MAX ->
        snd (recordHookAuthFailure clientKey nowMs m)
        = (if JsMap.size (keepLive nowMs m) >=? HOOK_AUTH_FAILURE_TRACK_MAX
           then keepNewestHalf (keepLive nowMs m)
           else keepLive nowMs m)
          ++ [(clientKey, mkFailure 1 nowMs)])
  /\ (forall clientKey nowMs,
        JsMap.has clientKey m = true ->
        let m' := snd (recordHookAuthFailure clientKey nowMs m) in
        m' = JsMap.delete clientKey m
             ++ [(clientKey, nextFailure nowMs (JsMap.get clientKey m))]
        /\ JsMap.keys m'
           = filter (fun k => negb (String.eqb k clientKey)) (JsMap.keys m)
             ++ [clientKey]).
Proof.
  intros m. pose proof (tableOk_runOps ops) as [Hwf Hsz]. fold m in Hwf, Hsz.
  split; [exact Hsz|]. split.
  - intros clientKey nowMs Hnew Hfull.
    rewrite recordHookAuthFailure_unfold. simpl.
    assert (lookupTable clientKey nowMs m = makeRoom nowMs m) as Hroom.
    { unfold lookupTable. rewrite Hnew. simpl.
      destruct (JsMap.size m >=? HOOK_AUTH_FAILURE_TRACK_MAX) eqn:E; [reflexivity|].
      rewrite Z.geb_leb in E. apply Z.leb_gt in E. lia. }
    rewrite Hroom.
    pose proof (has_false_makeRoom clientKey nowMs m Hnew) as Habs.
    rewrite (JsMap.delete_absent _ _ Habs).
    apply JsMap.get_none_has in Habs. rewrite Habs. simpl.
    now rewrite (makeRoom_spec nowMs m Hwf).
  - intros clientKey nowMs Hold m'. subst m'.
    rewrite recordHookAuthFailure_unfold. simpl.
    rewrite (lookupTable_present _ nowMs _ Hold). split; [reflexivity|].
    unfold JsMap.keys at 1. rewrite map_app. simpl.
    fold (JsMap.keys (JsMap.delete clientKey m)). now rewrite JsMap.keys_delete.
Qed.

Definition fullTable : FailureTable :=
  map (fun i => (clientNo i, mkFailure 1 0)) (seq 0 2048).

Lemma runOps_fillToCapacity : runOps fillToCapacity = fullTable.
Proof. vm_compute; reflexivity. Qed.

Lemma C5_failure_table_witness :
  snd (recordHookAuthFailure "203.0.113.7" 1000 fullTable)
  = skipn 1024 fullTable ++ [("203.0.113.7", mkFailure 1 1000)]
  /\ JsMap.keys (snd (recordHookAuthFailure (clientNo 0) 1000 fullTable))
     = skipn 1 (JsMap.keys fullTable) ++ [clientNo 0].
Proof.
  pose proof (C5_failure_table_bounded_and_evicts fillToCapacity) as H.
  cbv zeta in H.
  rewrite runOps_fillToCapacity in H.
  destruct H as [_ [Hnew Hold]].
  split.
  - refine (eq_trans (Hnew "203.0.113.7" 1000 _ _) _).
    + vm_compute; reflexivity.
    + vm_compute; discriminate.
    + vm_compute; reflexivity.
  - refine (eq_trans (proj2 (Hold (clientNo 0) 1000 _)) _).
    + vm_compute; reflexivity.
    + vm_compute; reflexivity.
Defined.

(** ** What recording and clearing do to the entries of other clients *)

(** The entry of [k] in [m'] is the one it has in [m], or it is gone. *)
Definition keptOrGone (k : string) (m' m : FailureTable) : Prop :=
  JsMap.get k m' = JsMap.get k m \/ JsMap.get k m' = None.

Lemma keptOrGone_refl (k : string) (m : FailureTable) : keptOrGone k m m.
Proof. now left. Qed.

Lemma keptOrGone_trans (k : string) (m2 m1 m : FailureTable) :
  keptOrGone k m2 m1 -> keptOrGone k m1 m -> keptOrGone k m2 m.
Proof. unfold keptOrGone. intros [H2 | H2] [H1 | H1]; rewrite ?H2; auto. Qed.

Lemma keptOrGone_delete (k k' : string) (m : FailureTable) :
  keptOrGone k (JsMap.delete k' m) m.
Proof.
  unfold keptOrGone. rewrite JsMap.get_delete. destruct (String.eqb k k'); auto.
Qed.

Lemma keptOrGone_pruneExpired (k : string) (nowMs : Z) (m : FailureTable) :
  keptOrGone k (pruneExpired nowMs m) m.
Proof.
  unfold pruneExpired. generalize m at 1 as visited.
  intros visited. revert m. induction visited as [|e visited IH]; intros m; simpl.
  - apply keptOrGone_refl.
  - destruct (windowElapsed nowMs (snd e)); [|apply IH].
    eapply keptOrGone_trans; [apply IH | apply keptOrGone_delete].
Qed.

Lemma keptOrGone_dropOldestLoop (k : string) (ks : list string) :
  forall (toRemove : Z) (m : FailureTable),
    keptOrGone k (dropOldestLoop ks toRemove m) m.
Proof.
  induction ks as [|key ks IH]; intros toRemove m; simpl.
  - apply keptOrGone_refl.
  - destruct (toRemove <=? 0); [apply keptOrGone_refl|].
    eapply keptOrGone_trans; [apply IH | apply keptOrGone_delete].
Qed.

Lemma keptOrGone_lookupTable (k clientKey : string) (nowMs : Z) (m : FailureTable) :
  keptOrGone k (lookupTable clientKey nowMs m) m.
Proof.
  unfold lookupTable, makeRoom.
  destruct (negb (JsMap.has clientKey m)
            && (JsMap.size m >=? HOOK_AUTH_FAILURE_TRACK_MAX));
    [|apply keptOrGone_refl].
  destruct (JsMap.size (pruneExpired nowMs m) >=? HOOK_AUTH_FAILURE_TRACK_MAX).
  - eapply keptOrGone_trans;
      [apply keptOrGone_dropOldestLoop | apply keptOrGone_pruneExpired].
  - apply keptOrGone_pruneExpired.
Qed.

(** A failure recorded for one client leaves the entry of every other
    client as it was, unless it evicts it. *)
Lemma keptOrGone_record (k clientKey : string) (nowMs : Z) (m : FailureTable) :
  k <> clientKey ->
  keptOrGone k (snd (recordHookAuthFailure clientKey nowMs m)) m.
Proof.
  intros Hne. rewrite recordHookAuthFailure_unfold. cbn [snd].
  eapply keptOrGone_trans; [|apply (keptOrGone_lookupTable k clientKey nowMs m)].
  left. rewrite (JsMap.get_snoc_other _ _ _ _ Hne), JsMap.get_delete.
  apply String.eqb_neq in Hne. now rewrite Hne.
Qed.

(** Below capacity nothing is evicted. *)
Lemma record_below_capacity (k clientKey : string) (nowMs : Z) (m : FailureTable) :
  JsMap.size m < HOOK_AUTH_FAILURE_TRACK_MAX ->
  JsMap.size (snd (recordHookAuthFailure clientKey nowMs m)) <= JsMap.size m + 1
  /\ (JsMap.has k m = true ->
      JsMap.has k (snd (recordHookAuthFailure clientKey nowMs m)) = true).
Proof.
  intros Hroom. rewrite recordHookAuthFailure_unfold. cbn [snd].
  assert (lookupTable clientKey nowMs m = m) as ->.
  { unfold lookupTable.
    destruct (JsMap.size m >=? HOOK_AUTH_FAILURE_TRACK_MAX) eqn:E;
      [|now rewrite andb_false_r].
    apply Z.geb_le in E. lia. }
  split.
  - unfold JsMap.size. rewrite length_app. simpl.
    pose proof (JsMap.length_delete_le clientKey m). lia.
  - intros Hhas. destruct (String.eqb k clientKey) eqn:E.
    + apply String.eqb_eq in E. subst k. apply JsMap.has_snoc_same.
    + apply String.eqb_neq in E. unfold JsMap.has. rewrite existsb_app.
      fold (JsMap.has k (JsMap.delete clientKey m)).
      rewrite (JsMap.has_delete_other clientKey k m E), Hhas. reflexivity.
Qed.

End HookAuthThrottle.

(* ================================================================== *)
(** * The hooks request handler ([createHooksRequestHandler]) *)
(* ================================================================== *)

Module HooksHandler.

Import HookAuthThrottle.

(** ** Data *)

(** Values read by [JSON.parse] and written by [JSON.stringify]; a number
    is kept as its literal. *)
#[local] Unset Elimination Schemes.
Inductive Json : Type :=
| JNull
| JBool (b : bool)
| JNumber (literal : string)
| JString (s : string)
| JArray (items : list Json)
| JObject (fields : list (string * Json)).
#[local] Set Elimination Schemes.

(** What reaches [res.end]. *)
Inductive Body : Type :=
| NoBody
| TextBody (text : string)
| JsonBody (value : Json).

(** A [ServerResponse] once ended: status, headers in the order they were
    set, body. *)
Record Response : Type := mkResponse {
  statusCode : Z;
  headers : list (string * string);
  body : Body
}.

(** The parts of an [IncomingMessage] the handler itself looks at; [content]
    stands for what the collaborators read from it (headers, body stream). *)
Record Request (Content : Type) : Type := mkRequest {
  url_pathname : string;
  url_searchParams : list (string * string);
  socket_remoteAddress : option string;
  method : string;
  content : Content
}.

Arguments mkRequest {Content}.
Arguments url_pathname {Content}.
Arguments url_searchParams {Content}.
Arguments socket_remoteAddress {Content}.
Arguments method {Content}.
Arguments content {Content}.

Inductive WakeMode : Type := Now | NextHeartbeat.

Definition wakeModeString (m : WakeMode) : string :=
  match m with Now => "now" | NextHeartbeat => "next-heartbeat" end.

(** Argument of [dispatchWakeHook]. *)
Record WakeValue : Type := mkWake {
  wake_text : string;
  wake_mode : WakeMode
}.

(** The value [normalizeAgentPayload] returns; also the argument of
    [dispatchAgentHook], where [sessionKey] is always present. *)
Record AgentValue (SessionKey : Type) : Type := mkAgent {
  message : string;
  name : string;
  agentId : option string;
  wakeMode : WakeMode;
  sessionKey : SessionKey;
  deliver : bool;
  channel : string;
  to : option string;
  model : option string;
  thinking : option string;
  timeoutSeconds : option Z;
  allowUnsafeExternalContent : option bool
}.

Arguments mkAgent {SessionKey}.
Arguments message {SessionKey}.
Arguments name {SessionKey}.
Arguments agentId {SessionKey}.
Arguments wakeMode {SessionKey}.
Arguments sessionKey {SessionKey}.
Arguments deliver {SessionKey}.
Arguments channel {SessionKey}.
Arguments to {SessionKey}.
Arguments model {SessionKey}.
Arguments thinking {SessionKey}.
Arguments timeoutSeconds {SessionKey}.
Arguments allowUnsafeExternalContent {SessionKey}.

(** The agent action a mapping rule produces, before channel, delivery and
    session key are resolved. *)
Record MappedAgent : Type := mkMappedAgent {
  ma_message : string;
  ma_name : option string;
  ma_agentId : option string;
  ma_wakeMode : WakeMode;
  ma_sessionKey : option string;
  ma_deliver : option bool;
  ma_channel : option string;
  ma_to : option string;
  ma_model : option string;
  ma_thinking : option string;
  ma_timeoutSeconds : option Z;
  ma_allowUnsafeExternalContent : option bool
}.

(** [{ ok: true, value } | { ok: false, error }] *)
Inductive Validation (A : Type) : Type :=
| Valid (value : A)
| Invalid (error : string).

Arguments Valid {A}.
Arguments Invalid {A}.

(** Result of [await applyHookMappings(...)]: it throws, returns [null],
    or returns a match that is an error, a skip ([action === null]), a wake
    action or an agent action. *)
Inductive MappingResult : Type :=
| MappingThrows
| MappingNoMatch
| MappingError (error : string)
| MappingSkip
| MappingWake (text : string) (mode : WakeMode)
| MappingAgent (action : MappedAgent).

(** A call of a dispatcher either returns or throws. *)
Inductive Call (A : Type) : Type :=
| Returns (value : A)
| Throws.

Arguments Returns {A}.
Arguments Throws {A}.

Inductive SessionKeySource : Type := FromRequest | FromMapping.

(** [HooksConfigResolved]: the fields the handler reads, and the policies
    it hands on to [hooks.ts]. *)
Record HooksConfigResolved (Mapping Policy : Type) : Type := mkHooksConfig {
  basePath : string;
  token : string;
  maxBodyBytes : Z;
  mappings : list Mapping;
  policy : Policy
}.

Arguments mkHooksConfig {Mapping Policy}.
Arguments basePath {Mapping Policy}.
Arguments token {Mapping Policy}.
Arguments maxBodyBytes {Mapping Policy}.
Arguments mappings {Mapping Policy}.
Arguments policy {Mapping Policy}.

(** What the handler did besides answering. *)
Inductive Effect : Type :=
| TokenCompared
| BodyRead
| WakeDispatch (value : WakeValue) (completed : bool)
| AgentDispatch (value : AgentValue string) (completed : bool).

Inductive Outcome : Type :=
| NotHandled
| Handled (res : Response)
| Raised.

(** One run of the handler: its outcome, the failure table it leaves and
    the effects it had, oldest first. *)
Record Run : Type := mkRun {
  outcome : Outcome;
  table : FailureTable;
  trace : list Effect
}.

(** The functions imported from [hooks.ts], [hooks-mapping.ts] and
    [secret-equal.ts], and the two dispatchers passed in [opts]. *)
Record Collaborators (Content Mapping Policy : Type) : Type := mkCollaborators {
  extractHookToken : Request Content -> option string;
  safeEqualSecret : option string -> string -> bool;
  readJsonBody : Request Content -> Z -> Validation Json;
  normalizeHookHeaders : Request Content -> list (string * string);
  normalizeWakePayload : Json -> Validation WakeValue;
  normalizeAgentPayload : Json -> Validation (AgentValue (option string));
  isHookAgentAllowed :
    HooksConfigResolved Mapping Policy -> option string -> bool;
  getHookAgentPolicyError : string;
  resolveHookSessionKey :
    HooksConfigResolved Mapping Policy -> SessionKeySource -> option string ->
    Validation string;
  resolveHookTargetAgentId :
    HooksConfigResolved Mapping Policy -> option string -> option string;
  applyHookMappings :
    list Mapping -> Json -> list (string * string) -> Request Content ->
    string -> MappingResult;
  resolveHookChannel : option string -> option string;
  getHookChannelError : string;
  resolveHookDeliver : option bool -> bool;
  dispatchWakeHook : WakeValue -> Call unit;
  dispatchAgentHook : AgentValue string -> Call string
}.

Arguments extractHookToken {Content Mapping Policy}.
Arguments safeEqualSecret {Content Mapping Policy}.
Arguments readJsonBody {Content Mapping Policy}.
Arguments normalizeHookHeaders {Content Mapping Policy}.
Arguments normalizeWakePayload {Content Mapping Policy}.
Arguments normalizeAgentPayload {Content Mapping Policy}.
Arguments isHookAgentAllowed {Content Mapping Policy}.
Arguments getHookAgentPolicyError {Content Mapping Policy}.
Arguments resolveHookSessionKey {Content Mapping Policy}.
Arguments resolveHookTargetAgentId {Content Mapping Policy}.
Arguments applyHookMappings {Content Mapping Policy}.
Arguments resolveHookChannel {Content Mapping Policy}.
Arguments getHookChannelError {Content Mapping Policy}.
Arguments resolveHookDeliver {Content Mapping Policy}.
Arguments dispatchWakeHook {Content Mapping Policy}.
Arguments dispatchAgentHook {Content Mapping Policy}.

(** ** Strings *)

(** [String.prototype.trim], on ASCII text: tab, line feed, vertical tab,
    form feed, carriage return and space are white space. *)
Definition isWhiteSpace (c : ascii) : bool :=
  let n := nat_of_ascii c in
  ((9 <=? n)%nat && (n <=? 13)%nat) || (n =? 32)%nat.

Fixpoint trimStart (s : string) : string :=
  match s with
  | EmptyString => EmptyString
  | String c rest => if isWhiteSpace c then trimStart rest else s
  end.

Fixpoint trimEnd (s : string) : string :=
  match s with
  | EmptyString => EmptyString
  | String c rest =>
      match trimEnd rest with
      | EmptyString => if isWhiteSpace c then EmptyString else String c EmptyString
      | kept => String c kept
      end
  end.

Definition trim (s : string) : string := trimEnd (trimStart s).

Fixpoint whiteSpaceOnly (s : string) : bool :=
  match s with
  | EmptyString => true
  | String c rest => isWhiteSpace c && whiteSpaceOnly rest
  end.

(** [s.replace(/^\/+/, "")] *)
Fixpoint stripLeadingSlashes (s : string) : string :=
  match s with
  | String "/"%char rest => stripLeadingSlashes rest
  | _ => s
  end.

(** [s.slice(n)] for [0 <= n] *)
Definition sliceFrom (n : nat) (s : string) : string :=
  String.substring n (String.length s - n) s.

(** [String(n)] for an integer *)
Definition decimal (n : Z) : string := NilZero.string_of_int (Z.to_int n).

(** [haystack.includes(needle)] *)
Fixpoint includes (needle haystack : string) : bool :=
  String.prefix needle haystack
  || match haystack with
     | EmptyString => false
     | String _ rest => includes needle rest
     end.

(** ** The handler *)

Section Handler.

Context {Content Mapping Policy : Type}.
Context (deps : Collaborators Content Mapping Policy).

#[local] Abbreviation Config := (HooksConfigResolved Mapping Policy).

Definition TEXT_PLAIN : string * string :=
  ("Content-Type", "text/plain; charset=utf-8").

Definition QUERY_TOKEN_MESSAGE : string :=
  "Hook token must be provided via Authorization: Bearer <token> or X-OpenClaw-Token header (query parameters are not allowed).".

(** [res.statusCode = status; res.setHeader(...)...; res.end(text)] *)
Definition sendText (status : Z) (extra : list (string * string)) (text : string)
  : Response :=
  mkResponse status (extra ++ [TEXT_PLAIN]) (TextBody text).

(** [sendJson(res, status, body)] *)
Definition sendJson (status : Z) (value : Json) : Response :=
  mkResponse status [("Content-Type", "application/json; charset=utf-8")]
    (JsonBody value).

Definition errorJson (error : string) : Json :=
  JObject [("ok", JBool false); ("error", JString error)].

Definition wakeJson (mode : WakeMode) : Json :=
  JObject [("ok", JBool true); ("mode", JString (wakeModeString mode))].

Definition runJson (runId : string) : Json :=
  JObject [("ok", JBool true); ("runId", JString runId)].

(** [req.socket?.remoteAddress?.trim() || "unknown"] *)
Definition resolveHookClientKey (req : Request Content) : string :=
  match socket_remoteAddress req with
  | None => "unknown"
  | Some addr =>
      match trim addr with
      | EmptyString => "unknown"
      | key => key
      end
  end.

(** [url.pathname !== basePath && !url.pathname.startsWith(`${basePath}/`)],
    negated: the request is for the hooks subtree. *)
Definition underBasePath (cfg : Config) (req : Request Content) : bool :=
  String.eqb (url_pathname req) (basePath cfg)
  || String.prefix (String.append (basePath cfg) "/") (url_pathname req).

(** [url.searchParams.has("token")] *)
Definition queryHasToken (req : Request Content) : bool :=
  existsb (fun p => String.eqb (fst p) "token") (url_searchParams req).

(** [url.pathname.slice(basePath.length).replace(/^\/+/, "")] *)
Definition subPathOf (cfg : Config) (req : Request Content) : string :=
  stripLeadingSlashes
    (sliceFrom (String.length (basePath cfg)) (url_pathname req)).

(** [typeof v === "object" && v !== null ? v : {}] *)
Definition payloadOf (v : Json) : Json :=
  match v with
  | JObject _ | JArray _ => v
  | _ => JObject []
  end.

Definition answered (tbl : FailureTable) (tr : list Effect) (res : Response) : Run :=
  mkRun (Handled res) tbl tr.

(** [if (subPath === "wake") { ... }] *)
Definition handleWake (tbl : FailureTable) (tr : list Effect) (payload : Json)
  : Run :=
  match normalizeWakePayload deps payload with
  | Invalid error => answered tbl tr (sendJson 400 (errorJson error))
  | Valid value =>
      match dispatchWakeHook deps value with
      | Throws => mkRun Raised tbl (tr ++ [WakeDispatch value false])
      | Returns _ =>
          answered tbl (tr ++ [WakeDispatch value true])
            (sendJson 200 (wakeJson (wake_mode value)))
      end
  end.

(** [if (subPath === "agent") { ... }] *)
Definition handleAgent (cfg : Config) (tbl : FailureTable) (tr : list Effect)
  (payload : Json) : Run :=
  match normalizeAgentPayload deps payload with
  | Invalid error => answered tbl tr (sendJson 400 (errorJson error))
  | Valid value =>
      if negb (isHookAgentAllowed deps cfg (agentId value))
      then answered tbl tr (sendJson 400 (errorJson (getHookAgentPolicyError deps)))
      else
        match resolveHookSessionKey deps cfg FromRequest (sessionKey value) with
        | Invalid error => answered tbl tr (sendJson 400 (errorJson error))
        | Valid key =>
            let arg :=
              mkAgent (message value) (name value)
                (resolveHookTargetAgentId deps cfg (agentId value))
                (wakeMode value) key (deliver value) (channel value)
                (to value) (model value) (thinking value)
                (timeoutSeconds value) (allowUnsafeExternalContent value) in
            match dispatchAgentHook deps arg with
            | Throws => mkRun Raised tbl (tr ++ [AgentDispatch arg false])
            | Returns runId =>
                answered tbl (tr ++ [AgentDispatch arg true])
                  (sendJson 202 (runJson runId))
            end
        end
  end.

Definition NOT_FOUND : Response := sendText 404 [] "Not Found".

(** [catch (err) { ...; sendJson(res, 500, ...) }] *)
Definition MAPPING_FAILED : Response :=
  sendJson 500 (errorJson "hook mapping failed").

(** [if (hooksConfig.mappings.length > 0) { try { ... } catch { ... } }]
    followed by the final [404]. *)
Definition handleMapped (cfg : Config) (req : Request Content)
  (tbl : FailureTable) (tr : list Effect) (payload : Json)
  (hdrs : list (string * string)) (subPath : string) : Run :=
  match mappings cfg with
  | [] => answered tbl tr NOT_FOUND
  | _ :: _ =>
      match applyHookMappings deps (mappings cfg) payload hdrs req subPath with
      | MappingThrows => answered tbl tr MAPPING_FAILED
      | MappingNoMatch => answered tbl tr NOT_FOUND
      | MappingError error => answered tbl tr (sendJson 400 (errorJson error))
      | MappingSkip => answered tbl tr (mkResponse 204 [] NoBody)
      | MappingWake text mode =>
          let value := mkWake text mode in
          match dispatchWakeHook deps value with
          | Throws =>
              answered tbl (tr ++ [WakeDispatch value false]) MAPPING_FAILED
          | Returns _ =>
              answered tbl (tr ++ [WakeDispatch value true])
                (sendJson 200 (wakeJson mode))
          end
      | MappingAgent action =>
          match resolveHookChannel deps (ma_channel action) with
          | None =>
              answered tbl tr (sendJson 400 (errorJson (getHookChannelError deps)))
          | Some chan =>
              if negb (isHookAgentAllowed deps cfg (ma_agentId action))
              then answered tbl tr
                     (sendJson 400 (errorJson (getHookAgentPolicyError deps)))
              else
                match resolveHookSessionKey deps cfg FromMapping
                        (ma_sessionKey action) with
                | Invalid error =>
                    answered tbl tr (sendJson 400 (errorJson error))
                | Valid key =>
                    let arg :=
                      mkAgent (ma_message action)
                        (match ma_name action with
                         | Some n => n
                         | None => "Hook"
                         end)
                        (resolveHookTargetAgentId deps cfg (ma_agentId action))
                        (ma_wakeMode action) key
                        (resolveHookDeliver deps (ma_deliver action)) chan
                        (ma_to action) (ma_model action) (ma_thinking action)
                        (ma_timeoutSeconds action)
                        (ma_allowUnsafeExternalContent action) in
                    match dispatchAgentHook deps arg with
                    | Throws =>
                        answered tbl (tr ++ [AgentDispatch arg false])
                          MAPPING_FAILED
                    | Returns runId =>
                        answered tbl (tr ++ [AgentDispatch arg true])
                          (sendJson 202 (runJson runId))
                    end
                end
          end
      end
  end.

(** Everything after [clearHookAuthFailure(clientKey)]. *)
Definition handleAuthenticated (cfg : Config) (req : Request Content)
  (tbl : FailureTable) (tr : list Effect) : Run :=
  if negb (String.eqb (method req) "POST")
  then answered tbl tr (sendText 405 [("Allow", "POST")] "Method Not Allowed")
  else
    let subPath := subPathOf cfg req in
    if String.eqb subPath ""
    then answered tbl tr NOT_FOUND
    else
      let tr := tr ++ [BodyRead] in
      match readJsonBody deps req (maxBodyBytes cfg) with
      | Invalid error =>
          let status :=
            if String.eqb error "payload too large" then 413
            else if String.eqb error "request body timeout" then 408
            else 400 in
          answered tbl tr (sendJson status (errorJson error))
      | Valid value =>
          let payload := payloadOf value in
          let hdrs := normalizeHookHeaders deps req in
          if String.eqb subPath "wake" then handleWake tbl tr payload
          else if String.eqb subPath "agent" then handleAgent cfg tbl tr payload
          else handleMapped cfg req tbl tr payload hdrs subPath
      end.

(** The handler [createHooksRequestHandler] returns, applied to a request at
    time [nowMs = Date.now()] with the failure table [tbl]. *)
Definition handleHooksRequest (hooksConfig : option Config)
  (req : Request Content) (nowMs : Z) (tbl : FailureTable) : Run :=
  match hooksConfig with
  | None => mkRun NotHandled tbl []
  | Some cfg =>
      if negb (underBasePath cfg req)
      then mkRun NotHandled tbl []
      else if queryHasToken req
      then answered tbl [] (sendText 400 [] QUERY_TOKEN_MESSAGE)
      else
        let presented := extractHookToken deps req in
        let clientKey := resolveHookClientKey req in
        if negb (safeEqualSecret deps presented (token cfg))
        then
          let '(throttle, tbl') := recordHookAuthFailure clientKey nowMs tbl in
          if throttled throttle
          then
            let retryAfter :=
              match retryAfterSeconds throttle with
              | Some s => s
              | None => 1
              end in
            answered tbl' [TokenCompared]
              (sendText 429 [("Retry-After", decimal retryAfter)]
                 "Too Many Requests")
          else answered tbl' [TokenCompared] (sendText 401 [] "Unauthorized")
        else
          handleAuthenticated cfg req (clearHookAuthFailure clientKey tbl)
            [TokenCompared]
  end.

(** Requests served one after the other, each at its own [Date.now()]. *)
Fixpoint serve (hooksConfig : option Config) (tbl : FailureTable)
  (batch : list (Request Content * Z)) : list Run :=
  match batch with
  | [] => []
  | (req, nowMs) :: rest =>
      let run := handleHooksRequest hooksConfig req nowMs tbl in
      run :: serve hooksConfig (table run) rest
  end.

(** ** Reading a run *)

Definition statusOf (run : Run) : option Z :=
  match outcome run with
  | Handled res => Some (statusCode res)
  | _ => None
  end.

Fixpoint lookupHeader (h : string) (hs : list (string * string)) : option string :=
  match hs with
  | [] => None
  | (k, v) :: rest => if String.eqb k h then Some v else lookupHeader h rest
  end.

Definition headerOf (h : string) (run : Run) : option string :=
  match outcome run with
  | Handled res => lookupHeader h (headers res)
  | _ => None
  end.

Definition isDispatch (e : Effect) : bool :=
  match e with
  | WakeDispatch _ _ | AgentDispatch _ _ => true
  | _ => false
  end.

Definition isCompletedDispatch (e : Effect) : bool :=
  match e with
  | WakeDispatch _ c | AgentDispatch _ c => c
  | _ => false
  end.

(** The dispatcher calls a run made. *)
Definition dispatches (run : Run) : list Effect := filter isDispatch (trace run).

Definition is2xx (status : Z) : bool := (200 <=? status) && (status <? 300).
Definition is4xx (status : Z) : bool := (400 <=? status) && (status <? 500).

(** The answer to a request whose token did not match, given what
    [recordHookAuthFailure] returned. *)
Definition attemptResponse (throttle : Throttle) : Response :=
  if throttled throttle
  then sendText 429
         [("Retry-After",
           decimal (match retryAfterSeconds throttle with
                    | Some s => s
                    | None => 1
                    end))]
         "Too Many Requests"
  else sendText 401 [] "Unauthorized".

(** A hook request without query token whose token does not match and
    whose client key is [clientKey]. *)
Definition isFailedAttemptFrom (cfg : Config) (clientKey : string)
  (req : Request Content) : bool :=
  underBasePath cfg req
  && negb (queryHasToken req)
  && negb (safeEqualSecret deps (extractHookToken deps req) (token cfg))
  && String.eqb (resolveHookClientKey req) clientKey.

(** The table has no running window for the key at time [nowMs]. *)
Definition noLiveRecord (clientKey : string) (nowMs : Z) (tbl : FailureTable)
  : bool :=
  match JsMap.get clientKey tbl with
  | None => true
  | Some entry => windowElapsed nowMs entry
  end.

(** The answers to failed attempts made at the times of [batch], when the
    window opened at [t1] and holds [c] failures so far. *)
Fixpoint expectedAnswers (t1 c : Z) (batch : list (Request Content * Z))
  : list Response :=
  match batch with
  | [] => []
  | (_, nowMs) :: rest =>
      attemptResponse (throttleFor nowMs (mkFailure (c + 1) t1))
      :: expectedAnswers t1 (c + 1) rest
  end.

Definition statusOfOutcome (o : Outcome) : option Z :=
  match o with
  | Handled res => Some (statusCode res)
  | _ => None
  end.

Definition headerOfOutcome (h : string) (o : Outcome) : option string :=
  match o with
  | Handled res => lookupHeader h (headers res)
  | _ => None
  end.

(** The socket reports no remote address, or only white space. *)
Definition addressMissing (req : Request Content) : bool :=
  match socket_remoteAddress req with
  | None => true
  | Some addr => whiteSpaceOnly addr
  end.

(** The requests of a batch that come from one client, and the runs that
    answer them. *)
Definition requestsOf (clientKey : string) (batch : list (Request Content * Z))
  : list (Request Content * Z) :=
  filter (fun rt => String.eqb (resolveHookClientKey (fst rt)) clientKey) batch.

Fixpoint runsOf (clientKey : string) (batch : list (Request Content * Z))
  (runs : list Run) : list Run :=
  match batch, runs with
  | (req, _) :: batch', run :: runs' =>
      if String.eqb (resolveHookClientKey req) clientKey
      then run :: runsOf clientKey batch' runs'
      else runsOf clientKey batch' runs'
  | _, _ => []
  end.

(** The client has an entry in the failure table after each run. *)
Definition trackedThroughout (clientKey : string) (runs : list Run) : Prop :=
  Forall (fun run => JsMap.has clientKey (table run) = true) runs.

End Handler.

(** ** A concrete deployment, for worked examples

    Requests carry their headers and an already parsed body; a mapping rule
    is a path together with the result it yields; the token travels in the
    [x-openclaw-token] header; dispatching always succeeds. *)

Record ExampleContent : Type := mkContent {
  c_headers : list (string * string);
  c_body : Validation Json
}.

Definition exampleMappings (ms : list (string * MappingResult)) (subPath : string)
  : MappingResult :=
  match find (fun m => String.eqb (fst m) subPath) ms with
  | Some m => snd m
  | None => MappingNoMatch
  end.

Definition exampleDeps
  : Collaborators ExampleContent (string * MappingResult) unit :=
  {| extractHookToken := fun req =>
       lookupHeader "x-openclaw-token" (c_headers (content req));
     safeEqualSecret := fun presented expected =>
       match presented with
       | Some p => String.eqb p expected
       | None => false
       end;
     readJsonBody := fun req _ => c_body (content req);
     normalizeHookHeaders := fun req => c_headers (content req);
     normalizeWakePayload := fun payload =>
       match payload with
       | JObject [("text", JString text)] => Valid (mkWake text Now)
       | _ => Invalid "text required"
       end;
     normalizeAgentPayload := fun payload =>
       match payload with
       | JObject [("message", JString msg)] =>
           Valid (mkAgent msg "Hook" None Now None true "last"
                    None None None None None)
       | _ => Invalid "message required"
       end;
     isHookAgentAllowed := fun _ _ => true;
     getHookAgentPolicyError := "agentId is not allowed by hooks.allowedAgentIds";
     resolveHookSessionKey := fun _ _ key =>
       match key with
       | Some k => Valid k
       | None => Valid "hook:default"
       end;
     resolveHookTargetAgentId := fun _ agent => agent;
     applyHookMappings := fun ms _ _ _ subPath => exampleMappings ms subPath;
     resolveHookChannel := fun chan =>
       match chan with
       | Some c => Some c
       | None => Some "last"
       end;
     getHookChannelError := "channel must be a known channel";
     resolveHookDeliver := fun d =>
       match d with
       | Some b => b
       | None => true
       end;
     dispatchWakeHook := fun _ => Returns tt;
     dispatchAgentHook := fun _ => Returns "run-1" |}.

Definition exampleConfig : HooksConfigResolved (string * MappingResult) unit :=
  mkHooksConfig "/hooks" "s3cret" 262144 [("ping", MappingSkip)] tt.

Definition exampleRequest (path : string) (query : list (string * string))
  (addr : option string) (presented : string) (bodyValue : Json)
  : Request ExampleContent :=
  mkRequest path query addr "POST"
    (mkContent [("x-openclaw-token", presented)] (Valid bodyValue)).

(** ** Properties of the handler *)

Ltac split_handler :=
  repeat match goal with
         | |- context [match ?x with _ => _ end] => destruct x eqn:?
         | |- context [if ?x then _ else _] => destruct x eqn:?
         end.

Section HandlerFacts.

Context {Content Mapping Policy : Type}.
Context (deps : Collaborators Content Mapping Policy).

#[local] Abbreviation Config := (HooksConfigResolved Mapping Policy).

(** C6.  A request under the hooks base path whose query string has a
    [token] parameter is answered 400 with a message that names the
    [Authorization] header and the [X-OpenClaw-Token] header.  Nothing else
    happens: the token is not compared (so it makes no difference whether it
    is the right one), the body is not read, nothing is dispatched and the
    failure table is left as it was. *)
Theorem C6_query_token_rejected_before_auth (cfg : Config)
  (req : Request Content) (nowMs : Z) (tbl : FailureTable) :
  underBasePath cfg req = true ->
  queryHasToken req = true ->
  let run := handleHooksRequest deps (Some cfg) req nowMs tbl in
  outcome run = Handled (sendText 400 [] QUERY_TOKEN_MESSAGE)
  /\ statusOf run = Some 400
  /\ includes "Authorization" QUERY_TOKEN_MESSAGE = true
  /\ includes "X-OpenClaw-Token" QUERY_TOKEN_MESSAGE = true
  /\ trace run = []
  /\ dispatches run = []
  /\ table run = tbl.
Proof.
  intros Hpath Hquery run. subst run. unfold handleHooksRequest.
  rewrite Hpath, Hquery. simpl. repeat split; reflexivity.
Qed.

(** *** Failed attempts *)

Lemma ceilDiv_is_ceiling (x d : Z) :
  0 < d -> d * (ceilDiv x d - 1) < x <= d * ceilDiv x d.
Proof.
  intros Hd. unfold ceilDiv.
  pose proof (Z.div_mod (- x) d) as Hdm.
  pose proof (Z.mod_pos_bound (- x) d Hd) as Hm.
  nia.
Qed.

Lemma failed_attempt_run (cfg : Config) (clientKey : string)
  (req : Request Content) (nowMs : Z) (tbl : FailureTable) :
  isFailedAttemptFrom deps cfg clientKey req = true ->
  handleHooksRequest deps (Some cfg) req nowMs tbl
  = answered (snd (recordHookAuthFailure clientKey nowMs tbl)) [TokenCompared]
      (attemptResponse (fst (recordHookAuthFailure clientKey nowMs tbl))).
Proof.
  unfold isFailedAttemptFrom. rewrite !andb_true_iff, !negb_true_iff.
  intros [[[Hpath Hquery] Htoken] Hkey]. apply String.eqb_eq in Hkey.
  unfold handleHooksRequest. rewrite Hpath, Hquery, Htoken, Hkey. simpl.
  destruct (recordHookAuthFailure clientKey nowMs tbl) as [throttle tbl'].
  unfold attemptResponse. simpl. now destruct (throttled throttle).
Qed.

Lemma record_opens_window (clientKey : string) (nowMs : Z) (tbl : FailureTable) :
  noLiveRecord clientKey nowMs tbl = true ->
  fst (recordHookAuthFailure clientKey nowMs tbl)
  = throttleFor nowMs (mkFailure 1 nowMs)
  /\ JsMap.get clientKey (snd (recordHookAuthFailure clientKey nowMs tbl))
     = Some (mkFailure 1 nowMs).
Proof.
  intros Hfresh.
  assert (nextFailure nowMs (JsMap.get clientKey (lookupTable clientKey nowMs tbl))
          = mkFailure 1 nowMs) as Hnext.
  { destruct (JsMap.has clientKey tbl) eqn:Eh.
    - rewrite (lookupTable_present _ _ _ Eh). unfold noLiveRecord in Hfresh.
      destruct (JsMap.get clientKey tbl) as [entry|]; simpl; [|reflexivity].
      now rewrite Hfresh.
    - pose proof (lookupTable_absent _ nowMs _ Eh) as Habs.
      apply JsMap.get_none_has in Habs. now rewrite Habs. }
  rewrite get_after_record, recordHookAuthFailure_unfold. simpl.
  now rewrite Hnext.
Qed.

Lemma record_within_window (clientKey : string) (nowMs c t1 : Z)
  (tbl : FailureTable) :
  JsMap.get clientKey tbl = Some (mkFailure c t1) ->
  nowMs - t1 < HOOK_AUTH_FAILURE_WINDOW_MS ->
  fst (recordHookAuthFailure clientKey nowMs tbl)
  = throttleFor nowMs (mkFailure (c + 1) t1)
  /\ JsMap.get clientKey (snd (recordHookAuthFailure clientKey nowMs tbl))
     = Some (mkFailure (c + 1) t1).
Proof.
  intros Hget Hin.
  assert (JsMap.has clientKey tbl = true) as Hhas
      by (apply JsMap.has_get; congruence).
  assert (nextFailure nowMs (JsMap.get clientKey (lookupTable clientKey nowMs tbl))
          = mkFailure (c + 1) t1) as Hnext.
  { rewrite (lookupTable_present _ _ _ Hhas), Hget. unfold nextFailure, windowElapsed.
    simpl. destruct (nowMs - t1 >=? HOOK_AUTH_FAILURE_WINDOW_MS) eqn:E; [|reflexivity].
    apply Z.geb_le in E. lia. }
  rewrite get_after_record, recordHookAuthFailure_unfold. simpl.
  now rewrite Hnext.
Qed.

(** Failed attempts from one client key inside its running window are
    answered from the count alone. *)
Lemma failed_attempts_within_window (cfg : Config) (clientKey : string) (t1 : Z)
  (batch : list (Request Content * Z)) :
  forall (c : Z) (tbl : FailureTable),
    JsMap.get clientKey tbl = Some (mkFailure c t1) ->
    Forall (fun rt => isFailedAttemptFrom deps cfg clientKey (fst rt) = true
                      /\ snd rt - t1 < HOOK_AUTH_FAILURE_WINDOW_MS) batch ->
    map outcome (serve deps (Some cfg) tbl batch)
    = map Handled (expectedAnswers t1 c batch).
Proof.
  induction batch as [|[req nowMs] rest IH]; intros c tbl Hget Hall; [reflexivity|].
  inversion Hall as [|? ? [Hreq Hin] Hrest]; subst. simpl in Hreq, Hin.
  cbn [serve expectedAnswers map].
  rewrite (failed_attempt_run cfg clientKey req nowMs tbl Hreq).
  destruct (record_within_window clientKey nowMs c t1 tbl Hget Hin) as [Hth Htbl].
  cbn [answered outcome table]. rewrite Hth. f_equal.
  now apply IH.
Qed.

(** The same, from the attempt that opens the window. *)
Lemma failed_attempts_from_fresh (cfg : Config) (clientKey : string)
  (tbl : FailureTable) (req : Request Content) (t1 : Z)
  (rest : list (Request Content * Z)) :
  noLiveRecord clientKey t1 tbl = true ->
  isFailedAttemptFrom deps cfg clientKey req = true ->
  Forall (fun rt => isFailedAttemptFrom deps cfg clientKey (fst rt) = true
                    /\ snd rt - t1 < HOOK_AUTH_FAILURE_WINDOW_MS) rest ->
  map outcome (serve deps (Some cfg) tbl ((req, t1) :: rest))
  = map Handled (expectedAnswers t1 0 ((req, t1) :: rest)).
Proof.
  intros Hfresh Hreq Hrest. cbn [serve expectedAnswers map].
  rewrite (failed_attempt_run cfg clientKey req t1 tbl Hreq).
  destruct (record_opens_window clientKey t1 tbl Hfresh) as [Hth Htbl].
  cbn [answered outcome table]. rewrite Hth. f_equal.
  now apply (failed_attempts_within_window cfg clientKey t1 rest 1).
Qed.

Lemma statusOf_outcome (run : Run) : statusOf run = statusOfOutcome (outcome run).
Proof. reflexivity. Qed.

Lemma headerOf_outcome (h : string) (run : Run) :
  headerOf h run = headerOfOutcome h (outcome run).
Proof. reflexivity. Qed.

(** Twenty-one failed attempts in one window: twenty 401, then 429. *)
Lemma twenty_one_answers (t1 : Z) (req : Request Content)
  (rest : list (Request Content * Z)) :
  length rest = 20%nat ->
  Forall (fun rt => snd rt - t1 < HOOK_AUTH_FAILURE_WINDOW_MS) rest ->
  let t21 := snd (last rest (req, t1)) in
  let answers := map Handled (expectedAnswers t1 0 ((req, t1) :: rest)) in
  map statusOfOutcome answers = repeat (Some 401) 20 ++ [Some 429]
  /\ map (headerOfOutcome "Retry-After") answers
     = repeat None 20
       ++ [Some (decimal (ceilDiv (t1 + HOOK_AUTH_FAILURE_WINDOW_MS - t21) 1000))].
Proof.
  intros Hlen Hall.
  do 20 (destruct rest as [|[? ?] rest]; [discriminate Hlen|]).
  destruct rest; [|discriminate Hlen]. clear Hlen.
  repeat match goal with
         | H : Forall _ (_ :: _) |- _ =>
             let Hh := fresh "Hh" in
             inversion H as [|? ? Hh ?]; subst; clear H; simpl in Hh
         end.
  intros t21 answers. subst t21 answers.
  cbn [last expectedAnswers map snd repeat app].
  unfold throttleFor, attemptResponse.
  cbn [count windowStartedAtMs Z.add Pos.add Pos.succ Z.leb Z.compare Pos.compare
       Pos.compare_cont HOOK_AUTH_FAILURE_LIMIT throttled retryAfterSeconds
       statusOfOutcome headerOfOutcome sendText statusCode headers
       lookupHeader app TEXT_PLAIN].
  split; [reflexivity|].
  rewrite Z.max_r by lia. reflexivity.
Qed.

(** *** The failed attempts of one client among the requests of others *)

(** A run leaves the table as it was, or records a failure for the
    client of the request, or clears that client's entry. *)
Lemma table_after_request (hooksConfig : option Config) (req : Request Content)
  (nowMs : Z) (tbl : FailureTable) :
  let tbl' := table (handleHooksRequest deps hooksConfig req nowMs tbl) in
  tbl' = tbl
  \/ tbl' = snd (recordHookAuthFailure (resolveHookClientKey req) nowMs tbl)
  \/ tbl' = clearHookAuthFailure (resolveHookClientKey req) tbl.
Proof.
  unfold handleHooksRequest, handleAuthenticated, handleWake, handleAgent,
    handleMapped, answered.
  split_handler; cbn [table snd]; auto.
Qed.

Lemma other_client_keptOrGone (hooksConfig : option Config) (clientKey : string)
  (req : Request Content) (nowMs : Z) (tbl : FailureTable) :
  resolveHookClientKey req <> clientKey ->
  keptOrGone clientKey (table (handleHooksRequest deps hooksConfig req nowMs tbl))
    tbl.
Proof.
  intros Hother.
  destruct (table_after_request hooksConfig req nowMs tbl) as [-> | [-> | ->]].
  - apply keptOrGone_refl.
  - apply keptOrGone_record. congruence.
  - apply keptOrGone_delete.
Qed.

Lemma serve_cons (hooksConfig : option Config) (tbl : FailureTable)
  (req : Request Content) (nowMs : Z) (rest : list (Request Content * Z)) :
  serve deps hooksConfig tbl ((req, nowMs) :: rest)
  = handleHooksRequest deps hooksConfig req nowMs tbl
    :: serve deps hooksConfig
         (table (handleHooksRequest deps hooksConfig req nowMs tbl)) rest.
Proof. reflexivity. Qed.

(** As long as the client's entry stays in the table, the answers to its
    failed attempts inside its window follow from the count alone, whatever
    the other clients do in between. *)
Lemma interleaved_attempts (cfg : Config) (clientKey : string) (t1 : Z)
  (batch : list (Request Content * Z)) :
  forall (c : Z) (tbl : FailureTable),
    JsMap.get clientKey tbl = Some (mkFailure c t1) ->
    Forall (fun rt => resolveHookClientKey (fst rt) = clientKey ->
                      isFailedAttemptFrom deps cfg clientKey (fst rt) = true
                      /\ snd rt - t1 < HOOK_AUTH_FAILURE_WINDOW_MS) batch ->
    trackedThroughout clientKey (serve deps (Some cfg) tbl batch) ->
    map outcome (runsOf clientKey batch (serve deps (Some cfg) tbl batch))
    = map Handled (expectedAnswers t1 c (requestsOf clientKey batch)).
Proof.
  induction batch as [|[req nowMs] rest IH]; intros c tbl Hget Hall Htracked;
    [reflexivity|].
  inversion Hall as [|? ? Hreq Hrest]; subst. cbn [fst snd] in Hreq.
  rewrite serve_cons in *.
  set (run := handleHooksRequest deps (Some cfg) req nowMs tbl) in *.
  apply Forall_cons_iff in Htracked. destruct Htracked as [Hhas Htail].
  cbn [runsOf requestsOf filter fst].
  destruct (String.eqb (resolveHookClientKey req) clientKey) eqn:Ekey.
  - apply String.eqb_eq in Ekey. destruct (Hreq Ekey) as [Hfail Hin].
    assert (run = answered (snd (recordHookAuthFailure clientKey nowMs tbl))
                    [TokenCompared]
                    (attemptResponse
                       (fst (recordHookAuthFailure clientKey nowMs tbl))))
      as Hrun by (subst run; now apply failed_attempt_run).
    destruct (record_within_window clientKey nowMs c t1 tbl Hget Hin) as [Hth Htbl].
    cbn [map expectedAnswers snd]. f_equal.
    + rewrite Hrun. cbn [answered outcome]. now rewrite Hth.
    + apply IH; [|exact Hrest | exact Htail].
      rewrite Hrun. cbn [answered table]. exact Htbl.
  - apply String.eqb_neq in Ekey.
    destruct (other_client_keptOrGone (Some cfg) clientKey req nowMs tbl Ekey)
      as [Hkept | Hgone]; fold run in Hkept || fold run in Hgone.
    + apply IH; [congruence | exact Hrest | exact Htail].
    + apply JsMap.get_none_has in Hgone. congruence.
Qed.

(** Below capacity no entry is evicted: the client stays tracked. *)
Lemma tracked_below_capacity (cfg : Config) (clientKey : string) (t1 : Z)
  (batch : list (Request Content * Z)) :
  forall tbl : FailureTable,
    JsMap.has clientKey tbl = true ->
    Forall (fun rt => resolveHookClientKey (fst rt) = clientKey ->
                      isFailedAttemptFrom deps cfg clientKey (fst rt) = true
                      /\ snd rt - t1 < HOOK_AUTH_FAILURE_WINDOW_MS) batch ->
    JsMap.size tbl + Z.of_nat (length batch) <= HOOK_AUTH_FAILURE_TRACK_MAX ->
    trackedThroughout clientKey (serve deps (Some cfg) tbl batch).
Proof.
  induction batch as [|[req nowMs] rest IH]; intros tbl Hhas Hall Hroom;
    [constructor|].
  inversion Hall as [|? ? Hreq Hrest]; subst. cbn [fst snd] in Hreq.
  rewrite serve_cons. cbn [length] in Hroom.
  set (run := handleHooksRequest deps (Some cfg) req nowMs tbl).
  assert (JsMap.size tbl < HOOK_AUTH_FAILURE_TRACK_MAX) as Hbelow by lia.
  destruct (record_below_capacity clientKey (resolveHookClientKey req) nowMs tbl
              Hbelow) as [Hsize Hstays].
  assert (JsMap.has clientKey (table run) = true
          /\ JsMap.size (table run) <= JsMap.size tbl + 1) as [Hhas' Hsize'].
  { destruct (String.eqb (resolveHookClientKey req) clientKey) eqn:Ekey.
    - apply String.eqb_eq in Ekey. destruct (Hreq Ekey) as [Hfail _].
      subst run. rewrite (failed_attempt_run cfg clientKey req nowMs tbl Hfail).
      cbn [answered table]. rewrite Ekey in *. auto.
    - apply String.eqb_neq in Ekey.
      destruct (table_after_request (Some cfg) req nowMs tbl) as [H | [H | H]];
        fold run in H; rewrite H.
      + split; [exact Hhas | lia].
      + auto.
      + unfold clearHookAuthFailure. split.
        * rewrite JsMap.has_delete_other by congruence. exact Hhas.
        * unfold JsMap.size.
          pose proof (JsMap.length_delete_le (resolveHookClientKey req) tbl). lia. }
  constructor; [exact Hhas'|]. apply IH; [exact Hhas' | exact Hrest | lia].
Qed.

(** C3 (amended).  A client makes twenty-one hook requests with a wrong
    token, the first when it has no running window and all of them less than
    60 s after the first; requests of other clients may be served in between.
    If the client's entry stays in the failure table throughout, its first
    twenty requests are answered 401 and the twenty-first is answered 429
    with a [Retry-After] header whose value is the ceiling of (window start +
    60000 - now) / 1000, which is at least 1.  The entry does stay when the
    table has room for every request of the batch, so that nothing is
    evicted. *)
Theorem C3_throttled_on_21st_failure (cfg : Config) (clientKey : string)
  (tbl : FailureTable) (req : Request Content) (t1 : Z)
  (rest : list (Request Content * Z)) :
  noLiveRecord clientKey t1 tbl = true ->
  isFailedAttemptFrom deps cfg clientKey req = true ->
  Forall (fun rt => resolveHookClientKey (fst rt) = clientKey ->
                    isFailedAttemptFrom deps cfg clientKey (fst rt) = true
                    /\ snd rt - t1 < HOOK_AUTH_FAILURE_WINDOW_MS) rest ->
  length (requestsOf clientKey rest) = 20%nat ->
  let batch := (req, t1) :: rest in
  let runs := serve deps (Some cfg) tbl batch in
  let mine := runsOf clientKey batch runs in
  let t21 := snd (last (requestsOf clientKey rest) (req, t1)) in
  let retryAfter := ceilDiv (t1 + HOOK_AUTH_FAILURE_WINDOW_MS - t21) 1000 in
  (trackedThroughout clientKey runs ->
   map statusOf mine = repeat (Some 401) 20 ++ [Some 429]
   /\ map (headerOf "Retry-After") mine
      = repeat None 20 ++ [Some (decimal retryAfter)]
   /\ 1 <= retryAfter
   /\ 1000 * (retryAfter - 1)
      < t1 + HOOK_AUTH_FAILURE_WINDOW_MS - t21
      <= 1000 * retryAfter)
  /\ (JsMap.size tbl + Z.of_nat (length batch) <= HOOK_AUTH_FAILURE_TRACK_MAX ->
      trackedThroughout clientKey runs).
Proof.
  intros Hfresh Hreq Hrest Hlen batch runs mine t21 retryAfter.
  assert (String.eqb (resolveHookClientKey req) clientKey = true) as Hkey.
  { unfold isFailedAttemptFrom in Hreq. now apply andb_true_iff in Hreq. }
  destruct (record_opens_window clientKey t1 tbl Hfresh) as [Hth Htbl].
  assert (runs
          = answered (snd (recordHookAuthFailure clientKey t1 tbl)) [TokenCompared]
              (attemptResponse (fst (recordHookAuthFailure clientKey t1 tbl)))
            :: serve deps (Some cfg) (snd (recordHookAuthFailure clientKey t1 tbl))
                 rest) as Hruns.
  { subst runs batch. rewrite serve_cons.
    now rewrite (failed_attempt_run cfg clientKey req t1 tbl Hreq). }
  split.
  - intros Htracked. rewrite Hruns in Htracked.
    inversion Htracked as [|? ? _ Htail]; subst.
    pose proof (interleaved_attempts cfg clientKey t1 rest 1 _ Htbl Hrest Htail)
      as Hrestruns.
    assert (map outcome mine
            = map Handled
                (expectedAnswers t1 0 ((req, t1) :: requestsOf clientKey rest)))
      as Hmine.
    { subst mine batch. rewrite Hruns. cbn [runsOf]. rewrite Hkey.
      cbn [map expectedAnswers answered outcome]. rewrite Hth. f_equal.
      exact Hrestruns. }
    assert (Forall (fun rt => snd rt - t1 < HOOK_AUTH_FAILURE_WINDOW_MS)
              (requestsOf clientKey rest)) as Htimes.
    { apply Forall_forall. intros rt Hin. unfold requestsOf in Hin.
      apply filter_In in Hin. destruct Hin as [Hin Hmine'].
      apply String.eqb_eq in Hmine'.
      rewrite Forall_forall in Hrest. exact (proj2 (Hrest rt Hin Hmine')). }
    destruct (twenty_one_answers t1 req (requestsOf clientKey rest) Hlen Htimes)
      as [Hstatus Hheader].
    rewrite <- Hmine, map_map in Hstatus, Hheader.
    assert (t21 - t1 < HOOK_AUTH_FAILURE_WINDOW_MS) as Hlast.
    { subst t21. destruct (requestsOf clientKey rest) as [|rt rest'];
        [discriminate Hlen|].
      pose proof (@exists_last _ (rt :: rest') ltac:(discriminate)) as [front [z Hz]].
      rewrite Hz, last_last. rewrite Hz in Htimes.
      apply Forall_app in Htimes. destruct Htimes as [_ Hz'].
      now inversion Hz'. }
    pose proof (ceilDiv_is_ceiling (t1 + HOOK_AUTH_FAILURE_WINDOW_MS - t21) 1000
                  ltac:(lia)) as Hceil.
    fold retryAfter in Hceil.
    split; [exact Hstatus|]. split; [exact Hheader|].
    split; [lia | exact Hceil].
  - intros Hroom. rewrite Hruns. subst batch. cbn [length] in Hroom.
    assert (JsMap.size tbl < HOOK_AUTH_FAILURE_TRACK_MAX) as Hbelow by lia.
    destruct (record_below_capacity clientKey clientKey t1 tbl Hbelow) as [Hsize _].
    assert (JsMap.has clientKey (snd (recordHookAuthFailure clientKey t1 tbl)) = true)
      as Hhas by (apply JsMap.has_get; rewrite Htbl; discriminate).
    constructor; [exact Hhas|].
    apply (tracked_below_capacity cfg clientKey t1); [exact Hhas | exact Hrest | lia].
Qed.

(** C10.  A request whose socket reports no remote address, or one made of
    white space only, has the client key ["unknown"].  A wrong token on such a
    request is recorded under ["unknown"] and answered from that entry; a
    right token deletes the entry ["unknown"]; and twenty-one wrong-token
    requests of this kind inside one window, from whichever sockets, run into
    the throttle together: twenty 401, then 429. *)
Theorem C10_missing_address_shares_unknown_key (cfg : Config) :
  (forall req : Request Content,
      addressMissing req = true -> resolveHookClientKey req = "unknown")
  /\ (forall (req : Request Content) nowMs tbl,
        addressMissing req = true ->
        underBasePath cfg req = true ->
        queryHasToken req = false ->
        let run := handleHooksRequest deps (Some cfg) req nowMs tbl in
        (safeEqualSecret deps (extractHookToken deps req) (token cfg) = false ->
         table run = snd (recordHookAuthFailure "unknown" nowMs tbl)
         /\ outcome run
            = Handled (attemptResponse
                         (fst (recordHookAuthFailure "unknown" nowMs tbl))))
        /\ (safeEqualSecret deps (extractHookToken deps req) (token cfg) = true ->
            table run = JsMap.delete "unknown" tbl
            /\ JsMap.get "unknown" (table run) = None))
  /\ (forall tbl (req : Request Content) t1 rest,
        length rest = 20%nat ->
        noLiveRecord "unknown" t1 tbl = true ->
        Forall (fun rt => addressMissing (fst rt) = true
                          /\ isFailedAttemptFrom deps cfg
                               (resolveHookClientKey (fst rt)) (fst rt) = true
                          /\ snd rt - t1 < HOOK_AUTH_FAILURE_WINDOW_MS)
               ((req, t1) :: rest) ->
        map statusOf (serve deps (Some cfg) tbl ((req, t1) :: rest))
        = repeat (Some 401) 20 ++ [Some 429]).
Proof.
  assert (forall req : Request Content,
             addressMissing req = true -> resolveHookClientKey req = "unknown")
    as Hkey.
  { intros req. unfold addressMissing, resolveHookClientKey.
    destruct (socket_remoteAddress req) as [addr|]; [|reflexivity].
    intros Hws. assert (trim addr = "") as ->; [|reflexivity].
    unfold trim. assert (trimStart addr = "") as ->; [|reflexivity].
    induction addr as [|c addr IH]; [reflexivity|]. simpl in *.
    apply andb_true_iff in Hws. destruct Hws as [Hc Hrest]. rewrite Hc. auto. }
  split; [exact Hkey|]. split.
  - intros req nowMs tbl Hmiss Hpath Hquery run. subst run. split.
    + intros Hwrong.
      rewrite (failed_attempt_run cfg "unknown" req nowMs tbl).
      * split; reflexivity.
      * unfold isFailedAttemptFrom.
        rewrite Hpath, Hquery, Hwrong, (Hkey req Hmiss). reflexivity.
    + intros Hright.
      assert (table (handleHooksRequest deps (Some cfg) req nowMs tbl)
              = JsMap.delete "unknown" tbl) as Htbl.
      { unfold handleHooksRequest. rewrite Hpath, Hquery, Hright, (Hkey req Hmiss).
        cbn [negb]. unfold clearHookAuthFailure, handleAuthenticated, handleWake,
          handleAgent, handleMapped, answered.
        split_handler; reflexivity. }
      rewrite Htbl. split; [reflexivity|].
      apply JsMap.get_none_has, JsMap.has_delete_same.
  - intros tbl req t1 rest Hlen Hfresh Hall.
    inversion Hall as [|? ? [Hmiss [Hreq _]] Hrest]; subst. simpl in Hmiss, Hreq.
    rewrite (Hkey req Hmiss) in Hreq.
    assert (Forall (fun rt => isFailedAttemptFrom deps cfg "unknown" (fst rt) = true
                              /\ snd rt - t1 < HOOK_AUTH_FAILURE_WINDOW_MS) rest)
      as Hrest'.
    { eapply Forall_impl; [|exact Hrest]. intros rt [Hm [Hr Ht]].
      rewrite (Hkey _ Hm) in Hr. auto. }
    pose proof (failed_attempts_from_fresh cfg "unknown" tbl req t1 rest
                  Hfresh Hreq Hrest') as Hruns.
    assert (Forall (fun rt => snd rt - t1 < HOOK_AUTH_FAILURE_WINDOW_MS) rest) as Htimes.
    { eapply Forall_impl; [|exact Hrest']. intros rt [_ H]. exact H. }
    destruct (twenty_one_answers t1 req rest Hlen Htimes) as [Hstatus _].
    rewrite <- Hruns, map_map in Hstatus. exact Hstatus.
Qed.

(** The 2xx half of the dispatch discipline as the specification words it:
    a 2xx answer comes after a dispatcher call that completed. *)
Definition everySuccessFollowsDispatch (run : Run) : Prop :=
  forall res,
    outcome run = Handled res ->
    is2xx (statusCode res) = true ->
    exists e, In e (dispatches run) /\ isCompletedDispatch e = true.

(** C4 (amended).  Of the answers the handler gives, 200 and 202 are sent
    after exactly one dispatcher call, which returned; 204, the answer to a
    mapping that asks to skip the request, is sent without any dispatcher
    call; these three are the only 2xx answers; and a 4xx answer is sent
    without any dispatcher call. *)
Theorem C4_dispatch_discipline (hooksConfig : option Config)
  (req : Request Content) (nowMs : Z) (tbl : FailureTable) (res : Response) :
  let run := handleHooksRequest deps hooksConfig req nowMs tbl in
  outcome run = Handled res ->
  (statusCode res = 200 \/ statusCode res = 202 ->
   exists e, dispatches run = [e] /\ isCompletedDispatch e = true)
  /\ (is2xx (statusCode res) = true ->
      statusCode res = 200 \/ statusCode res = 202 \/ statusCode res = 204)
  /\ (statusCode res = 204 -> dispatches run = [])
  /\ (is4xx (statusCode res) = true -> dispatches run = []).
Proof.
  intros run. subst run.
  unfold handleHooksRequest, handleAuthenticated, handleWake, handleAgent,
    handleMapped, answered.
  split_handler; cbn [outcome]; intros Hres;
    try discriminate Hres; inversion Hres; subst res; clear Hres;
    cbn [statusCode sendText sendJson NOT_FOUND MAPPING_FAILED
         dispatches trace app filter isDispatch is2xx is4xx];
    (split; [| split; [| split]]); intros H;
    try reflexivity; try discriminate H;
    try (destruct H as [H | H]; discriminate H);
    try (eexists; split; reflexivity);
    try (vm_compute in H; discriminate H);
    auto.
Qed.

End HandlerFacts.

Lemma C6_query_token_witness :
  let req := exampleRequest "/hooks/wake" [("token", "s3cret")]
               (Some "203.0.113.7") "s3cret"
               (JObject [("text", JString "wake up")]) in
  safeEqualSecret exampleDeps (extractHookToken exampleDeps req)
    (token exampleConfig) = true
  /\ statusOf (handleHooksRequest exampleDeps (Some exampleConfig) req 0 []) = Some 400
  /\ dispatches (handleHooksRequest exampleDeps (Some exampleConfig) req 0 []) = [].
Proof.
  intros req. split; [reflexivity|].
  destruct (C6_query_token_rejected_before_auth exampleDeps exampleConfig req 0 [])
    as (_ & Hstatus & _ & _ & _ & Hnone & _); [reflexivity | reflexivity |].
  split; [exact Hstatus | exact Hnone].
Defined.

(** C4, as stated, fails: a mapping that matches and asks to skip the
    request is answered 204, a 2xx status, and no dispatcher was called. *)
Lemma C4_skip_answers_2xx_without_dispatch :
  let run :=
    handleHooksRequest exampleDeps (Some exampleConfig)
      (exampleRequest "/hooks/ping" [] (Some "203.0.113.7") "s3cret" (JObject []))
      0 [] in
  statusOf run = Some 204
  /\ dispatches run = []
  /\ ~ everySuccessFollowsDispatch run.
Proof.
  intros run. split; [reflexivity|]. split; [reflexivity|].
  intros Hclaim.
  destruct (Hclaim (mkResponse 204 [] NoBody) eq_refl eq_refl) as [e [Hin _]].
  exact Hin.
Qed.

Lemma C4_dispatch_discipline_witness :
  let run :=
    handleHooksRequest exampleDeps (Some exampleConfig)
      (exampleRequest "/hooks/wake" [] (Some "203.0.113.7") "s3cret"
         (JObject [("text", JString "wake up")]))
      0 [] in
  statusOf run = Some 200
  /\ exists e, dispatches run = [e] /\ isCompletedDispatch e = true.
Proof.
  intros run. split; [reflexivity|].
  destruct (C4_dispatch_discipline exampleDeps (Some exampleConfig)
              (exampleRequest "/hooks/wake" [] (Some "203.0.113.7") "s3cret"
                 (JObject [("text", JString "wake up")]))
              0 [] (sendJson 200 (wakeJson Now)) eq_refl) as [Hok _].
  apply Hok. left. reflexivity.
Defined.

(** Twenty-one wrong-token requests from one address, one per second. *)
Definition wrongTokenBurst (addr : option string) (n : nat)
  : list (Request ExampleContent * Z) :=
  map (fun i =>
         (exampleRequest "/hooks/wake" [] addr "guess"
            (JObject [("text", JString "wake up")]),
          1000 * Z.of_nat i))
      (seq 0 n).

(** The burst of one address with the requests of two other clients in
    between: one with a wrong token, one with the right token. *)
Definition interleavedBurst : list (Request ExampleContent * Z) :=
  firstn 10 (wrongTokenBurst (Some "203.0.113.7") 21)
  ++ [(exampleRequest "/hooks/wake" [] (Some "198.51.100.4") "guess"
         (JObject [("text", JString "wake up")]), 9500);
      (exampleRequest "/hooks/wake" [] (Some "198.51.100.9") "s3cret"
         (JObject [("text", JString "wake up")]), 9600)]
  ++ skipn 10 (wrongTokenBurst (Some "203.0.113.7") 21).

Lemma C3_throttled_on_21st_failure_witness :
  let runs := serve exampleDeps (Some exampleConfig) [] interleavedBurst in
  let mine := runsOf "203.0.113.7" interleavedBurst runs in
  map statusOf mine = repeat (Some 401) 20 ++ [Some 429]
  /\ map (headerOf "Retry-After") mine = repeat None 20 ++ [Some "40"]
  /\ map statusOf runs
     = repeat (Some 401) 11 ++ [Some 200] ++ repeat (Some 401) 10 ++ [Some 429].
Proof.
  intros runs mine.
  pose proof (C3_throttled_on_21st_failure exampleDeps exampleConfig "203.0.113.7" []
                (exampleRequest "/hooks/wake" [] (Some "203.0.113.7") "guess"
                   (JObject [("text", JString "wake up")]))
                0 (tl interleavedBurst)) as Hclaim.
  assert (Forall
            (fun rt : Request ExampleContent * Z =>
               resolveHookClientKey (fst rt) = "203.0.113.7" ->
               isFailedAttemptFrom exampleDeps exampleConfig "203.0.113.7" (fst rt)
               = true
               /\ snd rt - 0 < HOOK_AUTH_FAILURE_WINDOW_MS)
            (tl interleavedBurst)) as Hrest.
  { unfold interleavedBurst, wrongTokenBurst. simpl.
    repeat (constructor;
            [intros Hk;
             first [vm_compute in Hk; discriminate Hk
                   | split; [reflexivity | vm_compute; reflexivity]]|]).
    constructor. }
  destruct (Hclaim eq_refl eq_refl Hrest eq_refl) as [Hanswers Htracked].
  destruct (Hanswers (Htracked ltac:(vm_compute; discriminate)))
    as (Hstatus & Hheader & _).
  split; [exact Hstatus|]. split; [exact Hheader | reflexivity].
Defined.

(** Twenty failures of one address, then one failure each of 2048 other
    addresses, then the twenty-first failure of the first address, all
    within 31 s. *)
Definition evictingBurst : list (Request ExampleContent * Z) :=
  wrongTokenBurst (Some "203.0.113.7") 20
  ++ map (fun i =>
            (exampleRequest "/hooks/wake" [] (Some (clientNo i)) "guess"
               (JObject [("text", JString "wake up")]),
             20000 + Z.of_nat i))
       (seq 0 2048)
  ++ [(exampleRequest "/hooks/wake" [] (Some "203.0.113.7") "guess"
         (JObject [("text", JString "wake up")]), 30000)].

(** C3, as stated, fails: the failure table is shared by all clients.
    When 2048 other clients fail between the twentieth and the twenty-first
    failure of a client, inside its 60 s window, the table reaches its
    capacity, the client's entry is dropped with the oldest half, and its
    twenty-first failure is answered 401, with no [Retry-After]. *)
Lemma C3_evicted_client_not_throttled :
  let runs := serve exampleDeps (Some exampleConfig) [] evictingBurst in
  let mine := runsOf "203.0.113.7" evictingBurst runs in
  forallb
    (fun rt =>
       isFailedAttemptFrom exampleDeps exampleConfig
         (resolveHookClientKey (fst rt)) (fst rt)
       && (0 <=? snd rt) && (snd rt <? HOOK_AUTH_FAILURE_WINDOW_MS))
    evictingBurst = true
  /\ length (requestsOf "203.0.113.7" evictingBurst) = 21%nat
  /\ map statusOf mine = repeat (Some 401) 21
  /\ map (headerOf "Retry-After") mine = repeat None 21.
Proof. vm_compute. repeat split; reflexivity. Qed.

(** Requests over sockets that report no address, or a blank one. *)
Definition anonymousBurst : list (Request ExampleContent * Z) :=
  map (fun i =>
         (exampleRequest "/hooks/wake" []
            (if Nat.even i then None else Some "  ") "guess"
            (JObject [("text", JString "wake up")]),
          1000 * Z.of_nat i))
      (seq 0 21).

Lemma C10_missing_address_witness :
  resolveHookClientKey
    (exampleRequest "/hooks/wake" [] (Some "  ") "guess" (JObject []))
  = "unknown"
  /\ JsMap.get "unknown"
       (table (handleHooksRequest exampleDeps (Some exampleConfig)
                 (exampleRequest "/hooks/wake" [] None "s3cret"
                    (JObject [("text", JString "wake up")]))
                 5000 [("unknown", mkFailure 3 0)]))
     = None
  /\ map statusOf (serve exampleDeps (Some exampleConfig) [] anonymousBurst)
     = repeat (Some 401) 20 ++ [Some 429].
Proof.
  destruct (C10_missing_address_shares_unknown_key exampleDeps exampleConfig)
    as (Hkey & Hone & Hmany).
  split; [apply Hkey; reflexivity|]. split.
  - pose proof (Hone (exampleRequest "/hooks/wake" [] None "s3cret"
                        (JObject [("text", JString "wake up")]))
                  5000 [("unknown", mkFailure 3 0)] eq_refl eq_refl eq_refl)
      as [_ Hright].
    exact (proj2 (Hright eq_refl)).
  - apply (Hmany [] (fst (hd (exampleRequest "/hooks/wake" [] None "guess" (JObject []), 0)
                            anonymousBurst)) 0 (tl anonymousBurst)).
    + reflexivity.
    + reflexivity.
    + unfold anonymousBurst. simpl.
      repeat (constructor;
              [split; [reflexivity
                      | split; [reflexivity
                               | simpl; unfold HOOK_AUTH_FAILURE_WINDOW_MS; lia]]|]).
      constructor.
Defined.

End HooksHandler.

(* ================================================================== *)
(** * Machine-scoped authorization ([authorizeMachineScopedRequest]) *)
(* ================================================================== *)

Module MachineScopedAuth.

(** [GatewayAuthResult], as far as this file reads and builds it. *)
Record GatewayAuthResult : Type := mkAuthResult {
  ok : bool;
  reason : option string;
  rateLimited : bool;
  retryAfterMs : option Z
}.

(** [{ ok: true }] *)
Definition AUTH_OK : GatewayAuthResult := mkAuthResult true None false None.

(** [{ ok: false, reason: "unauthorized" }] *)
Definition AUTH_UNAUTHORIZED : GatewayAuthResult :=
  mkAuthResult false (Some "unauthorized") false None.

(** An entry of the authenticated-client registry ([GatewayWsClient]):
    a live WebSocket connection with the client IP resolved at connect. *)
Record GatewayWsClient : Type := mkClient {
  connId : string;
  clientIp : option string
}.

(** [ResolvedGatewayAuth]: the flag this file overrides, and the rest. *)
Record ResolvedGatewayAuth (Secrets : Type) : Type := mkAuth {
  allowTailscale : bool;
  secrets : Secrets
}.

Arguments mkAuth {Secrets}.
Arguments allowTailscale {Secrets}.
Arguments secrets {Secrets}.

(** [{ token, password }] passed as [connectAuth]. *)
Record ConnectAuth : Type := mkConnectAuth {
  ca_token : string;
  ca_password : string
}.

(** The functions imported from [auth.ts], [net.ts] and [http-utils.ts].
    [Req] is the [IncomingMessage]. *)
Record Collaborators (Req Secrets : Type) : Type := mkCollaborators {
  isLocalDirectRequest : Req -> list string -> bool;
  getBearerToken : Req -> option string;
  authorizeGatewayConnect :
    ResolvedGatewayAuth Secrets -> ConnectAuth -> Req -> list string ->
    GatewayAuthResult;
  socketRemoteAddress : Req -> option string;
  getHeader : Req -> string -> option string;
  resolveGatewayClientIp :
    string -> option string -> option string -> list string -> option string;
  isPrivateOrLoopbackAddress : string -> bool
}.

Arguments isLocalDirectRequest {Req Secrets}.
Arguments getBearerToken {Req Secrets}.
Arguments authorizeGatewayConnect {Req Secrets}.
Arguments socketRemoteAddress {Req Secrets}.
Arguments getHeader {Req Secrets}.
Arguments resolveGatewayClientIp {Req Secrets}.
Arguments isPrivateOrLoopbackAddress {Req Secrets}.

(** The checks a run of the authorizer went through, oldest first. *)
Inductive Step : Type :=
| CheckedLocalDirect
| TriedBearer (token : string)
| ResolvedClientIp
| ClassifiedAddress (ip : string)
| ConsultedRegistry (ip : string).

(** A JavaScript string used as a condition: [undefined] and [""] are
    falsy. *)
Definition truthy (s : option string) : option string :=
  match s with
  | Some EmptyString => None
  | other => other
  end.

(** [hasAuthorizedWsClientForIp(clients, clientIp)]; the [Set] is walked in
    insertion order. *)
Fixpoint hasAuthorizedWsClientForIp (clients : list GatewayWsClient)
  (ip : string) : bool :=
  match clients with
  | [] => false
  | client :: rest =>
      match truthy (clientIp client) with
      | Some held =>
          if String.eqb held ip then true
          else hasAuthorizedWsClientForIp rest ip
      | None => hasAuthorizedWsClientForIp rest ip
      end
  end.

Section Authorizer.

Context {Req Secrets : Type}.
Context (deps : Collaborators Req Secrets).

(** [lastAuthFailure ?? { ok: false, reason: "unauthorized" }] *)
Definition orUnauthorized (lastAuthFailure : option GatewayAuthResult)
  : GatewayAuthResult :=
  match lastAuthFailure with
  | Some failure => failure
  | None => AUTH_UNAUTHORIZED
  end.

(** The part after the bearer attempt: resolve the client IP and fall back
    on the registry of authenticated connections. *)
Definition siblingFallback (req : Req) (trustedProxies : list string)
  (clients : list GatewayWsClient) (lastAuthFailure : option GatewayAuthResult)
  (steps : list Step) : GatewayAuthResult * list Step :=
  let resolved :=
    resolveGatewayClientIp deps
      (match socketRemoteAddress deps req with
       | Some addr => addr
       | None => ""
       end)
      (getHeader deps req "x-forwarded-for")
      (getHeader deps req "x-real-ip")
      trustedProxies in
  let steps := steps ++ [ResolvedClientIp] in
  match truthy resolved with
  | None => (orUnauthorized lastAuthFailure, steps)
  | Some ip =>
      let steps := steps ++ [ClassifiedAddress ip] in
      if negb (isPrivateOrLoopbackAddress deps ip)
      then (orUnauthorized lastAuthFailure, steps)
      else
        let steps := steps ++ [ConsultedRegistry ip] in
        if hasAuthorizedWsClientForIp clients ip
        then (AUTH_OK, steps)
        else (orUnauthorized lastAuthFailure, steps)
  end.

(** [authorizeMachineScopedRequest({ req, auth, trustedProxies, clients,
    rateLimiter })]; the rate limiter lives inside
    [authorizeGatewayConnect]. *)
Definition authorizeMachineScopedRequest (req : Req)
  (auth : ResolvedGatewayAuth Secrets) (trustedProxies : list string)
  (clients : list GatewayWsClient) : GatewayAuthResult * list Step :=
  if isLocalDirectRequest deps req trustedProxies
  then (AUTH_OK, [CheckedLocalDirect])
  else
    match truthy (getBearerToken deps req) with
    | Some token =>
        let authResult :=
          authorizeGatewayConnect deps
            (mkAuth false (secrets auth))
            (mkConnectAuth token token) req trustedProxies in
        if ok authResult
        then (authResult, [CheckedLocalDirect; TriedBearer token])
        else
          siblingFallback req trustedProxies clients (Some authResult)
            [CheckedLocalDirect; TriedBearer token]
    | None =>
        siblingFallback req trustedProxies clients None [CheckedLocalDirect]
    end.

(** A bearer token was presented and [authorizeGatewayConnect] accepted
    it. *)
Definition bearerAccepted (req : Req) (auth : ResolvedGatewayAuth Secrets)
  (trustedProxies : list string) : bool :=
  match truthy (getBearerToken deps req) with
  | Some token =>
      ok (authorizeGatewayConnect deps (mkAuth false (secrets auth))
            (mkConnectAuth token token) req trustedProxies)
  | None => false
  end.

(** The effective client IP: the socket address seen through
    [X-Forwarded-For] / [X-Real-IP] under the trusted-proxy filter. *)
Definition effectiveClientIp (req : Req) (trustedProxies : list string)
  : option string :=
  truthy
    (resolveGatewayClientIp deps
       (match socketRemoteAddress deps req with
        | Some addr => addr
        | None => ""
        end)
       (getHeader deps req "x-forwarded-for")
       (getHeader deps req "x-real-ip")
       trustedProxies).

Definition consultsRegistry (s : Step) : bool :=
  match s with
  | ConsultedRegistry _ => true
  | _ => false
  end.

End Authorizer.

(** ** Properties *)

Lemma truthy_some (s : option string) (ip : string) :
  truthy s = Some ip <-> s = Some ip /\ ip <> "".
Proof.
  destruct s as [[|c s']|]; simpl; split.
  - discriminate.
  - intros [H Hne]. inversion H. congruence.
  - intros H. inversion H. split; [reflexivity | discriminate].
  - tauto.
  - discriminate.
  - intros [H _]. discriminate H.
Qed.

Lemma hasAuthorizedWsClientForIp_sound (clients : list GatewayWsClient)
  (ip : string) :
  hasAuthorizedWsClientForIp clients ip = true <->
  ip <> "" /\ exists client, In client clients /\ clientIp client = Some ip.
Proof.
  induction clients as [|client rest IH]; cbn [hasAuthorizedWsClientForIp].
  - split; [discriminate | intros [_ [c [[] _]]]].
  - assert (ip <> "" /\ (exists c, In c (client :: rest) /\ clientIp c = Some ip)
            <-> truthy (clientIp client) = Some ip
                \/ hasAuthorizedWsClientForIp rest ip = true) as Hcases.
    { rewrite IH, truthy_some. split.
      - intros [Hne [c [[Hc | Hin] Hip]]]; [subst c; left; auto | right; eauto].
      - intros [[Hip Hne] | [Hne [c [Hin Hip]]]].
        + split; [exact Hne|]. exists client. simpl. auto.
        + split; [exact Hne|]. exists c. simpl. auto. }
    rewrite Hcases. destruct (truthy (clientIp client)) as [held|] eqn:Eheld.
    + destruct (String.eqb held ip) eqn:E.
      * apply String.eqb_eq in E. subst held. tauto.
      * apply String.eqb_neq in E. split; [tauto|].
        intros [H | H]; [inversion H; congruence | exact H].
    + split; [tauto | intros [H | H]; [discriminate H | exact H]].
Qed.

Section AuthorizerFacts.

Context {Req Secrets : Type}.
Context (deps : Collaborators Req Secrets).

(** C2.  When the machine-scoped authorizer answers [ok] and no bearer
    credential was accepted, the request was a local direct connection, or
    its effective client IP is private or loopback and the registry of
    authenticated connections holds a connection with that very IP.  When
    the effective client IP is not private or loopback the registry is never
    consulted, and the request, unless it is local or carries an accepted
    bearer credential, is rejected. *)
Theorem C2_machine_scope_ok_only_local_or_sibling (req : Req)
  (auth : ResolvedGatewayAuth Secrets) (trustedProxies : list string)
  (clients : list GatewayWsClient) :
  let result := authorizeMachineScopedRequest deps req auth trustedProxies clients in
  (ok (fst result) = true ->
   bearerAccepted deps req auth trustedProxies = false ->
   isLocalDirectRequest deps req trustedProxies = true
   \/ exists ip,
        effectiveClientIp deps req trustedProxies = Some ip
        /\ isPrivateOrLoopbackAddress deps ip = true
        /\ exists client, In client clients /\ clientIp client = Some ip)
  /\ (forall ip,
        effectiveClientIp deps req trustedProxies = Some ip ->
        isPrivateOrLoopbackAddress deps ip = false ->
        existsb consultsRegistry (snd result) = false
        /\ (isLocalDirectRequest deps req trustedProxies = false ->
            bearerAccepted deps req auth trustedProxies = false ->
            ok (fst result) = false)).
Proof.
  intros result. subst result.
  unfold authorizeMachineScopedRequest, bearerAccepted, effectiveClientIp,
    siblingFallback.
  destruct (isLocalDirectRequest deps req trustedProxies) eqn:Elocal.
  - split; [intros _ _; now left|].
    intros ip _ _. split; [reflexivity | intros H; discriminate H].
  - destruct (truthy (getBearerToken deps req)) as [token|] eqn:Etoken.
    + destruct (ok (authorizeGatewayConnect deps (mkAuth false (secrets auth))
                      (mkConnectAuth token token) req trustedProxies)) eqn:Eok.
      * split; [intros _ H; discriminate H|].
        intros ip _ _. split; [reflexivity | intros _ H; discriminate H].
      * destruct (truthy (resolveGatewayClientIp deps _ _ _ trustedProxies))
          as [ip0|] eqn:Eip; cbn [orUnauthorized fst snd].
        -- destruct (isPrivateOrLoopbackAddress deps ip0) eqn:Epriv; cbn [negb fst snd].
           ++ destruct (hasAuthorizedWsClientForIp clients ip0) eqn:Ereg; cbn [fst snd].
              ** split.
                 --- intros _ _. right. exists ip0. split; [reflexivity|].
                     split; [exact Epriv|].
                     apply hasAuthorizedWsClientForIp_sound in Ereg. tauto.
                 --- intros ip Hip Hpub. inversion Hip; subst. congruence.
              ** split; [intros H; congruence|].
                 intros ip Hip Hpub. inversion Hip; subst. congruence.
           ++ split; [intros H; congruence|].
              intros ip Hip Hpub. split; [reflexivity | intros _ _; exact Eok].
        -- split; [intros H; congruence | intros ip H; discriminate H].
    + destruct (truthy (resolveGatewayClientIp deps _ _ _ trustedProxies))
        as [ip0|] eqn:Eip; cbn [orUnauthorized fst snd].
      * destruct (isPrivateOrLoopbackAddress deps ip0) eqn:Epriv; cbn [negb fst snd].
        -- destruct (hasAuthorizedWsClientForIp clients ip0) eqn:Ereg; cbn [fst snd].
           ++ split.
              ** intros _ _. right. exists ip0. split; [reflexivity|].
                 split; [exact Epriv|].
                 apply hasAuthorizedWsClientForIp_sound in Ereg. tauto.
              ** intros ip Hip Hpub. inversion Hip; subst. congruence.
           ++ split; [intros H; discriminate H|].
              intros ip Hip Hpub. inversion Hip; subst. congruence.
        -- split; [intros H; discriminate H|].
           intros ip Hip Hpub. split; [reflexivity | intros _ _; reflexivity].
      * split; [intros H; discriminate H | intros ip H; discriminate H].
Qed.

End AuthorizerFacts.

(** A concrete deployment: the gateway behind the trusted proxy
    [10.0.0.1]; the secret is [s3cret]. *)
Record ExampleReq : Type := mkReq {
  er_remote : string;
  er_bearer : option string;
  er_forwardedFor : option string
}.

Definition exampleDeps : Collaborators ExampleReq string :=
  {| isLocalDirectRequest := fun req _ =>
       String.eqb (er_remote req) "127.0.0.1"
       && match er_forwardedFor req with Some _ => false | None => true end;
     getBearerToken := er_bearer;
     authorizeGatewayConnect := fun auth presented _ _ =>
       if String.eqb (ca_token presented) (secrets auth)
       then AUTH_OK else AUTH_UNAUTHORIZED;
     socketRemoteAddress := fun req => Some (er_remote req);
     getHeader := fun req h =>
       if String.eqb h "x-forwarded-for" then er_forwardedFor req else None;
     resolveGatewayClientIp := fun remote forwarded _ trusted =>
       if existsb (String.eqb remote) trusted
       then match forwarded with Some client => Some client | None => Some remote end
       else Some remote;
     isPrivateOrLoopbackAddress := fun ip =>
       String.prefix "10." ip || String.prefix "192.168." ip
       || String.prefix "127." ip |}.

Lemma C2_machine_scope_witness :
  let registry := [mkClient "ws-1" (Some "192.168.1.20");
                   mkClient "ws-2" (Some "203.0.113.9")] in
  let sibling := mkReq "10.0.0.1" None (Some "192.168.1.20") in
  let outsider := mkReq "10.0.0.1" None (Some "203.0.113.9") in
  (fst (authorizeMachineScopedRequest exampleDeps sibling
          (mkAuth true "s3cret") ["10.0.0.1"] registry) = AUTH_OK
   /\ (isLocalDirectRequest exampleDeps sibling ["10.0.0.1"] = true
       \/ exists ip,
            effectiveClientIp exampleDeps sibling ["10.0.0.1"] = Some ip
            /\ isPrivateOrLoopbackAddress exampleDeps ip = true
            /\ exists client, In client registry /\ clientIp client = Some ip))
  /\ existsb consultsRegistry
       (snd (authorizeMachineScopedRequest exampleDeps outsider
               (mkAuth true "s3cret") ["10.0.0.1"] registry)) = false
  /\ ok (fst (authorizeMachineScopedRequest exampleDeps outsider
                (mkAuth true "s3cret") ["10.0.0.1"] registry)) = false.
Proof.
  intros registry sibling outsider. split.
  - split; [reflexivity|].
    exact (proj1 (C2_machine_scope_ok_only_local_or_sibling exampleDeps sibling
                    (mkAuth true "s3cret") ["10.0.0.1"] registry)
             eq_refl eq_refl).
  - destruct (proj2 (C2_machine_scope_ok_only_local_or_sibling exampleDeps outsider
                       (mkAuth true "s3cret") ["10.0.0.1"] registry)
                "203.0.113.9" eq_refl eq_refl) as [Hquiet Hrejected].
    split; [exact Hquiet | exact (Hrejected eq_refl eq_refl)].
Defined.

End MachineScopedAuth.

(* ================================================================== *)
(** * Serving the bundled noVNC assets ([handleRequest], assets branch) *)
(* ================================================================== *)

Module NoVncAssets.

(** ** [node:path], POSIX flavour *)

(** [s.split("/")] *)
Fixpoint splitSlash (s : string) : list string :=
  match s with
  | EmptyString => [EmptyString]
  | String c rest =>
      if Ascii.eqb c "/"
      then EmptyString :: splitSlash rest
      else
        match splitSlash rest with
        | seg :: segs => String c seg :: segs
        | [] => [String c EmptyString]
        end
  end.

(** [segs.join("/")] *)
Fixpoint joinSlash (segs : list string) : string :=
  match segs with
  | [] => EmptyString
  | [seg] => seg
  | seg :: rest => String.append seg (String "/" (joinSlash rest))
  end.

(** [normalizeString(path, allowAboveRoot, "/", isPosixPathSeparator)],
    segment by segment; [acc] holds the segments kept so far, the last one
    first.  Empty segments and [.] are dropped; [..] removes the segment
    before it, or is kept when there is none to remove and the path is
    relative. *)
Fixpoint normalizeSegments (allowAboveRoot : bool) (segs acc : list string)
  : list string :=
  match segs with
  | [] => rev acc
  | seg :: rest =>
      if String.eqb seg "" || String.eqb seg "."
      then normalizeSegments allowAboveRoot rest acc
      else if String.eqb seg ".."
      then
        match acc with
        | top :: below =>
            if String.eqb top ".."
            then normalizeSegments allowAboveRoot rest
                   (if allowAboveRoot then ".." :: acc else acc)
            else normalizeSegments allowAboveRoot rest below
        | [] =>
            normalizeSegments allowAboveRoot rest
              (if allowAboveRoot then [".."] else [])
        end
      else normalizeSegments allowAboveRoot rest (seg :: acc)
  end.

Definition startsWithSlash (s : string) : bool :=
  match s with
  | String "/" _ => true
  | _ => false
  end.

Fixpoint endsWithSlash (s : string) : bool :=
  match s with
  | EmptyString => false
  | String c EmptyString => Ascii.eqb c "/"
  | String _ rest => endsWithSlash rest
  end.

(** [path.posix.normalize(p)] *)
Definition normalize (p : string) : string :=
  match p with
  | EmptyString => "."
  | _ =>
      let isAbsolute := startsWithSlash p in
      let trailingSeparator := endsWithSlash p in
      let body :=
        joinSlash (normalizeSegments (negb isAbsolute) (splitSlash p) []) in
      match body with
      | EmptyString =>
          if isAbsolute then "/" else if trailingSeparator then "./" else "."
      | _ =>
          let body := if trailingSeparator then String.append body "/" else body in
          if isAbsolute then String "/" body else body
      end
  end.

(** [path.join(a, b)] on a POSIX host. *)
Definition join (a b : string) : string :=
  match a, b with
  | EmptyString, EmptyString => "."
  | EmptyString, _ => normalize b
  | _, EmptyString => normalize a
  | _, _ => normalize (String.append a (String "/" b))
  end.

(** ** [new URL(input, "http://localhost").pathname]

    The parser of the URL Standard, for an input that (after the parser
    has removed leading and trailing C0 controls and spaces, and every tab
    and newline) starts with exactly one slash or backslash, as the target
    of an HTTP request in origin form does: the states "relative slash" and
    "path" of a special URL.  A string holds the code points of the input,
    all below 256. *)

Definition isC0ControlOrSpace (c : ascii) : bool := (nat_of_ascii c <=? 32)%nat.

Definition isTabOrNewline (c : ascii) : bool :=
  let n := nat_of_ascii c in
  (n =? 9)%nat || (n =? 10)%nat || (n =? 13)%nat.

Fixpoint stripLeadingC0 (s : string) : string :=
  match s with
  | EmptyString => EmptyString
  | String c rest => if isC0ControlOrSpace c then stripLeadingC0 rest else s
  end.

Fixpoint stripTrailingC0 (s : string) : string :=
  match s with
  | EmptyString => EmptyString
  | String c rest =>
      match stripTrailingC0 rest with
      | EmptyString =>
          if isC0ControlOrSpace c then EmptyString else String c EmptyString
      | kept => String c kept
      end
  end.

Fixpoint removeTabsAndNewlines (s : string) : string :=
  match s with
  | EmptyString => EmptyString
  | String c rest =>
      if isTabOrNewline c then removeTabsAndNewlines rest
      else String c (removeTabsAndNewlines rest)
  end.

(** The path percent-encode set, on code points below 256: C0 controls,
    everything above [~], space, the double quote and the characters
    [#], [<], [>], [?], [^], [`], [{], [}]. *)
Definition inPathPercentEncodeSet (n : nat) : bool :=
  ((n <=? 31) || (126 <? n) || (n =? 32) || (n =? 34) || (n =? 35)
   || (n =? 60) || (n =? 62) || (n =? 63) || (n =? 94) || (n =? 96)
   || (n =? 123) || (n =? 125))%nat.

Definition hexDigit (n : nat) : ascii :=
  if (n <? 10)%nat then ascii_of_nat (48 + n) else ascii_of_nat (55 + n).

Definition percentEncodeByte (b : nat) : string :=
  String "%" (String (hexDigit (b / 16)) (String (hexDigit (b mod 16)) EmptyString)).

(** UTF-8 percent-encode a code point using the path percent-encode set. *)
Definition percentEncodeInPath (c : ascii) : string :=
  let n := nat_of_ascii c in
  if inPathPercentEncodeSet n
  then
    if (n <? 128)%nat then percentEncodeByte n
    else String.append (percentEncodeByte (192 + n / 64))
                       (percentEncodeByte (128 + n mod 64))
  else String c EmptyString.

Definition asciiLower (c : ascii) : ascii :=
  let n := nat_of_ascii c in
  if ((65 <=? n) && (n <=? 90))%nat then ascii_of_nat (n + 32) else c.

Fixpoint toAsciiLowerCase (s : string) : string :=
  match s with
  | EmptyString => EmptyString
  | String c rest => String (asciiLower c) (toAsciiLowerCase rest)
  end.

(** A single-dot path segment is [.] or [%2e]; a double-dot path segment is
    [..], [.%2e], [%2e.] or [%2e%2e]; letters in either case. *)
Definition isSingleDotSegment (seg : string) : bool :=
  let s := toAsciiLowerCase seg in
  String.eqb s "." || String.eqb s "%2e".

Definition isDoubleDotSegment (seg : string) : bool :=
  let s := toAsciiLowerCase seg in
  String.eqb s ".." || String.eqb s ".%2e" || String.eqb s "%2e."
  || String.eqb s "%2e%2e".

Definition BACKSLASH : ascii := ascii_of_nat 92.

Definition isSlashOrBackslash (c : ascii) : bool :=
  Ascii.eqb c "/" || Ascii.eqb c BACKSLASH.

(** The first step of the path state, taken at the end of a segment:
    [atSeparator] tells that the segment was ended by a slash or backslash
    rather than by [?], [#] or the end of the input. *)
Definition endOfSegment (buffer : string) (atSeparator : bool)
  (path : list string) : list string :=
  if isDoubleDotSegment buffer
  then
    let shortened := removelast path in
    if atSeparator then shortened else shortened ++ [EmptyString]
  else if isSingleDotSegment buffer
  then if atSeparator then path else path ++ [EmptyString]
  else path ++ [buffer].

(** The path state, code point by code point, up to the query or the
    fragment. *)
Fixpoint pathState (input buffer : string) (path : list string) : list string :=
  match input with
  | EmptyString => endOfSegment buffer false path
  | String c rest =>
      if Ascii.eqb c "?" || Ascii.eqb c "#"
      then endOfSegment buffer false path
      else if isSlashOrBackslash c
      then pathState rest EmptyString (endOfSegment buffer true path)
      else pathState rest (String.append buffer (percentEncodeInPath c)) path
  end.

(** The URL path serializer. *)
Fixpoint serializePath (path : list string) : string :=
  match path with
  | [] => EmptyString
  | seg :: rest => String "/" (String.append seg (serializePath rest))
  end.

(** The input once the parser has trimmed it. *)
Definition preprocess (input : string) : string :=
  removeTabsAndNewlines (stripTrailingC0 (stripLeadingC0 input)).

(** The part of an origin-form input after its first slash. *)
Definition afterLeadingSlash (input : string) : option string :=
  match preprocess input with
  | String c rest =>
      if isSlashOrBackslash c
      then
        match rest with
        | String c' _ => if isSlashOrBackslash c' then None else Some rest
        | EmptyString => Some rest
        end
      else None
  | EmptyString => None
  end.

(** A call into a library returns, or throws. *)
Inductive Attempt (A : Type) : Type :=
| Done (value : A)
| Thrown.

Arguments Done {A}.
Arguments Thrown {A}.

(** [new URL(req.url ?? "/", "http://localhost").pathname]; [otherTargets]
    stands for the parser on inputs that are not in origin form (an
    absolute URL, a scheme-relative one, [*]), where it may also throw. *)
Definition requestPathOf (otherTargets : string -> Attempt string)
  (url : option string) : Attempt string :=
  let input := match url with Some u => u | None => "/" end in
  match afterLeadingSlash input with
  | Some rest => Done (serializePath (pathState rest EmptyString []))
  | None => otherTargets input
  end.

(** ** The file system, as far as the handler asks

    Each call is answered on its own: [existsSync] never throws,
    [statSync(p).isFile()] and [readFileSync(p)] may. *)

Record FileSystem : Type := mkFileSystem {
  existsSync : string -> bool;
  statSyncIsFile : string -> Attempt bool;
  readFileSync : string -> Attempt string
}.

Inductive FsCall : Type :=
| ExistsSync (p : string)
| StatSync (p : string)
| ReadFileSync (p : string).

Inductive Body : Type :=
| TextBody (text : string)
| FileBody (bytes : string).

Record Response : Type := mkResponse {
  statusCode : Z;
  headers : list (string * string);
  body : Body
}.

(** [res.setHeader(name, value)]: a header already set keeps its place. *)
Fixpoint setHeader (name value : string) (hs : list (string * string))
  : list (string * string) :=
  match hs with
  | [] => [(name, value)]
  | (n, v) :: rest =>
      if String.eqb n name then (name, value) :: rest
      else (n, v) :: setHeader name value rest
  end.

(** ** The handler *)

Definition NUL : ascii := Ascii.ascii_of_nat 0.

(** [s.includes("\0")] *)
Fixpoint includesNul (s : string) : bool :=
  match s with
  | EmptyString => false
  | String c rest => Ascii.eqb c NUL || includesNul rest
  end.

(** [isSafeNoVncAssetPath(rel)] *)
Definition isSafeNoVncAssetPath (rel : string) : bool :=
  if String.eqb rel "" || includesNul rel
  then false
  else
    let normalized := normalize rel in
    negb (String.prefix "../" normalized || String.eqb normalized "..").

(** [resolveVncRoutePath(controlUiBasePath, suffix)] *)
Definition resolveVncRoutePath (controlUiBasePath suffix : string) : string :=
  let base :=
    match controlUiBasePath with
    | EmptyString => "/vnc"
    | _ => String.append controlUiBasePath "/vnc"
    end in
  String.append base suffix.

(** The condition under which [handleRequest] enters the viewer branch. *)
Definition isVncRoute (vncEnabled : bool) (controlUiBasePath requestPath : string)
  : bool :=
  let vncViewerPath := resolveVncRoutePath controlUiBasePath "" in
  let vncApiPrefix := resolveVncRoutePath controlUiBasePath "/api/" in
  let vncAssetsPrefix := resolveVncRoutePath controlUiBasePath "/novnc/" in
  vncEnabled
  && (String.eqb requestPath vncViewerPath
      || String.eqb requestPath (String.append vncViewerPath "/")
      || String.prefix vncApiPrefix requestPath
      || String.prefix vncAssetsPrefix requestPath).

Definition NOT_FOUND : Response :=
  mkResponse 404 (setHeader "Content-Type" "text/plain; charset=utf-8" [])
    (TextBody "Not Found").

(** The [catch] at the end of [handleRequest], entered with the headers
    that were set before the exception. *)
Definition INTERNAL_SERVER_ERROR (headersSoFar : list (string * string))
  : Response :=
  mkResponse 500
    (setHeader "Content-Type" "text/plain; charset=utf-8" headersSoFar)
    (TextBody "Internal Server Error").

Section Assets.

(** [contentTypeForPath], the table from file extension to media type. *)
Context (contentTypeForPath : string -> string).
Context (fs : FileSystem).

(** The tail of the viewer branch of [handleRequest]: the request path
    starts with the assets prefix, authorization has passed, and it is
    neither the viewer page nor an API call.  Returns the response, which is
    that of the [catch] when a call into the file system throws, and the
    file-system calls made, oldest first. *)
Definition serveNoVncAsset (noVncRoot : option string)
  (vncAssetsPrefix requestPath : string) : Response * list FsCall :=
  match noVncRoot with
  | None =>
      (mkResponse 503 (setHeader "Content-Type" "text/plain; charset=utf-8" [])
         (TextBody "noVNC assets missing. Install dependencies with `pnpm install`."),
       [])
  | Some root =>
      let rel :=
        String.substring (String.length vncAssetsPrefix)
          (String.length requestPath - String.length vncAssetsPrefix)
          requestPath in
      if negb (isSafeNoVncAssetPath rel) then (NOT_FOUND, [])
      else
        let filePath := join root rel in
        if negb (String.prefix root filePath) then (NOT_FOUND, [])
        else if negb (existsSync fs filePath)
        then (NOT_FOUND, [ExistsSync filePath])
        else
          match statSyncIsFile fs filePath with
          | Thrown =>
              (INTERNAL_SERVER_ERROR [], [ExistsSync filePath; StatSync filePath])
          | Done false => (NOT_FOUND, [ExistsSync filePath; StatSync filePath])
          | Done true =>
              let hs :=
                setHeader "Cache-Control" "public, max-age=300"
                  (setHeader "Content-Type" (contentTypeForPath filePath) []) in
              match readFileSync fs filePath with
              | Thrown =>
                  (INTERNAL_SERVER_ERROR hs,
                   [ExistsSync filePath; StatSync filePath; ReadFileSync filePath])
              | Done bytes =>
                  (mkResponse 200 hs (FileBody bytes),
                   [ExistsSync filePath; StatSync filePath; ReadFileSync filePath])
              end
          end
  end.




Definition pathOfCall (call : FsCall) : string :=
  match call with
  | ExistsSync p | StatSync p | ReadFileSync p => p
  end.

End Assets.

(** ** Properties *)



(** *** Strings that hold a given piece *)









Section AssetFacts.

Context (contentTypeForPath : string -> string).
Context (fs : FileSystem).
Context (otherTargets : string -> Attempt string).


(** Every call into the file system is made on the joined path, after
    both checks have passed. *)
Lemma serve_calls_checked (noVncRoot : option string)
  (vncAssetsPrefix requestPath : string) (call : FsCall) :
  In call (snd (serveNoVncAsset contentTypeForPath fs noVncRoot vncAssetsPrefix
                  requestPath)) ->
  exists root,
    noVncRoot = Some root
    /\ let rel :=
         String.substring (String.length vncAssetsPrefix)
           (String.length requestPath - String.length vncAssetsPrefix)
           requestPath in
       pathOfCall call = join root rel
       /\ isSafeNoVncAssetPath rel = true
       /\ String.prefix root (join root rel) = true.
Proof.
  unfold serveNoVncAsset. destruct noVncRoot as [root|]; [|intros []].
  cbv zeta.
  destruct (isSafeNoVncAssetPath _) eqn:Hsafe; cbn [negb]; [|intros []].
  destruct (String.prefix root _) eqn:Hprefix; cbn [negb]; [|intros []].
  intros Hin. exists root. split; [reflexivity|].
  split; [|split; [reflexivity | exact Hprefix]].
  revert Hin.
  destruct (negb (existsSync fs _));
    [|destruct (statSyncIsFile fs _) as [[|]|];
      [destruct (readFileSync fs _)| |]];
    simpl; intros H;
    repeat (destruct H as [H | H]; [now subst call|]); contradiction.
Qed.


End AssetFacts.


End NoVncAssets.

(* ================================================================== *)
(** * The framebuffer proxy ([attachVncProxy]) *)
(* ================================================================== *)

Module VncProxy.

(** ** Bytes and payloads *)

Definition Bytes : Type := list N.

(** A JavaScript string: its UTF-16 code units. *)
Definition JsString : Type := list N.

(** The [data] argument of the WebSocket [message] callback: a [Buffer],
    an [ArrayBuffer], a [Buffer[]], or (last branch of the conditional)
    anything else, turned into a string by [String(data)]. *)
Inductive RawData : Type :=
| IsBuffer (bytes : Bytes)
| IsArrayBuffer (bytes : Bytes)
| IsBufferArray (chunks : list Bytes)
| IsString (text : JsString).

Definition isHighSurrogate (u : N) : bool := ((55296 <=? u) && (u <=? 56319))%N.
Definition isLowSurrogate (u : N) : bool := ((56320 <=? u) && (u <=? 57343))%N.

(** Code points of a string; a surrogate without its partner reads as
    U+FFFD, as [Buffer.from(string)] does. *)
Fixpoint codePoints (units : JsString) : list N :=
  match units with
  | [] => []
  | u :: rest =>
      if isHighSurrogate u
      then
        match rest with
        | l :: rest' =>
            if isLowSurrogate l
            then (65536 + (u - 55296) * 1024 + (l - 56320))%N :: codePoints rest'
            else 65533%N :: codePoints rest
        | [] => [65533%N]
        end
      else if isLowSurrogate u then 65533%N :: codePoints rest
      else u :: codePoints rest
  end.

(** UTF-8 of one code point. *)
Definition utf8OfCodePoint (cp : N) : Bytes :=
  (if cp <? 128 then [cp]
   else if cp <? 2048
   then [N.lor 192 (N.shiftr cp 6); N.lor 128 (N.land cp 63)]
   else if cp <? 65536
   then [N.lor 224 (N.shiftr cp 12);
         N.lor 128 (N.land (N.shiftr cp 6) 63);
         N.lor 128 (N.land cp 63)]
   else [N.lor 240 (N.shiftr cp 18);
         N.lor 128 (N.land (N.shiftr cp 12) 63);
         N.lor 128 (N.land (N.shiftr cp 6) 63);
         N.lor 128 (N.land cp 63)])%N.

(** [Buffer.from(text)], UTF-8 being the default encoding. *)
Definition bufferFromString (text : JsString) : Bytes :=
  flat_map utf8OfCodePoint (codePoints text).

(** The conditional that builds [buffer] in the [message] callback. *)
Definition coalesce (data : RawData) : Bytes :=
  match data with
  | IsBuffer bytes => bytes
  | IsArrayBuffer bytes => bytes
  | IsBufferArray chunks => concat chunks
  | IsString text => bufferFromString text
  end.

(** ** The session *)

(** The two closure variables, and the two object properties the callbacks
    read: [upstream.destroyed] of the TCP socket and [ws.readyState]
    (0 connecting, 1 open, 2 closing, 3 closed). *)
Record Session : Type := mkSession {
  upstream : bool;
  wsOpen : bool;
  socketDestroyed : bool;
  readyState : nat
}.

(** Right after [attachVncProxy] returns. *)
Definition initial : Session := mkSession true true false 1.

(** Calls made on the two peers. *)
Inductive Effect : Type :=
| UpstreamWrite (bytes : Bytes)
| UpstreamDestroy
| WsSend (bytes : Bytes) (binary : bool)
| WsClose.

(** What can happen to a session: one of the six callbacks runs (a forward
    may throw), or one of the two objects changes state on its own: Node
    destroys the socket, the WebSocket moves on towards closed. *)
Inductive Event : Type :=
| OnUpstreamData (chunk : Bytes) (sendThrows : bool)
| OnUpstreamClose
| OnUpstreamError
| OnWsMessage (data : RawData) (writeThrows : bool)
| OnWsClose
| OnWsError
| SocketGotDestroyed
| WsAdvanced (state : nat).

(** [cleanup()].  It assigns the two closure variables; what
    [upstream.destroy()] and [ws.close()] do to the socket and to the
    WebSocket shows in later [SocketGotDestroyed] and [WsAdvanced] events.
    An exception of [ws.close()] is swallowed. *)
Definition cleanup (s : Session) : Session * list Effect :=
  let '(s1, e1) :=
    if upstream s && negb (socketDestroyed s)
    then (mkSession false (wsOpen s) (socketDestroyed s) (readyState s),
          [UpstreamDestroy])
    else (s, []) in
  let '(s2, e2) :=
    if wsOpen s1 && (readyState s1 <? 2)%nat
    then (mkSession (upstream s1) false (socketDestroyed s1) (readyState s1),
          [WsClose])
    else (s1, []) in
  (s2, e1 ++ e2).

Definition step (s : Session) (ev : Event) : Session * list Effect :=
  match ev with
  | OnUpstreamData chunk sendThrows =>
      if wsOpen s && (readyState s =? 1)%nat
      then
        if sendThrows
        then let '(s', e) := cleanup s in (s', WsSend chunk true :: e)
        else (s, [WsSend chunk true])
      else (s, [])
  | OnUpstreamClose => cleanup s
  | OnUpstreamError => cleanup s
  | OnWsMessage data writeThrows =>
      if upstream s && negb (socketDestroyed s)
      then
        if writeThrows
        then let '(s', e) := cleanup s in (s', UpstreamWrite (coalesce data) :: e)
        else (s, [UpstreamWrite (coalesce data)])
      else (s, [])
  | OnWsClose =>
      cleanup (mkSession (upstream s) false (socketDestroyed s) (readyState s))
  | OnWsError => cleanup s
  | SocketGotDestroyed =>
      (mkSession (upstream s) (wsOpen s) true (readyState s), [])
  | WsAdvanced state =>
      (mkSession (upstream s) (wsOpen s) (socketDestroyed s)
         (Nat.max (readyState s) (Nat.min state 3)), [])
  end.

Fixpoint run (s : Session) (evs : list Event) : Session * list Effect :=
  match evs with
  | [] => (s, [])
  | ev :: rest =>
      let '(s1, e1) := step s ev in
      let '(s2, e2) := run s1 rest in
      (s2, e1 ++ e2)
  end.

(** ** Reading a trace *)

Definition isTeardownEvent (ev : Event) : bool :=
  match ev with
  | OnUpstreamClose | OnUpstreamError | OnWsClose | OnWsError => true
  | _ => false
  end.

Definition isDestroy (e : Effect) : bool :=
  match e with UpstreamDestroy => true | _ => false end.

Definition isClose (e : Effect) : bool :=
  match e with WsClose => true | _ => false end.

Definition isForward (e : Effect) : bool :=
  match e with UpstreamWrite _ | WsSend _ _ => true | _ => false end.

Definition count (p : Effect -> bool) (es : list Effect) : nat :=
  length (filter p es).

(** Nothing can be forwarded any more: the socket is gone or destroyed,
    and the WebSocket is known closed or is past open. *)
Definition tornDown (s : Session) : Prop :=
  (upstream s = false \/ socketDestroyed s = true)
  /\ (wsOpen s = false \/ (2 <= readyState s)%nat).

(** Bytes written upstream, and bytes sent to the client, in order. *)
Definition writtenUpstream (es : list Effect) : Bytes :=
  flat_map (fun e => match e with UpstreamWrite b => b | _ => [] end) es.

Definition sentToClient (es : list Effect) : Bytes :=
  flat_map (fun e => match e with WsSend b _ => b | _ => [] end) es.

Definition allBinary (es : list Effect) : bool :=
  forallb (fun e => match e with WsSend _ binary => binary | _ => true end) es.

(** A forward that does not throw. *)
Definition isQuietForward (ev : Event) : bool :=
  match ev with
  | OnUpstreamData _ false | OnWsMessage _ false => true
  | _ => false
  end.

Definition clientBytes (evs : list Event) : Bytes :=
  flat_map (fun ev => match ev with OnWsMessage d _ => coalesce d | _ => [] end) evs.

Definition serverBytes (evs : list Event) : Bytes :=
  flat_map (fun ev => match ev with OnUpstreamData c _ => c | _ => [] end) evs.

(** ** Teardown *)

Ltac crush_session s :=
  destruct s as [u w d r];
  unfold step, cleanup, tornDown, count;
  cbn [upstream wsOpen socketDestroyed readyState];
  destruct u, w, d;
  cbn [andb negb upstream wsOpen socketDestroyed readyState];
  try destruct (Nat.ltb_spec r 2);
  try destruct (Nat.eqb_spec r 1);
  cbn [andb negb upstream wsOpen socketDestroyed readyState fst snd app filter
       isDestroy isClose isForward length].

Lemma cleanup_tornDown (s : Session) : tornDown (fst (cleanup s)).
Proof. crush_session s; split; auto; right; lia. Qed.

Lemma cleanup_no_forward (s : Session) : filter isForward (snd (cleanup s)) = [].
Proof. crush_session s; reflexivity. Qed.

Ltac settle_membership :=
  simpl; split;
  [ let H := fresh "H" in
    intros H;
    repeat (destruct H as [H | H]; [try discriminate H|]);
    try contradiction; try discriminate H; auto
  | let H1 := fresh "H" in
    let H2 := fresh "H" in
    intros [H1 H2]; try discriminate H1; try discriminate H2; try lia; auto ].

Lemma cleanup_destroys_iff (s : Session) :
  In UpstreamDestroy (snd (cleanup s))
  <-> upstream s = true /\ socketDestroyed s = false.
Proof. crush_session s; settle_membership. Qed.

Lemma cleanup_closes_iff (s : Session) :
  In WsClose (snd (cleanup s))
  <-> wsOpen s = true /\ (readyState s < 2)%nat.
Proof. crush_session s; settle_membership. Qed.

Lemma cleanup_idempotent (s : Session) :
  cleanup (fst (cleanup s)) = (fst (cleanup s), []).
Proof.
  destruct s as [u w d r]. unfold cleanup.
  cbn [upstream wsOpen socketDestroyed readyState].
  destruct u, w, d; cbn [andb negb upstream wsOpen socketDestroyed readyState];
    destruct (Nat.ltb_spec r 2) as [Hr | Hr];
    cbn [andb negb upstream wsOpen socketDestroyed readyState fst snd app];
    try reflexivity;
    try (destruct (Nat.ltb_spec r 2); [lia | reflexivity]).
Qed.

Lemma step_destroy_budget (s : Session) (ev : Event) :
  (count isDestroy (snd (step s ev))
   + (if upstream (fst (step s ev)) then 1 else 0)
   <= (if upstream s then 1 else 0))%nat.
Proof.
  destruct ev as [chunk [|]| | |data [|]| | | |state];
    crush_session s; lia.
Qed.

Lemma step_close_budget (s : Session) (ev : Event) :
  (count isClose (snd (step s ev))
   + (if wsOpen (fst (step s ev)) then 1 else 0)
   <= (if wsOpen s then 1 else 0))%nat.
Proof.
  destruct ev as [chunk [|]| | |data [|]| | | |state];
    crush_session s; lia.
Qed.

Lemma count_app (p : Effect -> bool) (a b : list Effect) :
  count p (a ++ b) = (count p a + count p b)%nat.
Proof. unfold count. now rewrite filter_app, length_app. Qed.

Lemma session_run_cons (s : Session) (ev : Event) (evs : list Event) :
  run s (ev :: evs)
  = (fst (run (fst (step s ev)) evs),
     snd (step s ev) ++ snd (run (fst (step s ev)) evs)).
Proof.
  simpl. destruct (step s ev) as [s1 e1]. simpl.
  now destruct (run s1 evs) as [s2 e2].
Qed.

Lemma session_run_app (s : Session) (a b : list Event) :
  run s (a ++ b)
  = (fst (run (fst (run s a)) b),
     snd (run s a) ++ snd (run (fst (run s a)) b)).
Proof.
  revert s. induction a as [|ev a IH]; intros s.
  - simpl. now destruct (run s b).
  - rewrite <- app_comm_cons, !session_run_cons, IH. cbn [fst snd].
    now rewrite app_assoc.
Qed.

Lemma run_destroy_budget (evs : list Event) (s : Session) :
  (count isDestroy (snd (run s evs)) <= (if upstream s then 1 else 0))%nat.
Proof.
  revert s. induction evs as [|ev evs IH]; intros s.
  - simpl. destruct (upstream s); unfold count; simpl; lia.
  - rewrite session_run_cons. cbn [snd]. rewrite count_app.
    pose proof (step_destroy_budget s ev). pose proof (IH (fst (step s ev))). lia.
Qed.

Lemma run_close_budget (evs : list Event) (s : Session) :
  (count isClose (snd (run s evs)) <= (if wsOpen s then 1 else 0))%nat.
Proof.
  revert s. induction evs as [|ev evs IH]; intros s.
  - simpl. destruct (wsOpen s); unfold count; simpl; lia.
  - rewrite session_run_cons. cbn [snd]. rewrite count_app.
    pose proof (step_close_budget s ev). pose proof (IH (fst (step s ev))). lia.
Qed.

Lemma teardown_event_tornDown (s : Session) (ev : Event) :
  isTeardownEvent ev = true -> tornDown (fst (step s ev)).
Proof.
  destruct ev; try discriminate; intros _; cbn [step]; apply cleanup_tornDown.
Qed.

Lemma tornDown_step (s : Session) (ev : Event) :
  tornDown s ->
  tornDown (fst (step s ev)) /\ filter isForward (snd (step s ev)) = [].
Proof.
  intros [Hup Hws].
  destruct ev as [chunk [|]| | |data [|]| | | |state];
    crush_session s;
    cbn [upstream wsOpen socketDestroyed readyState] in Hup, Hws;
    try (destruct Hup as [Hup | Hup]; discriminate Hup);
    try (destruct Hws as [Hws | Hws]; [discriminate Hws | lia]);
    (split; [split; auto; right; lia | reflexivity]).
Qed.

Lemma tornDown_run (evs : list Event) (s : Session) :
  tornDown s ->
  tornDown (fst (run s evs)) /\ filter isForward (snd (run s evs)) = [].
Proof.
  revert s. induction evs as [|ev evs IH]; intros s Hs.
  - simpl. auto.
  - rewrite session_run_cons. cbn [fst snd].
    destruct (tornDown_step s ev Hs) as [Hs1 Hnone].
    destruct (IH _ Hs1) as [Hs2 Hnone2].
    split; [exact Hs2|]. now rewrite filter_app, Hnone, Hnone2.
Qed.

(** C7.  A close or error event on either side runs the teardown: the
    session ends up torn down, the upstream socket is destroyed by it
    exactly when the session still held it undestroyed, and the WebSocket is
    closed by it exactly when it was still open (a close event of the
    WebSocket itself needs no close call).  Teardown is idempotent.  Over
    any sequence of events, from any state, at most one destroy reaches the
    socket and at most one close reaches the WebSocket.  And once a close or
    error event has been handled, nothing is written upstream or sent to the
    client any more. *)
Theorem C7_symmetric_idempotent_teardown :
  (forall s ev,
      isTeardownEvent ev = true ->
      tornDown (fst (step s ev))
      /\ (In UpstreamDestroy (snd (step s ev))
          <-> upstream s = true /\ socketDestroyed s = false)
      /\ (In WsClose (snd (step s ev))
          <-> ev <> OnWsClose /\ wsOpen s = true /\ (readyState s < 2)%nat))
  /\ (forall s, cleanup (fst (cleanup s)) = (fst (cleanup s), []))
  /\ (forall s evs,
        (count isDestroy (snd (run s evs)) <= 1)%nat
        /\ (count isClose (snd (run s evs)) <= 1)%nat)
  /\ (forall s before ev after,
        isTeardownEvent ev = true ->
        filter isForward
          (snd (run (fst (run s (before ++ [ev]))) after)) = []).
Proof.
  split; [|split; [|split]].
  - intros s ev Hev. split; [now apply teardown_event_tornDown|].
    destruct ev; try discriminate Hev; clear Hev; cbn [step].
    + rewrite cleanup_destroys_iff, cleanup_closes_iff.
      split; [tauto|]. split; [intros H; split; [discriminate | exact H] | tauto].
    + rewrite cleanup_destroys_iff, cleanup_closes_iff.
      split; [tauto|]. split; [intros H; split; [discriminate | exact H] | tauto].
    + rewrite cleanup_destroys_iff, cleanup_closes_iff.
      cbn [upstream wsOpen socketDestroyed readyState].
      split; [tauto|]. split; [intros [H _]; discriminate H | intros [H _]; congruence].
    + rewrite cleanup_destroys_iff, cleanup_closes_iff.
      split; [tauto|]. split; [intros H; split; [discriminate | exact H] | tauto].
  - exact cleanup_idempotent.
  - intros s evs. split.
    + pose proof (run_destroy_budget evs s). destruct (upstream s); lia.
    + pose proof (run_close_budget evs s). destruct (wsOpen s); lia.
  - intros s before ev after Hev.
    apply tornDown_run. rewrite session_run_app. cbn [fst].
    rewrite session_run_cons. cbn [run fst]. now apply teardown_event_tornDown.
Qed.

Lemma C7_teardown_witness :
  tornDown (fst (step initial OnUpstreamError))
  /\ (In UpstreamDestroy (snd (step initial OnWsError))
      <-> upstream initial = true /\ socketDestroyed initial = false)
  /\ filter isForward
       (snd (run (fst (run initial ([OnWsMessage (IsBuffer [1%N]) false]
                                    ++ [OnUpstreamClose])))
               [OnWsMessage (IsBuffer [2%N]) false;
                OnUpstreamData [3%N] false; OnWsError]))
     = [].
Proof.
  destruct C7_symmetric_idempotent_teardown as (Hstep & _ & _ & Hafter).
  split; [exact (proj1 (Hstep initial OnUpstreamError eq_refl))|].
  split; [exact (proj1 (proj2 (Hstep initial OnWsError eq_refl)))|].
  exact (Hafter initial [OnWsMessage (IsBuffer [1%N]) false] OnUpstreamClose
           [OnWsMessage (IsBuffer [2%N]) false; OnUpstreamData [3%N] false;
            OnWsError] eq_refl).
Defined.

(** ** Forwarding *)

Lemma bufferFromString_ascii (text : JsString) :
  Forall (fun u => (u < 128)%N) text -> bufferFromString text = text.
Proof.
  unfold bufferFromString. induction 1 as [|u rest Hu Hrest IH]; [reflexivity|].
  cbn [codePoints]. unfold isHighSurrogate, isLowSurrogate.
  destruct (N.leb_spec 55296 u) as [Hbig | _]; [lia|].
  destruct (N.leb_spec 56320 u) as [Hbig | _]; [lia|].
  cbn [andb flat_map]. rewrite IH. unfold utf8OfCodePoint.
  destruct (N.ltb_spec u 128) as [_ | Hbig]; [reflexivity | lia].
Qed.

Lemma quiet_forwards_run (evs : list Event) (s : Session) :
  upstream s = true -> socketDestroyed s = false ->
  wsOpen s = true -> readyState s = 1%nat ->
  forallb isQuietForward evs = true ->
  fst (run s evs) = s
  /\ writtenUpstream (snd (run s evs)) = clientBytes evs
  /\ sentToClient (snd (run s evs)) = serverBytes evs
  /\ allBinary (snd (run s evs)) = true.
Proof.
  intros Hup Hd Hws Hrs. induction evs as [|ev evs IH]; intros Hall.
  - simpl. auto.
  - cbn [forallb] in Hall. apply andb_true_iff in Hall. destruct Hall as [Hev Hrest].
    destruct (IH Hrest) as (Hs & Hw & Hc & Hb). rewrite session_run_cons.
    destruct ev as [chunk [|]| | |data [|]| | | |state]; try discriminate Hev;
      cbn [step]; rewrite ?Hup, ?Hd, ?Hws, ?Hrs;
      cbn [andb negb Nat.eqb fst snd app]; rewrite Hs;
      unfold writtenUpstream, sentToClient, allBinary, clientBytes, serverBytes in *;
      cbn [flat_map forallb app andb]; rewrite Hw, Hc, Hb; auto.
Qed.

(** C8.  While the upstream socket is alive, a WebSocket message makes the
    proxy write once upstream, and what it writes is the payload as one
    run of bytes: the bytes of a [Buffer] or of an [ArrayBuffer], the
    concatenation of an array of buffers, the UTF-8 encoding of a string
    (for ASCII text, its characters).  While the WebSocket is open, a chunk
    from upstream is sent to the client as one binary frame holding the same
    bytes.  Over a session of such forwards the bytes written upstream are
    the client's bytes in order, and the bytes sent to the client are the
    server's bytes in order.  A client that sends [01 02 03] makes upstream
    receive exactly [01 02 03], and [FF] from upstream reaches the client as
    exactly [FF]. *)
Theorem C8_bytes_forwarded_unmodified :
  (forall s data writeThrows,
      upstream s = true -> socketDestroyed s = false ->
      exists rest,
        snd (step s (OnWsMessage data writeThrows))
        = UpstreamWrite (coalesce data) :: rest
        /\ filter isForward rest = []
        /\ (writeThrows = false ->
            rest = [] /\ fst (step s (OnWsMessage data writeThrows)) = s))
  /\ (forall bytes chunks text,
        coalesce (IsBuffer bytes) = bytes
        /\ coalesce (IsArrayBuffer bytes) = bytes
        /\ coalesce (IsBufferArray chunks) = concat chunks
        /\ coalesce (IsString text) = bufferFromString text
        /\ (Forall (fun u => (u < 128)%N) text -> coalesce (IsString text) = text))
  /\ (forall s chunk,
        wsOpen s = true -> readyState s = 1%nat ->
        step s (OnUpstreamData chunk false) = (s, [WsSend chunk true]))
  /\ (forall evs,
        forallb isQuietForward evs = true ->
        fst (run initial evs) = initial
        /\ writtenUpstream (snd (run initial evs)) = clientBytes evs
        /\ sentToClient (snd (run initial evs)) = serverBytes evs
        /\ allBinary (snd (run initial evs)) = true)
  /\ run initial [OnWsMessage (IsBuffer [1; 2; 3]%N) false;
                  OnUpstreamData [255%N] false]
     = (initial, [UpstreamWrite [1; 2; 3]%N; WsSend [255%N] true]).
Proof.
  split; [|split; [|split; [|split]]].
  - intros s data writeThrows Hup Hd. cbn [step]. rewrite Hup, Hd. cbn [andb negb].
    destruct writeThrows.
    + exists (snd (cleanup s)). destruct (cleanup s) as [s' e] eqn:E. cbn [snd].
      split; [reflexivity|]. split; [|discriminate].
      pose proof (cleanup_no_forward s) as H. now rewrite E in H.
    + exists []. repeat split; reflexivity.
  - intros bytes chunks text. repeat split; try reflexivity.
    apply bufferFromString_ascii.
  - intros s chunk Hws Hrs. cbn [step]. rewrite Hws, Hrs. reflexivity.
  - intros evs Hall. now apply quiet_forwards_run.
  - reflexivity.
Qed.

Lemma C8_forwarding_witness :
  (exists rest,
      snd (step initial (OnWsMessage
                           (IsBufferArray [[1; 2]%N; []; [3]%N]) false))
      = UpstreamWrite [1; 2; 3]%N :: rest
      /\ filter isForward rest = []
      /\ (false = false ->
          rest = []
          /\ fst (step initial (OnWsMessage
                                  (IsBufferArray [[1; 2]%N; []; [3]%N]) false))
             = initial))
  /\ coalesce (IsString [82; 70; 66]%N) = [82; 70; 66]%N
  /\ step initial (OnUpstreamData [255%N] false) = (initial, [WsSend [255%N] true])
  /\ writtenUpstream
       (snd (run initial [OnWsMessage (IsString [82; 70; 66]%N) false;
                          OnUpstreamData [0; 3]%N false;
                          OnWsMessage (IsArrayBuffer [1%N]) false]))
     = [82; 70; 66; 1]%N.
Proof.
  destruct C8_bytes_forwarded_unmodified as (Hmsg & Hco & Hdata & Hrun & _).
  split; [exact (Hmsg initial (IsBufferArray [[1; 2]%N; []; [3]%N]) false
                   eq_refl eq_refl)|].
  split.
  { apply (Hco [] [] [82; 70; 66]%N). repeat constructor. }
  split; [exact (Hdata initial [255%N] eq_refl eq_refl)|].
  exact (proj1 (proj2 (Hrun [OnWsMessage (IsString [82; 70; 66]%N) false;
                             OnUpstreamData [0; 3]%N false;
                             OnWsMessage (IsArrayBuffer [1%N]) false] eq_refl))).
Defined.

End VncProxy.

(* ================================================================== *)
(** * The display supervisor ([VncProcessManager]) *)
(* ================================================================== *)

Module VncProcessManager.

(** The two supervised processes; the keys of [restartTimers]. *)
Inductive Kind : Type := Xvfb | X11vnc.

Definition kindEqb (a b : Kind) : bool :=
  match a, b with
  | Xvfb, Xvfb | X11vnc, X11vnc => true
  | _, _ => false
  end.

(** The callbacks the manager hands to [setTimeout]: the restart of a
    process, 5 s after it was scheduled; the restart of x11vnc that follows
    a restart of Xvfb by 2 s; and the two [resolve] functions of
    [waitForDisplay], behind which a suspended [start()] waits: the 100 ms
    pause of a loop that began at [startMs], and the 200 ms pause before it
    returns. *)
Inductive TimerBody : Type :=
| RestartOf (process : Kind)
| X11vncAfterXvfb
| DisplayPoll (startMs : Z)
| DisplaySettle.

(** The fields of the manager that change, and around them the timers of
    the event loop that were set and have neither fired nor been cleared,
    the counters that name timers and child processes, and the number of
    [start()] calls whose [waitForDisplay()] returned without a pause and
    which resume on the microtask queue. *)
Record Manager : Type := mkManager {
  xvfb : option nat;
  x11vnc : option nat;
  restartTimers : list (Kind * nat);
  stopping : bool;
  pendingTimers : list (nat * TimerBody);
  nextTimer : nat;
  nextChild : nat;
  startsResuming : nat
}.

(** [new VncProcessManager(config)] *)
Definition initial : Manager := mkManager None None [] false [] 0 0 0.

Inductive Effect : Type :=
| Spawn (process : Kind) (child : nat)
| Kill (process : Kind) (child : nat)
| SetTimeout (timer : nat) (body : TimerBody) (delayMs : Z)
| ClearTimeout (timer : nat).

(** What a piece of the manager's code reads from outside while it runs:
    whether the display lock file names a live process ([startXvfb]),
    whether the lock file exists and what [Date.now()] returns
    ([waitForDisplay]). *)
Record Readings : Type := mkReadings {
  lockLive : bool;
  lockExists : bool;
  nowMs : Z
}.

(** The ways into the manager: its two public methods, the [error] and
    [exit] callbacks of a child, and a timer of the event loop firing.
    [start()] runs up to its first pause; [startMs] is the clock read by
    [const startMs = Date.now()], the readings are those of the code after
    it.  [StartResumes] is the continuation of a [start()] that did not
    pause on a timer. *)
Inductive Event : Type :=
| Start (binariesFound : bool) (startMs : Z) (env : Readings)
| StartResumes
| Stop
| ChildError (process : Kind)
| ChildExit (process : Kind)
| TimerFires (timer : nat) (env : Readings).

(** ** [restartTimers], a [Map] keyed by process *)

Fixpoint timerOf (process : Kind) (m : list (Kind * nat)) : option nat :=
  match m with
  | [] => None
  | (k, t) :: rest => if kindEqb k process then Some t else timerOf process rest
  end.

Definition forget (process : Kind) (m : list (Kind * nat)) : list (Kind * nat) :=
  filter (fun e => negb (kindEqb (fst e) process)) m.

(** [clearTimeout(t)]: the timer will not fire. *)
Definition clearTimer (t : nat) (ts : list (nat * TimerBody))
  : list (nat * TimerBody) :=
  filter (fun e => negb (Nat.eqb (fst e) t)) ts.

Fixpoint bodyOf (t : nat) (ts : list (nat * TimerBody)) : option TimerBody :=
  match ts with
  | [] => None
  | (t', body) :: rest => if Nat.eqb t' t then Some body else bodyOf t rest
  end.

(** ** The methods *)

(** [startXvfb()]: nothing to do when a child is held or a live display is
    reused, else spawn. *)
Definition startXvfb (live : bool) (m : Manager) : Manager * list Effect :=
  match xvfb m with
  | Some _ => (m, [])
  | None =>
      if live then (m, [])
      else
        (mkManager (Some (nextChild m)) (x11vnc m) (restartTimers m) (stopping m)
           (pendingTimers m) (nextTimer m) (S (nextChild m)) (startsResuming m),
         [Spawn Xvfb (nextChild m)])
  end.

(** [stopXvfb()] *)
Definition stopXvfb (m : Manager) : Manager * list Effect :=
  match xvfb m with
  | Some child =>
      (mkManager None (x11vnc m) (restartTimers m) (stopping m)
         (pendingTimers m) (nextTimer m) (nextChild m) (startsResuming m),
       [Kill Xvfb child])
  | None => (m, [])
  end.

(** [startX11vnc()] *)
Definition startX11vnc (m : Manager) : Manager * list Effect :=
  match x11vnc m with
  | Some _ => (m, [])
  | None =>
      (mkManager (xvfb m) (Some (nextChild m)) (restartTimers m) (stopping m)
         (pendingTimers m) (nextTimer m) (S (nextChild m)) (startsResuming m),
       [Spawn X11vnc (nextChild m)])
  end.

(** [stopX11vnc()] *)
Definition stopX11vnc (m : Manager) : Manager * list Effect :=
  match x11vnc m with
  | Some child =>
      (mkManager (xvfb m) None (restartTimers m) (stopping m)
         (pendingTimers m) (nextTimer m) (nextChild m) (startsResuming m),
       [Kill X11vnc child])
  | None => (m, [])
  end.

(** [setTimeout(body, delayMs)] *)
Definition setTimer (body : TimerBody) (delayMs : Z) (m : Manager)
  : Manager * list Effect :=
  (mkManager (xvfb m) (x11vnc m) (restartTimers m) (stopping m)
     (pendingTimers m ++ [(nextTimer m, body)]) (S (nextTimer m))
     (nextChild m) (startsResuming m),
   [SetTimeout (nextTimer m) body delayMs]).

(** [scheduleRestart(process)] *)
Definition scheduleRestart (process : Kind) (m : Manager)
  : Manager * list Effect :=
  if stopping m then (m, [])
  else
    match timerOf process (restartTimers m) with
    | Some _ => (m, [])
    | None =>
        let '(m1, e1) := setTimer (RestartOf process) 5000 m in
        (mkManager (xvfb m1) (x11vnc m1)
           (restartTimers m1 ++ [(process, nextTimer m)]) (stopping m1)
           (pendingTimers m1) (nextTimer m1) (nextChild m1) (startsResuming m1),
         e1)
    end.

(** The loop [for (const timer of this.restartTimers.values())
    clearTimeout(timer)]. *)
Fixpoint clearAll (entries : list (Kind * nat)) (ts : list (nat * TimerBody))
  : list (nat * TimerBody) * list Effect :=
  match entries with
  | [] => (ts, [])
  | (_, t) :: rest =>
      let '(ts', e) := clearAll rest (clearTimer t ts) in
      (ts', ClearTimeout t :: e)
  end.

(** [stop()] *)
Definition stop (m : Manager) : Manager * list Effect :=
  let '(ts, e0) := clearAll (restartTimers m) (pendingTimers m) in
  let m1 :=
    mkManager (xvfb m) (x11vnc m) [] true ts (nextTimer m) (nextChild m)
      (startsResuming m) in
  let '(m2, e1) := stopX11vnc m1 in
  let '(m3, e2) := stopXvfb m2 in
  (m3, e0 ++ e1 ++ e2).

(** One turn of the loop of [waitForDisplay()], from the test of its
    condition to the next pause, or to the return; the flag tells that it
    returned. *)
Definition waitTurn (startMs : Z) (env : Readings) (m : Manager)
  : (Manager * list Effect) * bool :=
  if nowMs env - startMs <? 5000
  then
    if lockExists env
    then (setTimer DisplaySettle 200 m, false)
    else (setTimer (DisplayPoll startMs) 100 m, false)
  else ((m, []), true).

(** [start()] after [await this.waitForDisplay()]: [startX11vnc()] always
    returns [true]. *)
Definition startAfterWait (m : Manager) : Manager * list Effect :=
  startX11vnc m.

(** [start()] up to the first pause of [await this.waitForDisplay()];
    [startXvfb()] always returns [true]. *)
Definition startBegins (binariesFound : bool) (startMs : Z) (env : Readings)
  (m : Manager) : Manager * list Effect :=
  let m0 :=
    mkManager (xvfb m) (x11vnc m) (restartTimers m) false (pendingTimers m)
      (nextTimer m) (nextChild m) (startsResuming m) in
  if negb binariesFound then (m0, [])
  else
    let '(m1, e1) := startXvfb (lockLive env) m0 in
    let '((m2, e2), returned) := waitTurn startMs env m1 in
    if returned
    then
      (mkManager (xvfb m2) (x11vnc m2) (restartTimers m2) (stopping m2)
         (pendingTimers m2) (nextTimer m2) (nextChild m2)
         (S (startsResuming m2)),
       e1 ++ e2)
    else (m2, e1 ++ e2).

(** The continuation of a [start()] whose wait returned at once. *)
Definition startResumes (m : Manager) : Manager * list Effect :=
  match startsResuming m with
  | O => (m, [])
  | S n =>
      startAfterWait
        (mkManager (xvfb m) (x11vnc m) (restartTimers m) (stopping m)
           (pendingTimers m) (nextTimer m) (nextChild m) n)
  end.

(** The child's [exit] callback *)
Definition onExit (process : Kind) (m : Manager) : Manager * list Effect :=
  let m1 :=
    match process with
    | Xvfb =>
        mkManager None (x11vnc m) (restartTimers m) (stopping m)
          (pendingTimers m) (nextTimer m) (nextChild m) (startsResuming m)
    | X11vnc =>
        mkManager (xvfb m) None (restartTimers m) (stopping m)
          (pendingTimers m) (nextTimer m) (nextChild m) (startsResuming m)
    end in
  if negb (stopping m1) then scheduleRestart process m1 else (m1, []).

(** The callback of the 5 s timer set by [scheduleRestart] *)
Definition onRestartTimer (process : Kind) (live : bool) (m : Manager)
  : Manager * list Effect :=
  let m1 :=
    mkManager (xvfb m) (x11vnc m) (forget process (restartTimers m)) (stopping m)
      (pendingTimers m) (nextTimer m) (nextChild m) (startsResuming m) in
  if stopping m1 then (m1, [])
  else
    match process with
    | Xvfb =>
        let '(m2, e2) := startXvfb live m1 in
        let '(m3, e3) := setTimer X11vncAfterXvfb 2000 m2 in
        (m3, e2 ++ e3)
    | X11vnc => startX11vnc m1
    end.

(** The callback of the 2 s timer *)
Definition onFollowUpTimer (m : Manager) : Manager * list Effect :=
  if negb (stopping m)
  then
    let '(m1, e1) := stopX11vnc m in
    let '(m2, e2) := startX11vnc m1 in
    (m2, e1 ++ e2)
  else (m, []).

(** The 100 ms pause of [waitForDisplay()] is over: the loop takes its next
    turn, and when it returns [start()] goes on in the same tick. *)
Definition onDisplayPoll (startMs : Z) (env : Readings) (m : Manager)
  : Manager * list Effect :=
  let '((m1, e1), returned) := waitTurn startMs env m in
  if returned
  then
    let '(m2, e2) := startAfterWait m1 in
    (m2, e1 ++ e2)
  else (m1, e1).

(** The 200 ms pause is over: [waitForDisplay()] returns and [start()]
    goes on. *)
Definition onDisplaySettle (m : Manager) : Manager * list Effect :=
  startAfterWait m.

Definition step (m : Manager) (ev : Event) : Manager * list Effect :=
  match ev with
  | Start binariesFound startMs env => startBegins binariesFound startMs env m
  | StartResumes => startResumes m
  | Stop => stop m
  | ChildError process => scheduleRestart process m
  | ChildExit process => onExit process m
  | TimerFires t env =>
      match bodyOf t (pendingTimers m) with
      | None => (m, [])
      | Some body =>
          let m1 :=
            mkManager (xvfb m) (x11vnc m) (restartTimers m) (stopping m)
              (clearTimer t (pendingTimers m)) (nextTimer m) (nextChild m)
              (startsResuming m) in
          match body with
          | RestartOf process => onRestartTimer process (lockLive env) m1
          | X11vncAfterXvfb => onFollowUpTimer m1
          | DisplayPoll startMs => onDisplayPoll startMs env m1
          | DisplaySettle => onDisplaySettle m1
          end
      end
  end.

(** A history: the state it leads to, and what each event did. *)
Fixpoint run (m : Manager) (evs : list Event)
  : Manager * list (Event * list Effect) :=
  match evs with
  | [] => (m, [])
  | ev :: rest =>
      let '(m1, e1) := step m ev in
      let '(m2, log) := run m1 rest in
      (m2, (ev, e1) :: log)
  end.

(** ** Reading a state *)

(** The pending timers set by [scheduleRestart] for one process. *)
Definition isRestartOf (process : Kind) (e : nat * TimerBody) : bool :=
  match snd e with
  | RestartOf k => kindEqb k process
  | _ => false
  end.

Definition scheduledRestarts (process : Kind) (m : Manager)
  : list (nat * TimerBody) :=
  filter (isRestartOf process) (pendingTimers m).

(** The pending timers whose callback restarts one process: those, and
    for x11vnc also the follow-ups of an Xvfb restart. *)
Definition restarts (process : Kind) (e : nat * TimerBody) : bool :=
  match snd e, process with
  | RestartOf k, _ => kindEqb k process
  | X11vncAfterXvfb, X11vnc => true
  | _, _ => false
  end.

Definition pendingRestarts (process : Kind) (m : Manager)
  : list (nat * TimerBody) :=
  filter (restarts process) (pendingTimers m).

(** The callbacks that restart a process, and those behind which a
    [start()] waits. *)
Definition isRestartBody (body : TimerBody) : bool :=
  match body with
  | RestartOf _ | X11vncAfterXvfb => true
  | DisplayPoll _ | DisplaySettle => false
  end.

Definition isWaitBody (body : TimerBody) : bool := negb (isRestartBody body).

(** A [start()] call has not run to its end. *)
Definition startInProgress (m : Manager) : bool :=
  negb (Nat.eqb (startsResuming m) 0)
  || existsb (fun e => isWaitBody (snd e)) (pendingTimers m).

Definition isStart (ev : Event) : bool :=
  match ev with Start _ _ _ => true | _ => false end.

Definition isTimerFires (ev : Event) : bool :=
  match ev with TimerFires _ _ => true | _ => false end.

Definition isSetTimeout (e : Effect) : bool :=
  match e with SetTimeout _ _ _ => true | _ => false end.

(** [setTimeout] with a callback that restarts a process. *)
Definition setsRestartTimer (e : Effect) : bool :=
  match e with SetTimeout _ body _ => isRestartBody body | _ => false end.

Definition isSpawn (e : Effect) : bool :=
  match e with Spawn _ _ => true | _ => false end.

(** ** The schedule invariant *)

(** What holds of [restartTimers], the pending timers, the timer counter
    and [stopping] in every reachable state: no process has two entries, no
    timer is pending twice, pending timers are older than the counter, the
    pending restart timers are exactly the ones [restartTimers] holds, each
    for its process, and while stopping the map is empty. *)
Definition InvS (rt : list (Kind * nat)) (pt : list (nat * TimerBody))
  (nt : nat) (st : bool) : Prop :=
  NoDup (map fst rt)
  /\ NoDup (map fst pt)
  /\ (forall t body, In (t, body) pt -> (t < nt)%nat)
  /\ (forall t k, In (t, RestartOf k) pt <-> In (k, t) rt)
  /\ (st = true -> rt = []).

Definition Inv (m : Manager) : Prop :=
  InvS (restartTimers m) (pendingTimers m) (nextTimer m) (stopping m).

Lemma kindEqb_eq (a b : Kind) : kindEqb a b = true <-> a = b.
Proof. destruct a, b; simpl; split; congruence. Qed.

Lemma timerOf_none (k : Kind) (rt : list (Kind * nat)) :
  timerOf k rt = None -> ~ In k (map fst rt).
Proof.
  induction rt as [|[k' t] rt IH]; simpl; [tauto|].
  destruct (kindEqb k' k) eqn:E; [discriminate|].
  intros H [Hk | Hin]; [|exact (IH H Hin)].
  subst k'. destruct k; discriminate E.
Qed.

Lemma bodyOf_in (t : nat) (body : TimerBody) (pt : list (nat * TimerBody)) :
  bodyOf t pt = Some body -> In (t, body) pt.
Proof.
  induction pt as [|[t' b] pt IH]; simpl; [discriminate|].
  destruct (Nat.eqb_spec t' t) as [-> | _].
  - intros H. inversion H. now left.
  - intros H. right. now apply IH.
Qed.

Lemma NoDup_fst_functional {A B : Type} (l : list (A * B)) (a : A) (b b' : B) :
  NoDup (map fst l) -> In (a, b) l -> In (a, b') l -> b = b'.
Proof.
  induction l as [|[x y] l IH]; simpl; intros Hnd H1 H2; [contradiction|].
  inversion Hnd as [|? ? Hnotin Hnd']; subst.
  destruct H1 as [H1 | H1], H2 as [H2 | H2].
  - congruence.
  - inversion H1; subst. exfalso. apply Hnotin. now apply (in_map fst _ (a, b')).
  - inversion H2; subst. exfalso. apply Hnotin. now apply (in_map fst _ (a, b)).
  - now apply IH.
Qed.

Lemma distinct_after_filter {E K : Type} (key : E -> K) (keep : E -> bool) :
  forall entries : list E,
    NoDup (map key entries) -> NoDup (map key (filter keep entries)).
Proof.
  intros entries Hdistinct.
  induction entries as [|e entries IH]; cbn [filter map] in *; [constructor|].
  apply NoDup_cons_iff in Hdistinct. destruct Hdistinct as [Hfresh Hrest].
  destruct (keep e); cbn [map]; [|exact (IH Hrest)].
  apply NoDup_cons; [|exact (IH Hrest)].
  intros Hin. apply Hfresh. apply in_map_iff in Hin.
  destruct Hin as [e' [Hkey Hin]]. apply filter_In in Hin.
  rewrite <- Hkey. apply in_map. exact (proj1 Hin).
Qed.

Lemma fresh_timer_distinct (pt : list (nat * TimerBody)) (nt : nat)
  (body : TimerBody) :
  NoDup (map fst pt) ->
  (forall t b, In (t, b) pt -> (t < nt)%nat) ->
  NoDup (map fst (pt ++ [(nt, body)])).
Proof.
  intros Ht Hlt. rewrite map_app. simpl.
  apply NoDup_app; [exact Ht | repeat constructor; simpl; tauto |].
  intros x Hx [Hx' | []]. subst x. apply in_map_iff in Hx.
  destruct Hx as [[t b] [Hx Hin]]. simpl in Hx. subst t.
  specialize (Hlt _ _ Hin). lia.
Qed.

(** A timer is set whose callback is not one of [scheduleRestart]. *)
Lemma InvS_set_other rt pt nt st body :
  (forall k, body <> RestartOf k) ->
  InvS rt pt nt st -> InvS rt (pt ++ [(nt, body)]) (S nt) st.
Proof.
  intros Hbody (Hk & Ht & Hlt & Hreg & Hstop). repeat split; auto.
  - now apply fresh_timer_distinct.
  - intros t b Hin. apply in_app_iff in Hin. destruct Hin as [Hin | [Hin | []]].
    + specialize (Hlt _ _ Hin). lia.
    + inversion Hin. lia.
  - intros Hin. apply in_app_iff in Hin. destruct Hin as [Hin | [Hin | []]].
    + now apply Hreg.
    + inversion Hin; subst. now destruct (Hbody k).
  - intros Hin. apply in_app_iff. left. now apply Hreg.
Qed.

Lemma InvS_schedule rt pt nt k :
  InvS rt pt nt false -> timerOf k rt = None ->
  InvS (rt ++ [(k, nt)]) (pt ++ [(nt, RestartOf k)]) (S nt) false.
Proof.
  intros (Hk & Ht & Hlt & Hreg & _) Hnone. repeat split.
  - rewrite map_app. simpl. apply NoDup_app; [exact Hk | repeat constructor; simpl; tauto |].
    intros x Hx [Hx' | []]. subst x. exact (timerOf_none _ _ Hnone Hx).
  - now apply fresh_timer_distinct.
  - intros t body Hin. apply in_app_iff in Hin. destruct Hin as [Hin | [Hin | []]].
    + specialize (Hlt _ _ Hin). lia.
    + inversion Hin. lia.
  - intros Hin. apply in_app_iff. apply in_app_iff in Hin.
    destruct Hin as [Hin | [Hin | []]].
    + left. now apply Hreg.
    + inversion Hin; subst. right. now left.
  - intros Hin. apply in_app_iff. apply in_app_iff in Hin.
    destruct Hin as [Hin | [Hin | []]].
    + left. now apply Hreg.
    + inversion Hin; subst. right. now left.
  - discriminate.
Qed.

Lemma InvS_fire_restart rt pt nt st t k :
  InvS rt pt nt st -> bodyOf t pt = Some (RestartOf k) ->
  InvS (forget k rt) (clearTimer t pt) nt st.
Proof.
  intros (Hk & Ht & Hlt & Hreg & Hstop) Hbody. apply bodyOf_in in Hbody.
  unfold forget, clearTimer. repeat split.
  - now apply distinct_after_filter.
  - now apply distinct_after_filter.
  - intros t' body Hin. apply filter_In in Hin. destruct Hin as [Hin _]. eauto.
  - intros Hin. apply filter_In in Hin. destruct Hin as [Hin Hne].
    simpl in Hne. apply filter_In. split; [now apply Hreg|]. simpl.
    destruct (kindEqb k0 k) eqn:E; [|reflexivity].
    apply kindEqb_eq in E. subst k0.
    pose proof (NoDup_fst_functional rt k t0 t Hk (proj1 (Hreg _ _) Hin)
                  (proj1 (Hreg _ _) Hbody)).
    subst t0. now rewrite Nat.eqb_refl in Hne.
  - intros Hin. apply filter_In in Hin. destruct Hin as [Hin Hne].
    simpl in Hne. apply filter_In. split; [now apply Hreg|]. simpl.
    destruct (Nat.eqb_spec t0 t) as [-> | _]; [|reflexivity].
    apply Hreg in Hin.
    pose proof (NoDup_fst_functional pt t _ _ Ht Hin Hbody) as Heq.
    inversion Heq; subst. destruct k; discriminate Hne.
  - intros Hst. now rewrite (Hstop Hst).
Qed.

Lemma InvS_fire_other rt pt nt st t body :
  InvS rt pt nt st -> bodyOf t pt = Some body ->
  (forall k, body <> RestartOf k) ->
  InvS rt (clearTimer t pt) nt st.
Proof.
  intros (Hk & Ht & Hlt & Hreg & Hstop) Hbody Hother. apply bodyOf_in in Hbody.
  unfold clearTimer. repeat split; auto.
  - now apply distinct_after_filter.
  - intros t' b Hin. apply filter_In in Hin. destruct Hin as [Hin _]. eauto.
  - intros Hin. apply filter_In in Hin. destruct Hin as [Hin _]. now apply Hreg.
  - intros Hin. apply filter_In. split; [now apply Hreg|]. simpl.
    destruct (Nat.eqb_spec t0 t) as [-> | _]; [|reflexivity].
    apply Hreg in Hin.
    pose proof (NoDup_fst_functional pt t _ _ Ht Hin Hbody) as Heq.
    now destruct (Hother k).
Qed.

Lemma clearAll_filter (entries : list (Kind * nat)) (pt : list (nat * TimerBody)) :
  fst (clearAll entries pt)
  = filter (fun e => negb (existsb (Nat.eqb (fst e)) (map snd entries))) pt.
Proof.
  revert pt. induction entries as [|[k t] entries IH]; intros pt; simpl.
  - induction pt as [|x pt IHp]; simpl; [reflexivity | now rewrite <- IHp].
  - specialize (IH (clearTimer t pt)).
    destruct (clearAll entries (clearTimer t pt)) as [ts e]. simpl in *.
    rewrite IH. unfold clearTimer. rewrite HookAuthThrottle.filter_twice.
    apply filter_ext. intros x. now rewrite negb_orb.
Qed.

Lemma clearAll_effects (entries : list (Kind * nat)) (pt : list (nat * TimerBody)) :
  snd (clearAll entries pt) = map (fun e => ClearTimeout (snd e)) entries.
Proof.
  revert pt. induction entries as [|[k t] entries IH]; intros pt; simpl; [reflexivity|].
  specialize (IH (clearTimer t pt)).
  destruct (clearAll entries (clearTimer t pt)) as [ts e]. simpl in *. now rewrite IH.
Qed.

Lemma clearAll_no_timeout (entries : list (Kind * nat)) (pt : list (nat * TimerBody)) :
  filter isSetTimeout (snd (clearAll entries pt)) = []
  /\ filter isSpawn (snd (clearAll entries pt)) = [].
Proof.
  rewrite clearAll_effects.
  induction entries as [|e entries IH]; simpl; [auto | exact IH].
Qed.

Lemma InvS_stop rt pt nt st :
  InvS rt pt nt st -> InvS [] (fst (clearAll rt pt)) nt true.
Proof.
  intros (Hk & Ht & Hlt & Hreg & Hstop). rewrite clearAll_filter. repeat split.
  - constructor.
  - now apply distinct_after_filter.
  - intros t body Hin. apply filter_In in Hin. destruct Hin as [Hin _]. eauto.
  - intros Hin. apply filter_In in Hin. destruct Hin as [Hin Hkeep].
    simpl in Hkeep. apply negb_true_iff in Hkeep.
    assert (existsb (Nat.eqb t) (map snd rt) = true) as Hyes; [|congruence].
    apply existsb_exists. exists t. split; [|apply Nat.eqb_refl].
    apply (in_map snd _ (k, t)). now apply Hreg.
  - intros [].
Qed.

(** *** Each method keeps the invariant *)

Lemma startXvfb_Inv (live : bool) (m : Manager) :
  Inv m -> Inv (fst (startXvfb live m))
           /\ stopping (fst (startXvfb live m)) = stopping m.
Proof.
  unfold Inv, startXvfb. intros H.
  destruct (xvfb m); [auto|]. destruct live; simpl; auto.
Qed.

Lemma startX11vnc_Inv (m : Manager) :
  Inv m -> Inv (fst (startX11vnc m))
           /\ stopping (fst (startX11vnc m)) = stopping m.
Proof. unfold Inv, startX11vnc. intros H. destruct (x11vnc m); simpl; auto. Qed.

Lemma stopXvfb_Inv (m : Manager) :
  Inv m -> Inv (fst (stopXvfb m)) /\ stopping (fst (stopXvfb m)) = stopping m.
Proof. unfold Inv, stopXvfb. intros H. destruct (xvfb m); simpl; auto. Qed.

Lemma stopX11vnc_Inv (m : Manager) :
  Inv m -> Inv (fst (stopX11vnc m)) /\ stopping (fst (stopX11vnc m)) = stopping m.
Proof. unfold Inv, stopX11vnc. intros H. destruct (x11vnc m); simpl; auto. Qed.

Lemma setTimer_Inv (body : TimerBody) (delayMs : Z) (m : Manager) :
  (forall k, body <> RestartOf k) ->
  Inv m -> Inv (fst (setTimer body delayMs m))
           /\ stopping (fst (setTimer body delayMs m)) = stopping m.
Proof.
  intros Hbody H. unfold Inv, setTimer. simpl.
  split; [now apply InvS_set_other | reflexivity].
Qed.

Lemma waitTurn_Inv (startMs : Z) (env : Readings) (m : Manager) :
  Inv m -> Inv (fst (fst (waitTurn startMs env m)))
           /\ stopping (fst (fst (waitTurn startMs env m))) = stopping m.
Proof.
  intros H. unfold waitTurn.
  destruct (nowMs env - startMs <? 5000); [|simpl; auto].
  destruct (lockExists env); cbn [fst]; apply setTimer_Inv; auto; discriminate.
Qed.

Lemma scheduleRestart_Inv (k : Kind) (m : Manager) :
  Inv m -> Inv (fst (scheduleRestart k m))
           /\ stopping (fst (scheduleRestart k m)) = stopping m.
Proof.
  unfold Inv, scheduleRestart. intros H.
  destruct (stopping m) eqn:Est; [simpl; rewrite Est; now split|].
  destruct (timerOf k (restartTimers m)) eqn:Et; [simpl; rewrite Est; now split|].
  simpl. rewrite ?Est. split; [now apply InvS_schedule | reflexivity].
Qed.

Lemma stop_Inv (m : Manager) :
  Inv m ->
  Inv (fst (stop m))
  /\ stopping (fst (stop m)) = true
  /\ restartTimers (fst (stop m)) = [].
Proof.
  unfold Inv, stop. intros H. apply InvS_stop in H.
  destruct (clearAll (restartTimers m) (pendingTimers m)) as [ts e0]. simpl in H.
  unfold stopX11vnc, stopXvfb. simpl.
  destruct (x11vnc m); simpl; destruct (xvfb m); simpl; auto.
Qed.

Lemma startBegins_Inv (binariesFound : bool) (startMs : Z) (env : Readings)
  (m : Manager) :
  Inv m -> Inv (fst (startBegins binariesFound startMs env m)).
Proof.
  unfold startBegins. intros (Hk & Ht & Hlt & Hreg & _).
  set (m0 := mkManager _ _ _ false _ _ _ _).
  assert (Inv m0) as H0
      by (subst m0; unfold Inv; simpl; repeat split; auto; try apply Hreg; discriminate).
  destruct binariesFound; simpl; [|exact H0].
  destruct (startXvfb_Inv (lockLive env) m0 H0) as [H1 _].
  destruct (startXvfb (lockLive env) m0) as [m1 e1]. simpl in H1.
  destruct (waitTurn_Inv startMs env m1 H1) as [H2 _].
  destruct (waitTurn startMs env m1) as [[m2 e2] returned]. simpl in H2.
  destruct returned; simpl; exact H2.
Qed.

Lemma startResumes_Inv (m : Manager) :
  Inv m -> Inv (fst (startResumes m))
           /\ stopping (fst (startResumes m)) = stopping m.
Proof.
  unfold Inv, startResumes, startAfterWait. intros H.
  destruct (startsResuming m); [auto|].
  unfold startX11vnc. simpl. destruct (x11vnc m); simpl; auto.
Qed.

Lemma onExit_Inv (k : Kind) (m : Manager) :
  Inv m -> Inv (fst (onExit k m)) /\ stopping (fst (onExit k m)) = stopping m.
Proof.
  intros H. unfold onExit.
  set (m1 := match k with
             | Xvfb => _
             | X11vnc => _
             end).
  assert (Inv m1 /\ stopping m1 = stopping m) as [H1 Hs1]
      by (subst m1; destruct k; split; auto).
  destruct (stopping m1) eqn:E; simpl.
  - split; [exact H1 | congruence].
  - destruct (scheduleRestart_Inv k m1 H1) as [H2 Hs2]. split; [exact H2 | congruence].
Qed.

Lemma onDisplayPoll_Inv (startMs : Z) (env : Readings) (m : Manager) :
  Inv m -> Inv (fst (onDisplayPoll startMs env m))
           /\ stopping (fst (onDisplayPoll startMs env m)) = stopping m.
Proof.
  intros H. unfold onDisplayPoll, startAfterWait.
  destruct (waitTurn_Inv startMs env m H) as [H1 Hs1].
  destruct (waitTurn startMs env m) as [[m1 e1] returned]. simpl in H1, Hs1.
  destruct returned; [|simpl; auto].
  destruct (startX11vnc_Inv m1 H1) as [H2 Hs2].
  destruct (startX11vnc m1) as [m2 e2]. simpl in *. split; [exact H2 | congruence].
Qed.

Lemma step_Inv (m : Manager) (ev : Event) : Inv m -> Inv (fst (step m ev)).
Proof.
  intros H. destruct ev as [b s env| | |k|k|t env]; cbn [step].
  - now apply startBegins_Inv.
  - now apply startResumes_Inv.
  - now apply stop_Inv.
  - now apply scheduleRestart_Inv.
  - now apply onExit_Inv.
  - destruct (bodyOf t (pendingTimers m)) as [body|] eqn:Eb; [|exact H].
    set (m1 := mkManager _ _ _ _ (clearTimer t (pendingTimers m)) _ _ _).
    destruct body as [k| |s|].
    + unfold onRestartTimer.
      set (m2 := mkManager _ _ (forget k _) _ _ _ _ _).
      assert (Inv m2) as H2 by (subst m2 m1; unfold Inv; simpl;
                                now apply InvS_fire_restart).
      destruct (stopping m2); [exact H2|].
      destruct k.
      * destruct (startXvfb_Inv (lockLive env) m2 H2) as [H3 _].
        destruct (startXvfb (lockLive env) m2) as [m3 e3]. simpl in H3.
        destruct (setTimer_Inv X11vncAfterXvfb 2000 m3 ltac:(discriminate) H3)
          as [H4 _].
        destruct (setTimer X11vncAfterXvfb 2000 m3) as [m4 e4]. exact H4.
      * now apply startX11vnc_Inv.
    + assert (Inv m1) as H1
          by (subst m1; unfold Inv; simpl;
              apply (InvS_fire_other _ _ _ _ _ _ H Eb); discriminate).
      unfold onFollowUpTimer. destruct (stopping m1); simpl; [exact H1|].
      destruct (stopX11vnc_Inv m1 H1) as [H2 _].
      destruct (stopX11vnc m1) as [m2 e2]. simpl in H2.
      destruct (startX11vnc_Inv m2 H2) as [H3 _].
      destruct (startX11vnc m2) as [m3 e3]. simpl in *. exact H3.
    + assert (Inv m1) as H1
          by (subst m1; unfold Inv; simpl;
              apply (InvS_fire_other _ _ _ _ _ _ H Eb); discriminate).
      now apply onDisplayPoll_Inv.
    + assert (Inv m1) as H1
          by (subst m1; unfold Inv; simpl;
              apply (InvS_fire_other _ _ _ _ _ _ H Eb); discriminate).
      unfold onDisplaySettle, startAfterWait. now apply startX11vnc_Inv.
Qed.

Lemma manager_run_cons (m : Manager) (ev : Event) (evs : list Event) :
  run m (ev :: evs)
  = (fst (run (fst (step m ev)) evs),
     (ev, snd (step m ev)) :: snd (run (fst (step m ev)) evs)).
Proof.
  simpl. destruct (step m ev) as [m1 e1]. simpl.
  now destruct (run m1 evs) as [m2 log].
Qed.

Lemma run_Inv (evs : list Event) (m : Manager) : Inv m -> Inv (fst (run m evs)).
Proof.
  revert m. induction evs as [|ev evs IH]; intros m H; [exact H|].
  rewrite manager_run_cons. cbn [fst]. apply IH. now apply step_Inv.
Qed.

Lemma initial_Inv : Inv initial.
Proof.
  unfold Inv, InvS, initial. simpl. repeat split; try constructor; try tauto.
Qed.

(** *** At most one scheduled restart per process *)

Lemma scheduled_at_most_one (k : Kind) (m : Manager) :
  Inv m -> (length (scheduledRestarts k m) <= 1)%nat.
Proof.
  intros (Hk & Ht & _ & Hreg & _). unfold scheduledRestarts.
  pose proof (distinct_after_filter fst (isRestartOf k) _ Ht) as Hnd.
  assert (forall e, In e (filter (isRestartOf k) (pendingTimers m)) ->
                    In (k, fst e) (restartTimers m)) as Hall.
  { intros [t body] Hin. apply filter_In in Hin. destruct Hin as [Hin Hp].
    unfold isRestartOf in Hp. simpl in Hp.
    destruct body as [k'| | |]; try discriminate.
    apply kindEqb_eq in Hp. subst k'. simpl. now apply Hreg. }
  destruct (filter (isRestartOf k) (pendingTimers m)) as [|a [|b rest]];
    simpl; try lia.
  exfalso. simpl in Hnd. inversion Hnd as [|? ? Hnotin _]; subst.
  apply Hnotin. left.
  apply (NoDup_fst_functional (restartTimers m) k (fst b) (fst a) Hk).
  - apply Hall. right. now left.
  - apply Hall. now left.
Qed.

Lemma stopping_nothing_scheduled (k : Kind) (m : Manager) :
  Inv m -> stopping m = true -> scheduledRestarts k m = [].
Proof.
  intros (_ & _ & _ & Hreg & Hstop) Hst. specialize (Hstop Hst).
  unfold scheduledRestarts.
  destruct (filter (isRestartOf k) (pendingTimers m)) as [|[t body] rest] eqn:E;
    [reflexivity|].
  assert (In (t, body) (filter (isRestartOf k) (pendingTimers m))) as Hin
      by (rewrite E; now left).
  apply filter_In in Hin. destruct Hin as [Hin Hp]. unfold isRestartOf in Hp.
  simpl in Hp. destruct body as [k'| | |]; try discriminate.
  apply Hreg in Hin. rewrite Hstop in Hin. contradiction.
Qed.

(** *** What [stop()] clears, and what it leaves *)

Lemma bodyOf_filter_key (keep : nat -> bool) (t : nat)
  (pt : list (nat * TimerBody)) :
  bodyOf t (filter (fun e => keep (fst e)) pt)
  = if keep t then bodyOf t pt else None.
Proof.
  induction pt as [|[t' b] pt IH]; cbn [filter bodyOf fst];
    [now destruct (keep t)|].
  destruct (Nat.eqb t' t) eqn:E.
  - apply Nat.eqb_eq in E. subst t'.
    destruct (keep t) eqn:Ek; cbn [bodyOf].
    + now rewrite Nat.eqb_refl.
    + rewrite IH, ?Ek. reflexivity.
  - destruct (keep t'); cbn [bodyOf]; [|exact IH]. now rewrite E.
Qed.

Lemma stop_pending (m : Manager) :
  pendingTimers (fst (stop m))
  = filter (fun e => negb (existsb (Nat.eqb (fst e)) (map snd (restartTimers m))))
      (pendingTimers m).
Proof.
  unfold stop. rewrite <- clearAll_filter.
  destruct (clearAll (restartTimers m) (pendingTimers m)) as [ts e0].
  unfold stopX11vnc, stopXvfb. simpl.
  destruct (x11vnc m); simpl; destruct (xvfb m); reflexivity.
Qed.

Lemma stop_effects (m : Manager) :
  snd (stop m)
  = map (fun e => ClearTimeout (snd e)) (restartTimers m)
    ++ match x11vnc m with Some child => [Kill X11vnc child] | None => [] end
    ++ match xvfb m with Some child => [Kill Xvfb child] | None => [] end.
Proof.
  unfold stop. rewrite <- (clearAll_effects (restartTimers m) (pendingTimers m)).
  destruct (clearAll (restartTimers m) (pendingTimers m)) as [ts e0].
  unfold stopX11vnc, stopXvfb. simpl.
  destruct (x11vnc m); simpl; destruct (xvfb m); reflexivity.
Qed.

Lemma stop_children (m : Manager) :
  xvfb (fst (stop m)) = None /\ x11vnc (fst (stop m)) = None.
Proof.
  unfold stop.
  destruct (clearAll (restartTimers m) (pendingTimers m)) as [ts e0].
  unfold stopX11vnc, stopXvfb. simpl.
  destruct (x11vnc m); simpl; destruct (xvfb m); simpl; auto.
Qed.

Lemma stop_clears_scheduled (m : Manager) (k : Kind) (t : nat) :
  In (k, t) (restartTimers m) ->
  In (ClearTimeout t) (snd (stop m))
  /\ bodyOf t (pendingTimers (fst (stop m))) = None.
Proof.
  intros Hin. split.
  - rewrite stop_effects. apply in_or_app. left.
    now apply (in_map (fun e => ClearTimeout (snd e)) _ (k, t)).
  - rewrite stop_pending.
    rewrite (bodyOf_filter_key
               (fun t' => negb (existsb (Nat.eqb t') (map snd (restartTimers m))))).
    assert (existsb (Nat.eqb t) (map snd (restartTimers m)) = true) as ->;
      [|reflexivity].
    apply existsb_exists. exists t. split; [|apply Nat.eqb_refl].
    now apply (in_map snd _ (k, t)).
Qed.

Lemma stop_keeps_other (m : Manager) (t : nat) (body : TimerBody) :
  Inv m -> bodyOf t (pendingTimers m) = Some body ->
  (forall k, body <> RestartOf k) ->
  bodyOf t (pendingTimers (fst (stop m))) = Some body.
Proof.
  intros (_ & Ht & _ & Hreg & _) Hbody Hother.
  rewrite stop_pending.
  rewrite (bodyOf_filter_key
             (fun t' => negb (existsb (Nat.eqb t') (map snd (restartTimers m))))).
  destruct (existsb (Nat.eqb t) (map snd (restartTimers m))) eqn:E; [|exact Hbody].
  exfalso. apply existsb_exists in E. destruct E as [t' [Hin Heq]].
  apply Nat.eqb_eq in Heq. subst t'. apply in_map_iff in Hin.
  destruct Hin as [[k t'] [Hsnd Hin]]. simpl in Hsnd. subst t'.
  apply Hreg in Hin. apply bodyOf_in in Hbody.
  pose proof (NoDup_fst_functional _ t _ _ Ht Hin Hbody) as Heq.
  now destruct (Hother k).
Qed.

(** *** While stopping *)

(** No effect of the entry sets a timer that restarts a process. *)
Definition schedulesNothing (entry : Event * list Effect) : Prop :=
  filter setsRestartTimer (snd entry) = [].

(** The entry sets no timer at all, and if it is a timer firing it has no
    effect. *)
Definition quietEntry (entry : Event * list Effect) : Prop :=
  filter isSetTimeout (snd entry) = []
  /\ (isTimerFires (fst entry) = true -> snd entry = []).

Lemma waitTurn_schedules_nothing (startMs : Z) (env : Readings) (m : Manager) :
  filter setsRestartTimer (snd (fst (waitTurn startMs env m))) = [].
Proof.
  unfold waitTurn. destruct (nowMs env - startMs <? 5000); [|reflexivity].
  now destruct (lockExists env).
Qed.

Lemma startX11vnc_schedules_nothing (m : Manager) :
  filter setsRestartTimer (snd (startX11vnc m)) = [].
Proof. unfold startX11vnc. now destruct (x11vnc m). Qed.

Lemma step_while_stopping (m : Manager) (ev : Event) :
  Inv m -> stopping m = true -> isStart ev = false ->
  stopping (fst (step m ev)) = true /\ schedulesNothing (ev, snd (step m ev)).
Proof.
  intros H Hst Hev. unfold schedulesNothing.
  destruct ev as [b s env| | |k|k|t env]; try discriminate Hev; cbn [step fst snd].
  - destruct (startResumes_Inv m H) as [_ Hs]. split; [congruence|].
    unfold startResumes, startAfterWait. destruct (startsResuming m); [reflexivity|].
    apply startX11vnc_schedules_nothing.
  - destruct (stop_Inv m H) as (_ & Hs & _). split; [exact Hs|].
    rewrite stop_effects, !filter_app.
    assert (filter setsRestartTimer
              (map (fun e : Kind * nat => ClearTimeout (snd e)) (restartTimers m))
            = []) as ->
        by (induction (restartTimers m) as [|e l IHl]; simpl; auto).
    destruct (x11vnc m); destruct (xvfb m); reflexivity.
  - unfold scheduleRestart. rewrite Hst. simpl. split; [exact Hst | reflexivity].
  - unfold onExit. destruct k; simpl; rewrite Hst; simpl; rewrite ?Hst;
      (split; reflexivity).
  - destruct (bodyOf t (pendingTimers m)) as [[k| |s|]|]; simpl.
    + unfold onRestartTimer. simpl. rewrite Hst. simpl. rewrite ?Hst. auto.
    + unfold onFollowUpTimer. simpl. rewrite Hst. simpl. rewrite ?Hst. auto.
    + set (m1 := mkManager _ _ _ _ (clearTimer t (pendingTimers m)) _ _ _).
      unfold onDisplayPoll, startAfterWait.
      pose proof (waitTurn_schedules_nothing s env m1) as Hw.
      assert (stopping (fst (fst (waitTurn s env m1))) = true) as Hs1.
      { unfold waitTurn. destruct (nowMs env - s <? 5000); [|exact Hst].
        destruct (lockExists env); exact Hst. }
      destruct (waitTurn s env m1) as [[m2 e2] returned]. simpl in Hw, Hs1.
      destruct returned; simpl; [|auto].
      pose proof (startX11vnc_schedules_nothing m2) as Hx.
      assert (stopping (fst (startX11vnc m2)) = true) as Hs2
          by (unfold startX11vnc; destruct (x11vnc m2); exact Hs1).
      destruct (startX11vnc m2) as [m3 e3]. simpl in *.
      rewrite filter_app, Hw, Hx. auto.
    + unfold onDisplaySettle, startAfterWait, startX11vnc. simpl.
      destruct (x11vnc m); simpl; auto.
    + auto.
Qed.

Lemma run_while_stopping (evs : list Event) (m : Manager) :
  Inv m -> stopping m = true -> forallb (fun ev => negb (isStart ev)) evs = true ->
  stopping (fst (run m evs)) = true /\ Forall schedulesNothing (snd (run m evs)).
Proof.
  revert m. induction evs as [|ev evs IH]; intros m H Hst Hall.
  - simpl. auto.
  - cbn [forallb] in Hall. apply andb_true_iff in Hall. destruct Hall as [Hev Hrest].
    apply negb_true_iff in Hev. rewrite manager_run_cons. cbn [fst snd].
    destruct (step_while_stopping m ev H Hst Hev) as [Hst1 Hq].
    destruct (IH (fst (step m ev)) (step_Inv m ev H) Hst1 Hrest) as [Hst2 Hqs].
    split; [exact Hst2 | now constructor].
Qed.

(** A restart timer or a follow-up that fires while stopping does nothing. *)
Lemma restart_timer_inert (m : Manager) (t : nat) (env : Readings)
  (body : TimerBody) :
  stopping m = true ->
  bodyOf t (pendingTimers m) = Some body ->
  isRestartBody body = true ->
  snd (step m (TimerFires t env)) = [].
Proof.
  intros Hst Hbody Hrestart. cbn [step]. rewrite Hbody.
  destruct body as [k| |s|]; try discriminate Hrestart.
  - unfold onRestartTimer. simpl. now rewrite Hst.
  - unfold onFollowUpTimer. simpl. now rewrite Hst.
Qed.

(** A [start()] that waits for its 200 ms pause when [stop()] is called
    goes on when the pause is over, and spawns x11vnc. *)
Lemma settle_after_stop (m : Manager) (t : nat) (env : Readings) :
  Inv m -> bodyOf t (pendingTimers m) = Some DisplaySettle ->
  let stopped := fst (stop m) in
  let after := step stopped (TimerFires t env) in
  snd after = [Spawn X11vnc (nextChild stopped)]
  /\ stopping (fst after) = true
  /\ x11vnc (fst after) = Some (nextChild stopped).
Proof.
  intros H Hbody stopped after. subst after. cbn [step].
  assert (bodyOf t (pendingTimers stopped) = Some DisplaySettle) as ->
      by (apply stop_keeps_other; [exact H | exact Hbody | discriminate]).
  destruct (stop_Inv m H) as (_ & Hst & _). fold stopped in Hst.
  destruct (stop_children m) as [_ Hx]. fold stopped in Hx.
  unfold onDisplaySettle, startAfterWait, startX11vnc. simpl. rewrite Hx. simpl.
  auto.
Qed.

(** *** While stopping, with no [start()] in progress *)

Lemma bodyOf_wait_in_progress (t : nat) (body : TimerBody)
  (pt : list (nat * TimerBody)) :
  bodyOf t pt = Some body -> isWaitBody body = true ->
  existsb (fun e => isWaitBody (snd e)) pt = true.
Proof.
  intros Hbody Hwait. apply bodyOf_in in Hbody. apply existsb_exists.
  now exists (t, body).
Qed.

Lemma no_wait_after_filter (keep : nat * TimerBody -> bool)
  (pt : list (nat * TimerBody)) :
  existsb (fun e => isWaitBody (snd e)) pt = false ->
  existsb (fun e => isWaitBody (snd e)) (filter keep pt) = false.
Proof.
  intros Hnone. apply not_true_is_false. intros Hsome.
  apply existsb_exists in Hsome. destruct Hsome as [e [Hin He]].
  apply filter_In in Hin.
  assert (existsb (fun e => isWaitBody (snd e)) pt = true) as Hyes
      by (apply existsb_exists; exists e; tauto).
  congruence.
Qed.

Lemma step_while_stopped (m : Manager) (ev : Event) :
  stopping m = true -> startInProgress m = false -> isStart ev = false ->
  stopping (fst (step m ev)) = true
  /\ startInProgress (fst (step m ev)) = false
  /\ quietEntry (ev, snd (step m ev)).
Proof.
  intros Hst Hidle Hev. unfold quietEntry.
  unfold startInProgress in Hidle. apply orb_false_iff in Hidle.
  destruct Hidle as [Hres Hwait]. apply negb_false_iff, Nat.eqb_eq in Hres.
  destruct ev as [b s env| | |k|k|t env]; try discriminate Hev;
    cbn [step fst snd isTimerFires].
  - unfold startResumes. rewrite Hres. simpl.
    unfold startInProgress. rewrite Hres, Hwait.
    repeat split; auto; discriminate.
  - rewrite stop_effects, !filter_app.
    assert (filter isSetTimeout
              (map (fun e : Kind * nat => ClearTimeout (snd e)) (restartTimers m))
            = []) as ->
        by (induction (restartTimers m) as [|e l IHl]; simpl; auto).
    assert (startsResuming (fst (stop m)) = startsResuming m
            /\ stopping (fst (stop m)) = true) as [Hr Hs].
    { unfold stop.
      destruct (clearAll (restartTimers m) (pendingTimers m)) as [ts e0].
      unfold stopX11vnc, stopXvfb. simpl.
      destruct (x11vnc m); simpl; destruct (xvfb m); simpl; auto. }
    unfold startInProgress. rewrite Hr, Hres, stop_pending.
    rewrite (no_wait_after_filter _ _ Hwait).
    split; [exact Hs|]. split; [reflexivity|].
    split; [|discriminate]. destruct (x11vnc m); destruct (xvfb m); reflexivity.
  - unfold scheduleRestart. rewrite Hst. simpl. unfold startInProgress.
    rewrite Hres, Hwait. repeat split; auto; discriminate.
  - unfold onExit. destruct k; simpl; rewrite Hst; simpl; unfold startInProgress;
      simpl; rewrite Hres, Hwait; rewrite ?Hst; repeat split; auto; discriminate.
  - destruct (bodyOf t (pendingTimers m)) as [body|] eqn:Eb.
    + destruct (isWaitBody body) eqn:Ew.
      * pose proof (bodyOf_wait_in_progress t body _ Eb Ew). congruence.
      * destruct body as [k| |s|]; try discriminate Ew.
        -- unfold onRestartTimer. simpl. rewrite Hst. simpl.
           unfold startInProgress. simpl. rewrite Hres.
           unfold clearTimer. rewrite (no_wait_after_filter _ _ Hwait). auto.
        -- unfold onFollowUpTimer. simpl. rewrite Hst. simpl.
           unfold startInProgress. simpl. rewrite Hres.
           unfold clearTimer. rewrite (no_wait_after_filter _ _ Hwait). auto.
    + simpl. unfold startInProgress. rewrite Hres, Hwait. auto.
Qed.

Lemma run_while_stopped (evs : list Event) (m : Manager) :
  stopping m = true -> startInProgress m = false ->
  forallb (fun ev => negb (isStart ev)) evs = true ->
  Forall quietEntry (snd (run m evs)).
Proof.
  revert m. induction evs as [|ev evs IH]; intros m Hst Hidle Hall.
  - constructor.
  - cbn [forallb] in Hall. apply andb_true_iff in Hall. destruct Hall as [Hev Hrest].
    apply negb_true_iff in Hev. rewrite manager_run_cons. cbn [fst snd].
    destruct (step_while_stopped m ev Hst Hidle Hev) as (Hst1 & Hidle1 & Hq).
    constructor; [exact Hq | now apply IH].
Qed.

(** C9 (amended).  In every state the supervisor can reach, each process
    (xvfb, x11vnc) has at most one pending restart timer set by
    [scheduleRestart].  [stop()] clears every timer [restartTimers] holds
    and leaves the manager stopping, with [restartTimers] empty and no such
    timer pending.  From then on, as long as [start()] is not called, that
    stays so, no timer that restarts a process is set, and a restart timer
    or follow-up that fires does nothing.  A [start()] that is waiting in
    [waitForDisplay()] when [stop()] is called is not cancelled: when its
    pause is over it spawns x11vnc although the manager is stopping.  When no
    [start()] is in progress at [stop()], no timer at all is set afterwards
    and every timer that fires does nothing. *)
Theorem C9_one_scheduled_restart_and_none_after_stop :
  (forall evs k,
      (length (scheduledRestarts k (fst (run initial evs))) <= 1)%nat)
  /\ (forall evs,
        let before := fst (run initial evs) in
        let stopped := step before Stop in
        stopping (fst stopped) = true
        /\ restartTimers (fst stopped) = []
        /\ (forall k, scheduledRestarts k (fst stopped) = [])
        /\ (forall k t,
              In (k, t) (restartTimers before) ->
              In (ClearTimeout t) (snd stopped)
              /\ bodyOf t (pendingTimers (fst stopped)) = None))
  /\ (forall evs later,
        forallb (fun ev => negb (isStart ev)) later = true ->
        let r := run (fst (step (fst (run initial evs)) Stop)) later in
        stopping (fst r) = true
        /\ restartTimers (fst r) = []
        /\ (forall k, scheduledRestarts k (fst r) = [])
        /\ Forall schedulesNothing (snd r)
        /\ (forall t env body,
              bodyOf t (pendingTimers (fst r)) = Some body ->
              isRestartBody body = true ->
              snd (step (fst r) (TimerFires t env)) = []))
  /\ (forall evs t env,
        bodyOf t (pendingTimers (fst (run initial evs))) = Some DisplaySettle ->
        let stopped := fst (step (fst (run initial evs)) Stop) in
        let after := step stopped (TimerFires t env) in
        snd after = [Spawn X11vnc (nextChild stopped)]
        /\ stopping (fst after) = true
        /\ x11vnc (fst after) = Some (nextChild stopped))
  /\ (forall evs later,
        forallb (fun ev => negb (isStart ev)) later = true ->
        let stopped := fst (step (fst (run initial evs)) Stop) in
        startInProgress stopped = false ->
        Forall quietEntry (snd (run stopped later))).
Proof.
  assert (forall evs, Inv (fst (run initial evs))) as Hreach
      by (intros evs; apply run_Inv, initial_Inv).
  split; [|split; [|split; [|split]]].
  - intros evs k. apply scheduled_at_most_one, Hreach.
  - intros evs before stopped. subst stopped before. cbn [step].
    destruct (stop_Inv _ (Hreach evs)) as (Hinv & Hst & Hrt).
    split; [exact Hst|]. split; [exact Hrt|]. split.
    + intros k. now apply stopping_nothing_scheduled.
    + intros k t. apply stop_clears_scheduled.
  - intros evs later Hlater r. subst r. cbn [step].
    destruct (stop_Inv _ (Hreach evs)) as (Hinv & Hst & _).
    destruct (run_while_stopping later _ Hinv Hst Hlater) as [Hst' Hquiet].
    pose proof (run_Inv later _ Hinv) as Hinv'.
    split; [exact Hst'|]. split.
    + destruct Hinv' as (_ & _ & _ & _ & Hempty). now apply Hempty.
    + split; [intros k; now apply stopping_nothing_scheduled|].
      split; [exact Hquiet|].
      intros t env body. now apply restart_timer_inert.
  - intros evs t env Hbody. cbn [step]. now apply settle_after_stop.
  - intros evs later Hlater stopped Hidle. subst stopped. cbn [step] in *.
    destruct (stop_Inv _ (Hreach evs)) as (_ & Hst & _).
    now apply run_while_stopped.
Qed.

(** Readings while no display runs, and once Xvfb has written its lock
    file. *)
Definition noDisplay (now : Z) : Readings := mkReadings false false now.
Definition displayUp (now : Z) : Readings := mkReadings true true now.

(** A start, then a crash of Xvfb, its restart, and a crash of x11vnc. *)
Definition xvfbCrashThenX11vncCrash : list Event :=
  [Start true 0 (noDisplay 0); TimerFires 0 (displayUp 100);
   TimerFires 1 (displayUp 300); ChildExit Xvfb; TimerFires 2 (noDisplay 6000);
   ChildExit X11vnc].

(** C9, as stated, fails: after Xvfb has been restarted, the follow-up that
    restarts x11vnc 2 s later can be pending together with the restart that
    [scheduleRestart] set for x11vnc, two pending restart timers for one
    process; and [stop()] clears only the latter, the follow-up stays
    pending, and when it fires after a later [start()] it spawns x11vnc. *)
Lemma C9_follow_up_timer_escapes_schedule :
  pendingRestarts X11vnc (fst (run initial xvfbCrashThenX11vncCrash))
  = [(3%nat, X11vncAfterXvfb); (4%nat, RestartOf X11vnc)]
  /\ pendingRestarts X11vnc
       (fst (step (fst (run initial xvfbCrashThenX11vncCrash)) Stop))
     = [(3%nat, X11vncAfterXvfb)]
  /\ last (snd (run initial
                  (xvfbCrashThenX11vncCrash
                   ++ [Stop; Start true 7000 (noDisplay 7000);
                       TimerFires 3 (noDisplay 7500)])))
          (Stop, [])
     = (TimerFires 3 (noDisplay 7500), [Spawn X11vnc 4]).
Proof. repeat split; reflexivity. Qed.

Lemma C9_schedule_witness :
  (length (scheduledRestarts X11vnc
             (fst (run initial xvfbCrashThenX11vncCrash))) <= 1)%nat
  /\ Forall quietEntry
       (snd (run (fst (step (fst (run initial xvfbCrashThenX11vncCrash)) Stop))
               [TimerFires 3 (noDisplay 7500); ChildExit X11vnc; ChildError Xvfb;
                StartResumes; TimerFires 4 (displayUp 12000)]))
  /\ snd (step (fst (step (fst (run initial [Start true 0 (displayUp 0)])) Stop))
            (TimerFires 0 (displayUp 200)))
     = [Spawn X11vnc 0].
Proof.
  destruct C9_one_scheduled_restart_and_none_after_stop
    as (Hone & _ & _ & Hsettle & Hquiet).
  split; [exact (Hone xvfbCrashThenX11vncCrash X11vnc)|]. split.
  - exact (Hquiet xvfbCrashThenX11vncCrash
             [TimerFires 3 (noDisplay 7500); ChildExit X11vnc; ChildError Xvfb;
              StartResumes; TimerFires 4 (displayUp 12000)] eq_refl eq_refl).
  - exact (proj1 (Hsettle [Start true 0 (displayUp 0)] 0%nat (displayUp 200)
                    eq_refl)).
Defined.

End VncProcessManager.

(* ================================================================== *)
(** * The HTTP router ([createGatewayHttpServer], [handleRequest]) *)
(* ================================================================== *)

Module GatewayRouter.

Import NoVncAssets.

(** The parts of an [IncomingMessage] that [handleRequest] itself looks
    at; [content] stands for what the imported handlers read from it. *)
Record IncomingMessage (Content : Type) : Type := mkIncoming {
  url : option string;
  upgrade : option string;
  method : string;
  content : Content
}.

Arguments mkIncoming {Content}.
Arguments url {Content}.
Arguments upgrade {Content}.
Arguments method {Content}.
Arguments content {Content}.

(** The imported request handlers, in the order [handleRequest] names
    them. *)
Inductive Handler : Type :=
| Hooks
| ToolsInvoke
| Slack
| Plugin
| OpenResponses
| OpenAi
| A2ui
| CanvasHost
| ControlUiAvatar
| ControlUiHttp.

(** The calls into the browser control service. *)
Inductive BrowserOp : Type :=
| ReadState
| StopService
| StartService
| EnsureBrowser.

(** The fields of [opts] that [handleRequest] reads; [clients] is the
    registry as it is when the request arrives, [bundledNoVncRoot] what
    [resolveBundledNoVncRoot()] found when the server was created. *)
Record Options (Secrets : Type) : Type := mkOptions {
  canvasHost : bool;
  clients : list MachineScopedAuth.GatewayWsClient;
  controlUiEnabled : bool;
  controlUiBasePath : string;
  vncEnabled : bool;
  openAiChatCompletionsEnabled : bool;
  openResponsesEnabled : bool;
  handlePluginRequest : bool;
  resolvedAuth : MachineScopedAuth.ResolvedGatewayAuth Secrets;
  bundledNoVncRoot : option string
}.

Arguments mkOptions {Secrets}.
Arguments canvasHost {Secrets}.
Arguments clients {Secrets}.
Arguments controlUiEnabled {Secrets}.
Arguments controlUiBasePath {Secrets}.
Arguments vncEnabled {Secrets}.
Arguments openAiChatCompletionsEnabled {Secrets}.
Arguments openResponsesEnabled {Secrets}.
Arguments handlePluginRequest {Secrets}.
Arguments resolvedAuth {Secrets}.
Arguments bundledNoVncRoot {Secrets}.

(** What [handleRequest] calls outside this file.  [consult h] is the
    imported handler [h] applied to the request, with the trusted proxies
    and the configuration snapshot of this request (its other arguments are
    fixed when the server is created): it declines, takes the request, or
    throws.  [statusReport] is the status object of the browser control
    service, from [getBrowserControlState()] to [JSON.stringify]. *)
Record Collaborators (Content Secrets Config : Type) : Type := mkCollaborators {
  loadConfig : Attempt Config;
  gatewayTrustedProxies : Config -> option (list string);
  otherTargets : string -> Attempt string;
  consult :
    Handler -> IncomingMessage Content -> list string -> Config -> Attempt bool;
  isCanvasPath : string -> bool;
  isLocalDirectRequest : IncomingMessage Content -> list string -> bool;
  getBearerToken : IncomingMessage Content -> option string;
  authorizeGatewayConnect :
    MachineScopedAuth.ResolvedGatewayAuth Secrets ->
    option MachineScopedAuth.ConnectAuth -> IncomingMessage Content ->
    list string -> MachineScopedAuth.GatewayAuthResult;
  socketRemoteAddress : IncomingMessage Content -> option string;
  getHeader : IncomingMessage Content -> string -> option string;
  resolveGatewayClientIp :
    string -> option string -> option string -> list string -> option string;
  isPrivateOrLoopbackAddress : string -> bool;
  contentTypeForPath : string -> string;
  fs : FileSystem;
  statusReport : Attempt HooksHandler.Json;
  stopBrowserControlService : Attempt unit;
  startBrowserControlServiceFromConfig : Attempt unit
}.

Arguments loadConfig {Content Secrets Config}.
Arguments gatewayTrustedProxies {Content Secrets Config}.
Arguments otherTargets {Content Secrets Config}.
Arguments consult {Content Secrets Config}.
Arguments isCanvasPath {Content Secrets Config}.
Arguments isLocalDirectRequest {Content Secrets Config}.
Arguments getBearerToken {Content Secrets Config}.
Arguments authorizeGatewayConnect {Content Secrets Config}.
Arguments socketRemoteAddress {Content Secrets Config}.
Arguments getHeader {Content Secrets Config}.
Arguments resolveGatewayClientIp {Content Secrets Config}.
Arguments isPrivateOrLoopbackAddress {Content Secrets Config}.
Arguments contentTypeForPath {Content Secrets Config}.
Arguments fs {Content Secrets Config}.
Arguments statusReport {Content Secrets Config}.
Arguments stopBrowserControlService {Content Secrets Config}.
Arguments startBrowserControlServiceFromConfig {Content Secrets Config}.

(** What reaches [res.end] when [handleRequest] answers itself.
    [ErrorMessage] is [JSON.stringify({ error: err.message })] for the
    exception caught in the API branch. *)
Inductive Payload : Type :=
| NoPayload
| Text (text : string)
| FileBytes (bytes : string)
| ViewerHtml
| JsonValue (value : HooksHandler.Json)
| ErrorMessage.

Record Reply : Type := mkReply {
  status : Z;
  replyHeaders : list (string * string);
  payload : Payload
}.

(** How a run of [handleRequest] ends: it returns at once (an upgrade
    request), an imported handler took the request, an exception of an
    imported handler reached the [catch], [sendGatewayAuthFailure] was
    called, or [handleRequest] wrote the answer. *)
Inductive Outcome : Type :=
| Ignored
| TakenBy (h : Handler)
| CaughtFrom (h : Handler)
| AuthFailure (result : MachineScopedAuth.GatewayAuthResult)
| Answered (reply : Reply).

(** What a run did on the way, oldest first. *)
Inductive Effect : Type :=
| ConfigLoaded
| Consulted (h : Handler)
| GatewayAuthChecked (token : option string)
| MachineAuthChecked (steps : list MachineScopedAuth.Step)
| Fs (call : FsCall)
| Browser (op : BrowserOp).

(** [s.replace(/\/+$/, "")] *)
Fixpoint stripTrailingSlashes (s : string) : string :=
  match s with
  | EmptyString => EmptyString
  | String c rest =>
      match stripTrailingSlashes rest with
      | EmptyString =>
          if Ascii.eqb c "/" then EmptyString else String c EmptyString
      | kept => String c kept
      end
  end.

(** [s.slice(s.indexOf("?"))] when [s.includes("?")], else [""] *)
Fixpoint fromQuestionMark (s : string) : string :=
  match s with
  | EmptyString => EmptyString
  | String c rest => if Ascii.eqb c "?" then s else fromQuestionMark rest
  end.

(** [String(req.headers.upgrade ?? "").toLowerCase() === "websocket"];
    header values hold code points below 256, where lower-casing the ASCII
    letters decides the comparison. *)
Definition isWebSocketUpgrade {Content : Type} (req : IncomingMessage Content)
  : bool :=
  String.eqb
    (toAsciiLowerCase (match upgrade req with Some v => v | None => "" end))
    "websocket".

Definition ofResponse (r : Response) : Reply :=
  mkReply (statusCode r) (headers r)
    (match body r with
     | TextBody text => Text text
     | FileBody bytes => FileBytes bytes
     end).

Definition JSON_HEADERS : list (string * string) :=
  setHeader "Cache-Control" "no-cache"
    (setHeader "Content-Type" "application/json; charset=utf-8" []).

Definition okStarting : HooksHandler.Json :=
  HooksHandler.JObject
    [("ok", HooksHandler.JBool true); ("starting", HooksHandler.JBool true)].

Definition okStopped : HooksHandler.Json :=
  HooksHandler.JObject
    [("ok", HooksHandler.JBool true); ("running", HooksHandler.JBool false)].

Definition unknownAction : HooksHandler.Json :=
  HooksHandler.JObject [("error", HooksHandler.JString "Unknown action")].

Section Router.

Context {Content Secrets Config : Type}.
Context (deps : Collaborators Content Secrets Config).

#[local] Abbreviation Req := (IncomingMessage Content).
#[local] Abbreviation Run := (Outcome * list Effect)%type.

(** The collaborators of [authorizeMachineScopedRequest], which always
    passes a [connectAuth]. *)
Definition machineDeps : MachineScopedAuth.Collaborators Req Secrets :=
  MachineScopedAuth.mkCollaborators Req Secrets
    (isLocalDirectRequest deps) (getBearerToken deps)
    (fun auth connectAuth =>
       authorizeGatewayConnect deps auth (Some connectAuth))
    (socketRemoteAddress deps) (getHeader deps)
    (resolveGatewayClientIp deps) (isPrivateOrLoopbackAddress deps).

(** [if (await handler(req, res, ...)) return;] inside the [try] *)
Definition consulting (h : Handler) (req : Req) (trustedProxies : list string)
  (config : Config) (tr : list Effect) (next : list Effect -> Run) : Run :=
  match consult deps h req trustedProxies config with
  | Thrown => (CaughtFrom h, tr ++ [Consulted h])
  | Done true => (TakenBy h, tr ++ [Consulted h])
  | Done false => next (tr ++ [Consulted h])
  end.

(** [const ok = await authorizeMachineScopedRequest(...); if (!ok.ok) {
    sendGatewayAuthFailure(res, ok); return; }] *)
Definition machineScoped (opts : Options Secrets) (req : Req)
  (trustedProxies : list string) (tr : list Effect) (next : list Effect -> Run)
  : Run :=
  let '(result, steps) :=
    MachineScopedAuth.authorizeMachineScopedRequest machineDeps req
      (resolvedAuth opts) trustedProxies (clients opts) in
  if negb (MachineScopedAuth.ok result)
  then (AuthFailure result, tr ++ [MachineAuthChecked steps])
  else next (tr ++ [MachineAuthChecked steps]).

(** The plugin stage: channel endpoints are behind gateway auth. *)
Definition pluginStage (opts : Options Secrets) (req : Req)
  (requestPath : string) (trustedProxies : list string) (config : Config)
  (tr : list Effect) (next : list Effect -> Run) : Run :=
  if negb (handlePluginRequest opts) then next tr
  else if String.prefix "/api/channels/" requestPath
  then
    let token := getBearerToken deps req in
    let connectAuth :=
      match MachineScopedAuth.truthy token with
      | Some t => Some (MachineScopedAuth.mkConnectAuth t t)
      | None => None
      end in
    let authResult :=
      authorizeGatewayConnect deps (resolvedAuth opts) connectAuth req
        trustedProxies in
    if negb (MachineScopedAuth.ok authResult)
    then (AuthFailure authResult, tr ++ [GatewayAuthChecked token])
    else
      consulting Plugin req trustedProxies config
        (tr ++ [GatewayAuthChecked token]) next
  else consulting Plugin req trustedProxies config tr next.

(** The browser control API, [/vnc/api/{status,start,stop,restart}]; the
    two headers are set before the inner [try]. *)
Definition browserControlApi (req : Req) (action : string) (tr : list Effect)
  : Run :=
  let failed := Answered (mkReply 500 JSON_HEADERS ErrorMessage) in
  let isPost := String.eqb (method req) "POST" in
  if String.eqb action "status"
  then
    match statusReport deps with
    | Thrown => (failed, tr ++ [Browser ReadState])
    | Done report =>
        (Answered (mkReply 200 JSON_HEADERS (JsonValue report)),
         tr ++ [Browser ReadState])
    end
  else if String.eqb action "restart" && isPost
  then
    match stopBrowserControlService deps with
    | Thrown => (failed, tr ++ [Browser StopService])
    | Done _ =>
        match startBrowserControlServiceFromConfig deps with
        | Thrown => (failed, tr ++ [Browser StopService; Browser StartService])
        | Done _ =>
            (Answered (mkReply 200 JSON_HEADERS (JsonValue okStarting)),
             tr ++ [Browser StopService; Browser StartService;
                    Browser EnsureBrowser])
        end
    end
  else if String.eqb action "stop" && isPost
  then
    match stopBrowserControlService deps with
    | Thrown => (failed, tr ++ [Browser StopService])
    | Done _ =>
        (Answered (mkReply 200 JSON_HEADERS (JsonValue okStopped)),
         tr ++ [Browser StopService])
    end
  else if String.eqb action "start" && isPost
  then
    match startBrowserControlServiceFromConfig deps with
    | Thrown => (failed, tr ++ [Browser StartService])
    | Done _ =>
        (Answered (mkReply 200 JSON_HEADERS (JsonValue okStarting)),
         tr ++ [Browser StartService; Browser EnsureBrowser])
    end
  else (Answered (mkReply 404 JSON_HEADERS (JsonValue unknownAction)), tr).

(** The viewer branch, once authorization has passed. *)
Definition viewerBranch (opts : Options Secrets) (req : Req)
  (requestPath : string) (tr : list Effect) : Run :=
  let vncViewerPath := resolveVncRoutePath (controlUiBasePath opts) "" in
  let vncApiPrefix := resolveVncRoutePath (controlUiBasePath opts) "/api/" in
  let vncAssetsPrefix := resolveVncRoutePath (controlUiBasePath opts) "/novnc/" in
  let noVncRoot := if vncEnabled opts then bundledNoVncRoot opts else None in
  if String.eqb requestPath vncViewerPath
  then
    let qs := match url req with Some u => fromQuestionMark u | None => "" end in
    (Answered
       (mkReply 301
          [("Location", String.append vncViewerPath (String "/" qs))] NoPayload),
     tr)
  else if String.eqb requestPath (String.append vncViewerPath "/")
  then
    (Answered
       (mkReply 200
          (setHeader "Cache-Control" "no-cache"
             (setHeader "Content-Type" "text/html; charset=utf-8" []))
          ViewerHtml),
     tr)
  else if String.prefix vncApiPrefix requestPath
  then
    browserControlApi req
      (stripTrailingSlashes
         (HooksHandler.sliceFrom (String.length vncApiPrefix) requestPath))
      tr
  else
    let '(res, calls) :=
      serveNoVncAsset (contentTypeForPath deps) (fs deps) noVncRoot
        vncAssetsPrefix requestPath in
    (Answered (ofResponse res), tr ++ map Fs calls).

(** The canvas stage *)
Definition canvasStage (opts : Options Secrets) (req : Req)
  (requestPath : string) (trustedProxies : list string) (config : Config)
  (tr : list Effect) (next : list Effect -> Run) : Run :=
  if negb (canvasHost opts) then next tr
  else
    let handlers tr :=
      consulting A2ui req trustedProxies config tr
        (fun tr => consulting CanvasHost req trustedProxies config tr next) in
    if isCanvasPath deps requestPath
    then machineScoped opts req trustedProxies tr handlers
    else handlers tr.

(** The control UI stage *)
Definition controlUiStage (opts : Options Secrets) (req : Req)
  (trustedProxies : list string) (config : Config) (tr : list Effect)
  (next : list Effect -> Run) : Run :=
  if negb (controlUiEnabled opts) then next tr
  else
    consulting ControlUiAvatar req trustedProxies config tr
      (fun tr => consulting ControlUiHttp req trustedProxies config tr next).

(** [handleRequest(req, res)] *)
Definition handleRequest (opts : Options Secrets) (req : Req) : Run :=
  if isWebSocketUpgrade req then (Ignored, [])
  else
    match loadConfig deps with
    | Thrown => (Answered (ofResponse (INTERNAL_SERVER_ERROR [])), [ConfigLoaded])
    | Done config =>
        let trustedProxies :=
          match gatewayTrustedProxies deps config with
          | Some proxies => proxies
          | None => []
          end in
        match requestPathOf (otherTargets deps) (url req) with
        | Thrown =>
            (Answered (ofResponse (INTERNAL_SERVER_ERROR [])), [ConfigLoaded])
        | Done requestPath =>
            consulting Hooks req trustedProxies config [ConfigLoaded] (fun tr =>
            consulting ToolsInvoke req trustedProxies config tr (fun tr =>
            consulting Slack req trustedProxies config tr (fun tr =>
            pluginStage opts req requestPath trustedProxies config tr (fun tr =>
            (if openResponsesEnabled opts
             then consulting OpenResponses req trustedProxies config tr
             else fun next => next tr) (fun tr =>
            (if openAiChatCompletionsEnabled opts
             then consulting OpenAi req trustedProxies config tr
             else fun next => next tr) (fun tr =>
            if isVncRoute (vncEnabled opts) (controlUiBasePath opts) requestPath
            then
              machineScoped opts req trustedProxies tr
                (viewerBranch opts req requestPath)
            else
              canvasStage opts req requestPath trustedProxies config tr (fun tr =>
              controlUiStage opts req trustedProxies config tr (fun tr =>
              (Answered (ofResponse NOT_FOUND), tr)))))))))
        end
    end.

(** ** Reading a run *)

Definition isFs (e : Effect) : bool :=
  match e with Fs _ => true | _ => false end.

Definition isBrowser (e : Effect) : bool :=
  match e with Browser _ => true | _ => false end.

Definition isConsulted (e : Effect) : bool :=
  match e with Consulted _ => true | _ => false end.

(** Starting or stopping the browser control service. *)
Definition changesBrowser (e : Effect) : bool :=
  match e with
  | Browser StopService | Browser StartService | Browser EnsureBrowser => true
  | _ => false
  end.

Definition consultedPlugin (e : Effect) : bool :=
  match e with Consulted Plugin => true | _ => false end.

End Router.

(** ** Properties of the router *)

Ltac split_router :=
  repeat match goal with
         | |- context [match ?x with _ => _ end] => destruct x eqn:?
         | |- context [if ?x then _ else _] => destruct x eqn:?
         end.

Ltac unfold_router :=
  unfold handleRequest, pluginStage, canvasStage, controlUiStage,
    machineScoped, viewerBranch, browserControlApi, consulting.

Section RouterFacts.

Context {Content Secrets Config : Type}.
Context (deps : Collaborators Content Secrets Config).

#[local] Abbreviation Req := (IncomingMessage Content).

(** The trusted proxies of a request, [configSnapshot.gateway?.trustedProxies
    ?? []]. *)
Definition trustedProxiesOf (config : Config) : list string :=
  match gatewayTrustedProxies deps config with
  | Some proxies => proxies
  | None => []
  end.

(** The verdict of [authorizeMachineScopedRequest] on a request. *)
Definition machineVerdict (opts : Options Secrets) (req : Req) (config : Config)
  : MachineScopedAuth.GatewayAuthResult :=
  fst (MachineScopedAuth.authorizeMachineScopedRequest (machineDeps deps) req
         (resolvedAuth opts) (trustedProxiesOf config) (clients opts)).

(** The answers only the viewer branch gives: the redirect, the viewer
    page, a file, and the JSON of the browser control API. *)
Definition isViewerAnswer (o : Outcome) : bool :=
  match o with
  | Answered reply =>
      match payload reply with
      | NoPayload | ViewerHtml | FileBytes _ | JsonValue _ | ErrorMessage => true
      | Text _ => false
      end
  | _ => false
  end.

(** Effects other than calls into the file system and the browser
    control service. *)
Definition isQuiet (e : Effect) : bool := negb (isFs e || isBrowser e).

Lemma quiet_no_fs (tr : list Effect) :
  forallb isQuiet tr = true ->
  existsb isFs tr = false /\ existsb isBrowser tr = false
  /\ existsb changesBrowser tr = false.
Proof.
  induction tr as [|e tr IH]; simpl; [auto|].
  rewrite andb_true_iff. intros [He Htr]. destruct (IH Htr) as (H1 & H2 & H3).
  rewrite H1, H2, H3. destruct e as [| | | | |op]; try discriminate He; auto.
Qed.

(** A run either stays outside the viewer branch, and then touches neither
    the file system nor the browser, or it is the viewer branch, entered for
    a viewer route after [authorizeMachineScopedRequest] accepted. *)
Lemma run_shape (opts : Options Secrets) (req : Req) :
  let run := handleRequest deps opts req in
  (forallb isQuiet (snd run) = true /\ isViewerAnswer (fst run) = false)
  \/ (exists config requestPath pre,
        loadConfig deps = Done config
        /\ requestPathOf (otherTargets deps) (url req) = Done requestPath
        /\ isVncRoute (vncEnabled opts) (controlUiBasePath opts) requestPath = true
        /\ MachineScopedAuth.ok (machineVerdict opts req config) = true
        /\ run = viewerBranch deps opts req requestPath pre
        /\ forallb isQuiet pre = true).
Proof.
  intros run. subst run. unfold machineVerdict, trustedProxiesOf.
  unfold handleRequest, pluginStage, canvasStage, controlUiStage, machineScoped,
    consulting.
  destruct (isWebSocketUpgrade req); [left; split; reflexivity|].
  destruct (loadConfig deps) as [config|]; [|left; split; reflexivity].
  destruct (requestPathOf (otherTargets deps) (url req)) as [requestPath|];
    [|left; split; reflexivity].
  destruct (MachineScopedAuth.authorizeMachineScopedRequest (machineDeps deps) req
              (resolvedAuth opts)
              match gatewayTrustedProxies deps config with
              | Some proxies => proxies
              | None => []
              end (clients opts)) as [verdict steps] eqn:Hverdict.
  destruct (isVncRoute (vncEnabled opts) (controlUiBasePath opts) requestPath)
    eqn:Hroute.
  - destruct (MachineScopedAuth.ok verdict) eqn:Hok; cbn [negb];
      split_router;
      first [ left; split; reflexivity
            | right; exists config, requestPath; eexists;
              split; [reflexivity|]; split; [reflexivity|];
              split; [exact Hroute|];
              split; [rewrite Hverdict; exact Hok|];
              split; reflexivity ].
  - left. split_router; split; reflexivity.
Qed.


(** X2.  The router reads bundled files only: every call it makes into the
    file system is made for a request under the assets prefix, on the path
    obtained by joining the bundled root with the rest of the request path,
    and that path has passed both checks: the rest is a safe asset path and
    the joined path has the bundled root as a string prefix. *)
Theorem router_reads_only_under_root (opts : Options Secrets) (req : Req)
  (call : FsCall) :
  In (Fs call) (snd (handleRequest deps opts req)) ->
  exists root requestPath,
    bundledNoVncRoot opts = Some root
    /\ requestPathOf (otherTargets deps) (url req) = Done requestPath
    /\ String.prefix (resolveVncRoutePath (controlUiBasePath opts) "/novnc/")
         requestPath = true
    /\ let rel :=
         String.substring
           (String.length (resolveVncRoutePath (controlUiBasePath opts) "/novnc/"))
           (String.length requestPath
            - String.length (resolveVncRoutePath (controlUiBasePath opts) "/novnc/"))
           requestPath in
       pathOfCall call = join root rel
       /\ isSafeNoVncAssetPath rel = true
       /\ String.prefix root (join root rel) = true.
Proof.
  intros Hcall.
  destruct (run_shape opts req) as [[Hquiet _] | Hviewer].
  - exfalso. destruct (quiet_no_fs _ Hquiet) as (Hfs & _).
    assert (existsb isFs (snd (handleRequest deps opts req)) = true) as Hyes
        by (apply existsb_exists; now exists (Fs call)).
    congruence.
  - destruct Hviewer as (config & requestPath & pre & _ & Hpath & Hroute & _
                         & Hrun & Hpre).
    rewrite Hrun in Hcall. clear Hrun.
    unfold isVncRoute in Hroute. apply andb_true_iff in Hroute.
    destruct Hroute as [Henabled Hroute].
    assert (~ In (Fs call) pre) as Hnone.
    { intros Hin. rewrite forallb_forall in Hpre. specialize (Hpre _ Hin).
      discriminate Hpre. }
    unfold viewerBranch in Hcall. rewrite Henabled in Hcall.
    destruct (String.eqb requestPath _) eqn:Eviewer in Hcall; [contradiction|].
    rewrite Eviewer in Hroute.
    destruct (String.eqb requestPath (String.append _ "/")) eqn:Epage in Hcall;
      [contradiction|].
    rewrite Epage in Hroute.
    destruct (String.prefix (resolveVncRoutePath _ "/api/") requestPath)
      eqn:Eapi in Hcall.
    + exfalso. revert Hcall. unfold browserControlApi.
      split_router; cbn [snd]; rewrite ?in_app_iff; cbn [In]; intros H;
        repeat match goal with
               | H : _ \/ _ |- _ => destruct H as [H | H]
               | H : False |- _ => destruct H
               | H : _ = Fs _ |- _ => discriminate H
               end;
        contradiction.
    + rewrite Eapi in Hroute. cbn [orb] in Hroute.
      destruct (serveNoVncAsset _ _ _ _ _) as [res calls] eqn:Eserve in Hcall.
      cbn [snd] in Hcall. apply in_app_iff in Hcall.
      destruct Hcall as [Hcall | Hcall]; [contradiction|].
      apply in_map_iff in Hcall. destruct Hcall as [call' [Heq Hin]].
      inversion Heq; subst call'.
      assert (In call (snd (serveNoVncAsset (contentTypeForPath deps) (fs deps)
                              (bundledNoVncRoot opts)
                              (resolveVncRoutePath (controlUiBasePath opts) "/novnc/")
                              requestPath))) as Hin'
          by (rewrite Eserve; exact Hin).
      destruct (serve_calls_checked _ _ _ _ _ _ Hin') as [root [Hroot Hchecked]].
      exists root, requestPath. auto.
Qed.

(** X3.  The browser is started or stopped by [POST] only: a request with
    any other method never reaches [stopBrowserControlService],
    [startBrowserControlServiceFromConfig] or [ensureBrowserAvailable]. *)
Theorem browser_control_changes_need_post (opts : Options Secrets) (req : Req) :
  method req <> "POST" ->
  existsb changesBrowser (snd (handleRequest deps opts req)) = false.
Proof.
  intros Hmethod. apply String.eqb_neq in Hmethod.
  destruct (run_shape opts req) as [[Hquiet _] | Hviewer].
  - now destruct (quiet_no_fs _ Hquiet) as (_ & _ & H).
  - destruct Hviewer as (config & requestPath & pre & _ & _ & _ & _ & Hrun & Hpre).
    rewrite Hrun. destruct (quiet_no_fs _ Hpre) as (_ & _ & Hquiet).
    unfold viewerBranch, browserControlApi. rewrite Hmethod, !andb_false_r.
    assert (forall calls, existsb changesBrowser (map Fs calls) = false) as Hfs
        by (intros calls; induction calls; simpl; auto).
    split_router; cbn [fst snd]; rewrite ?existsb_app, ?Hquiet, ?Hfs;
      reflexivity.
Qed.

(** The handlers a run consulted, oldest first. *)
Fixpoint consultedHandlers (tr : list Effect) : list Handler :=
  match tr with
  | [] => []
  | Consulted h :: rest => h :: consultedHandlers rest
  | _ :: rest => consultedHandlers rest
  end.

Lemma consultedHandlers_app (a b : list Effect) :
  consultedHandlers (a ++ b) = consultedHandlers a ++ consultedHandlers b.
Proof.
  induction a as [|e a IH]; simpl; [reflexivity|].
  destruct e; simpl; now rewrite IH.
Qed.

Lemma consultedHandlers_fs (calls : list FsCall) :
  consultedHandlers (map Fs calls) = [].
Proof. induction calls; simpl; auto. Qed.

(** The viewer branch consults no imported handler and takes no request
    for one. *)
Lemma viewerBranch_consults_nobody (opts : Options Secrets) (req : Req)
  (requestPath : string) (tr : list Effect) :
  consultedHandlers (snd (viewerBranch deps opts req requestPath tr))
  = consultedHandlers tr
  /\ forall h, fst (viewerBranch deps opts req requestPath tr) <> TakenBy h.
Proof.
  unfold viewerBranch, browserControlApi.
  split_router; cbn [fst snd];
    rewrite ?consultedHandlers_app, ?consultedHandlers_fs, ?app_nil_r;
    (split; [reflexivity | discriminate]).
Qed.

Ltac unfold_stages :=
  unfold handleRequest, pluginStage, canvasStage, controlUiStage, machineScoped,
    consulting.

(** X4.  Channel endpoints of plugins are behind gateway authorization: for
    a request path under [/api/channels/] the plugin handler is consulted
    only after [authorizeGatewayConnect] has accepted the bearer token of the
    request (or its absence). *)
Theorem channel_endpoints_need_gateway_auth (opts : Options Secrets) (req : Req)
  (config : Config) (requestPath : string) :
  loadConfig deps = Done config ->
  requestPathOf (otherTargets deps) (url req) = Done requestPath ->
  String.prefix "/api/channels/" requestPath = true ->
  In Plugin (consultedHandlers (snd (handleRequest deps opts req))) ->
  MachineScopedAuth.ok
    (authorizeGatewayConnect deps (resolvedAuth opts)
       (match MachineScopedAuth.truthy (getBearerToken deps req) with
        | Some t => Some (MachineScopedAuth.mkConnectAuth t t)
        | None => None
        end)
       req (trustedProxiesOf config)) = true.
Proof.
  intros Hconfig Hpath Hchannel. unfold trustedProxiesOf.
  unfold_stages. rewrite Hconfig, Hpath, Hchannel.
  destruct (MachineScopedAuth.ok (authorizeGatewayConnect _ _ _ _ _)) eqn:Hok;
    [reflexivity|]. cbn [negb].
  split_router; cbn [fst snd];
    rewrite ?(proj1 (viewerBranch_consults_nobody _ _ _ _));
    cbn [consultedHandlers app In]; intros H;
    repeat (destruct H as [H | H]; [discriminate H|]); destruct H.
Qed.



End RouterFacts.

(** ** A concrete gateway, for worked examples

    A request says whether it arrives over loopback and which bearer token
    it carries; the token [s3cret] is accepted; the plugin handler takes the
    channel endpoints; the bundle holds one file. *)

Record ExampleContent : Type := mkExampleContent {
  fromLoopback : bool;
  bearer : option string
}.

Definition exampleDeps : Collaborators ExampleContent unit unit :=
  {| loadConfig := Done tt;
     gatewayTrustedProxies := fun _ => None;
     otherTargets := fun _ => Thrown;
     consult := fun h req _ _ =>
       match h with
       | Plugin =>
           Done (String.prefix "/api/channels/"
                   (match url req with Some u => u | None => "/" end))
       | _ => Done false
       end;
     isCanvasPath := fun _ => false;
     isLocalDirectRequest := fun req _ => fromLoopback (content req);
     getBearerToken := fun req => bearer (content req);
     authorizeGatewayConnect := fun _ connectAuth _ _ =>
       match connectAuth with
       | Some c =>
           if String.eqb (MachineScopedAuth.ca_token c) "s3cret"
           then MachineScopedAuth.AUTH_OK
           else MachineScopedAuth.AUTH_UNAUTHORIZED
       | None => MachineScopedAuth.AUTH_UNAUTHORIZED
       end;
     socketRemoteAddress := fun _ => None;
     getHeader := fun _ _ => None;
     resolveGatewayClientIp := fun _ _ _ _ => None;
     isPrivateOrLoopbackAddress := fun _ => false;
     contentTypeForPath := fun _ => "application/javascript; charset=utf-8";
     fs :=
       mkFileSystem (fun p => String.eqb p "/opt/novnc/core/rfb.js")
         (fun _ => Done true) (fun _ => Done "export default class RFB {}");
     statusReport :=
       Done (HooksHandler.JObject [("running", HooksHandler.JBool false)]);
     stopBrowserControlService := Done tt;
     startBrowserControlServiceFromConfig := Done tt |}.

Definition exampleOptions : Options unit :=
  mkOptions false [] false "" true false false true
    (MachineScopedAuth.mkAuth true tt) (Some "/opt/novnc").

Definition exampleRequest (verb target : string) (loopback : bool)
  (token : option string) : IncomingMessage ExampleContent :=
  mkIncoming (Some target) None verb (mkExampleContent loopback token).


Lemma router_reads_only_under_root_witness :
  exists root requestPath,
    root = "/opt/novnc"
    /\ requestPath = "/vnc/novnc/core/rfb.js"
    /\ pathOfCall (ReadFileSync "/opt/novnc/core/rfb.js")
       = join root
           (String.substring (String.length "/vnc/novnc/")
              (String.length requestPath - String.length "/vnc/novnc/")
              requestPath).
Proof.
  destruct (router_reads_only_under_root exampleDeps exampleOptions
              (exampleRequest "GET" "/vnc/novnc/core/rfb.js" true None)
              (ReadFileSync "/opt/novnc/core/rfb.js"))
    as (root & requestPath & Hroot & Hpath & _ & Hcall & _).
  - vm_compute. tauto.
  - exists root, requestPath. vm_compute in Hroot, Hpath.
    inversion Hroot. inversion Hpath. auto.
Defined.

Lemma browser_control_changes_need_post_witness :
  let run :=
    handleRequest exampleDeps exampleOptions
      (exampleRequest "GET" "/vnc/api/stop" true None) in
  existsb changesBrowser (snd run) = false
  /\ fst run = Answered (mkReply 404 JSON_HEADERS (JsonValue unknownAction))
  /\ existsb changesBrowser
       (snd (handleRequest exampleDeps exampleOptions
               (exampleRequest "POST" "/vnc/api/stop/" true None))) = true.
Proof.
  intros run. split; [|split; reflexivity].
  apply (browser_control_changes_need_post exampleDeps exampleOptions).
  discriminate.
Defined.

Lemma channel_endpoints_need_gateway_auth_witness :
  let req := exampleRequest "POST" "/api/channels/telegram" false (Some "s3cret") in
  fst (handleRequest exampleDeps exampleOptions req) = TakenBy Plugin
  /\ MachineScopedAuth.ok
       (authorizeGatewayConnect exampleDeps (resolvedAuth exampleOptions)
          (Some (MachineScopedAuth.mkConnectAuth "s3cret" "s3cret")) req []) = true
  /\ fst (handleRequest exampleDeps exampleOptions
            (exampleRequest "POST" "/api/channels/telegram" false (Some "guess")))
     = AuthFailure MachineScopedAuth.AUTH_UNAUTHORIZED.
Proof.
  intros req. split; [reflexivity|]. split; [|reflexivity].
  apply (channel_endpoints_need_gateway_auth exampleDeps exampleOptions req tt
           "/api/channels/telegram" eq_refl eq_refl eq_refl).
  vm_compute. tauto.
Defined.



End GatewayRouter.
